(** * ORB-SLAM2 [System]: the orchestrator of [src/System.cc]

  A shallow embedding of the orchestrator class [ORB_SLAM2::System]:
  the ingestion entry points with their mode/reset request flags, the
  shutdown sequence, map persistence, and the trajectory exports.

  The orchestrator runs on the caller's thread.  Everything it does to
  its collaborators (tracking engine, local mapping, loop closing,
  viewer, streams) is recorded as an [Event] in a trace, in program
  order.  What the concurrently running workers answer when polled is
  given by an oracle indexed by the number of polls made so far, so a
  statement quantified over all oracles holds for every behaviour of
  the workers.  Polling loops take fuel; running out of fuel is the
  outcome [Stall], distinct from a return.  The mutexes of the source
  are not modelled: only the orchestrator thread touches the request
  flags inside one call. *)

From stdpp Require Import base gmap list strings sorting.
From Stdlib Require Import ZArith String.

Open Scope Z_scope.

(** ** External types and operations

  [cv::Mat] with the operations the exports use, the quaternion
  conversion of [Converter.h], timestamps ([double]), images and
  [cv::KeyPoint].  None of them is defined in [System.cc]; they are an
  interface here. *)
Class Extern := {
  Mat : Type;
  Quat : Type;
  Timestamp : Type;
  Image : Type;
  KeyPoint : Type;
  (** [a * b] *)
  mat_mul : Mat → Mat → Mat;
  (** [cv::Mat::eye(4,4,CV_32F)] *)
  mat_eye : Mat;
  (** [m.t()] *)
  mat_t : Mat → Mat;
  (** [m.rowRange(0,3).colRange(0,3)] *)
  mat_R : Mat → Mat;
  (** [m.rowRange(0,3).col(3)] *)
  mat_tcol : Mat → Mat;
  (** unary [-m] *)
  mat_neg : Mat → Mat;
  (** [Converter::toQuaternion] *)
  toQuaternion : Mat → Quat;
}.

(** ** [has_suffix] (System.cc, lines 27-31) *)
Module Suffix.

(** [std::size_t] is 64 bits wide; subtraction wraps around. *)
Definition size_t_sub (a b : Z) : Z := (a - b) mod 2 ^ 64.
Definition npos : Z := 2 ^ 64 - 1.

(** [str.find(pat, pos)]: the first index at or after [pos] where [pat]
    occurs in [str], [npos] when there is none or [pos] is past the end. *)
Definition find (str pat : string) (pos : Z) : Z :=
  if Z.of_nat (String.length str) <? pos then npos
  else match String.index (Z.to_nat pos) pat str with
       | Some i => Z.of_nat i
       | None => npos
       end.

Definition has_suffix (str suffix : string) : bool :=
  let index :=
    find str suffix
      (size_t_sub (Z.of_nat (String.length str)) (Z.of_nat (String.length suffix))) in
  negb (index =? npos).

End Suffix.
Export Suffix.

(** ** Enumerations *)

(** Modelled from the spec: [System::eSensor] is declared in [System.h],
  which is not part of the sources; the spec names the three sensor
  modalities. *)
Inductive eSensor := MONOCULAR | STEREO | RGBD.

Global Instance eSensor_eq_dec : EqDecision eSensor.
Proof. solve_decision. Defined.

(** Modelled from the spec: [Tracking::eTrackingState] is declared in
  [Tracking.h], which is not part of the sources.  The spec lists the
  states as NotReady, NoImagesYet, NotInitialized, Ok, Lost;
  [System.cc] only compares the stored [int] with the literals 2 and 3,
  which the spec reads as Ok and Lost, so the numbering starts at -1. *)
Inductive eTrackingState :=
  SYSTEM_NOT_READY | NO_IMAGES_YET | NOT_INITIALIZED | OK | LOST.

Definition state_code (s : eTrackingState) : Z :=
  match s with
  | SYSTEM_NOT_READY => -1
  | NO_IMAGES_YET => 0
  | NOT_INITIALIZED => 1
  | OK => 2
  | LOST => 3
  end.

(** ** Objects *)
Section Model.
Context `{Extern}.

(** The members and getters of [KeyFrame] that [System.cc] reads; the
    class is declared in [KeyFrame.h], which is not part of the sources,
    so a getter is a field holding what it returns.  A [KeyFrame*] is an
    address ([nat]); [GetParent] is [None] for a null pointer. *)
Record KeyFrame := {
  mnId : Z;
  mnFrameId : Z;
  mTimeStamp : Timestamp;
  GetPose : Mat;
  GetPoseInverse : Mat;
  GetRotation : Mat;
  GetCameraCenter : Mat;
  mTcp : Mat;
  isBad : bool;
  GetParent : option nat;
}.

(** [KeyFrame::lId], the comparator handed to [std::sort].
    Modelled from the spec: it is declared in [KeyFrame.h], which is not
    part of the sources; the spec orders keyframes by ascending id. *)
Definition lId (pKF1 pKF2 : KeyFrame) : bool := mnId pKF1 <? mnId pKF2.

(** [Map] ([Map.h], not part of the sources), as far as [System.cc]
    reads it: the set of keyframe pointers and the index of the last big
    change. *)
Record Map := {
  mspKeyFrames : list nat;
  mnBigChangeIdx : Z;
}.

Definition GetAllKeyFrames (m : Map) : list nat := mspKeyFrames m.
Definition GetLastBigChangeIdx (m : Map) : Z := mnBigChangeIdx m.

(** The vocabulary is identified by the file it was loaded from. *)
Record ORBVocabulary := { voc_file : string }.

Record KeyFrameDatabase := {
  mpVoc : option ORBVocabulary;
  mvInvertedFile : list (list nat);
}.

(** The members of [Tracking] ([Tracking.h], not part of the sources)
    that [System.cc] reads or writes. *)
Record Tracking := {
  mState : Z;
  frameId : Z;
  mlRelativeFramePoses : list Mat;
  mlpReferences : list nat;
  mlFrameTimes : list Timestamp;
  mlbLost : list bool;
  mCurrentFrame_mvpMapPoints : list nat;
  mCurrentFrame_mvKeysUn : list KeyPoint;
}.

(** The members of [System] ([System.h], not part of the sources) that
    [System.cc] uses.  Pointer members that the constructor fills in are
    [None] until then; [mpViewer] tells whether the viewer pointer is
    non-null.  The workers and their threads have no state here: they
    are reached through events and polls. *)
Record System := {
  mSensor : eSensor;
  mpVocabulary : option ORBVocabulary;
  mpKeyFrameDatabase : option KeyFrameDatabase;
  mpMap : option Map;
  mpTracker : option Tracking;
  mpViewer : bool;
  mbReset : bool;
  mbResetAndLoad : bool;
  mbActivateLocalizationMode : bool;
  mbDeactivateLocalizationMode : bool;
  mTrackingState : Z;
  mTrackedMapPoints : list nat;
  mTrackedKeyPointsUn : list KeyPoint;
  mapfile : string;
}.

(** What a binary map file deserialises to: the [Map], the
    place-recognition index, and the keyframe objects of the graph at
    the addresses the allocator gave them. *)
Record Archive := {
  ar_map : Map;
  ar_db : KeyFrameDatabase;
  ar_objs : gmap nat KeyFrame;
}.

(** Calls to collaborators and stream operations, in program order.
    The [_is...] events carry the answer that was observed. *)
Inductive Event :=
| Cout (s : string)
| Cerr (s : string)
| Sleep (us : Z)
| LM_RequestStop
| LM_isStopped (b : bool)
| LM_Release
| LM_RequestFinish
| LM_isFinished (b : bool)
| LC_RequestFinish
| LC_isFinished (b : bool)
| LC_isRunningGBA (b : bool)
| V_RequestFinish
| V_isFinished (b : bool)
| V_RequestStop
| V_isStopped (b : bool)
| V_Release
| T_InformOnlyTracking (flag : bool)
| T_Reset
| T_ResetAfterLoaded
| T_GrabImageStereo (imLeft imRight : Image) (timestamp : Timestamp)
| T_GrabImageRGBD (im depthmap : Image) (timestamp : Timestamp)
| T_GrabImageMonocular (im : Image) (timestamp : Timestamp)
| BindToContext (name : string)
| F_open (filename : string)
| F_TUM (t : Timestamp) (twc : Mat) (q : Quat)
| F_KFTUM (t : Timestamp) (center : Mat) (q : Quat)
| F_KITTI (Rwc twc : Mat)
| F_close
| OA_open (filename : string)
| OA_Map (m : option Map)
| OA_KeyFrameDatabase (db : option KeyFrameDatabase)
| OA_close
| IA_open (filename : string)
| IA_close
| DB_SetORBvocabulary
| KF_SetORBvocabulary (pKF : nat)
| KF_ComputeBoW (pKF : nat)
| New_FrameDrawer (bReuseMap : bool)
| New_MapDrawer
| New_Tracking (bReuseMap : bool)
| Start_LocalMapping (bMonocular : bool)
| Start_LoopClosing (bFixScale : bool)
| Start_Viewer
| Wire (what : string).

(** What the worker threads answer to one poll. *)
Record Obs := {
  lm_isStopped : bool;
  lm_isFinished : bool;
  lc_isFinished : bool;
  lc_isRunningGBA : bool;
  v_isFinished : bool;
  v_isStopped : bool;
}.

(** Everything outside the orchestrator: the workers' answers ([oracle],
    indexed by the number of polls made so far), the tracking engine's
    methods, and the file system. *)
Record Env := {
  oracle : nat → Obs;
  Tracking_InformOnlyTracking : bool → Tracking → Tracking;
  Tracking_Reset : Tracking → Tracking;
  Tracking_ResetAfterLoaded : Tracking → Tracking;
  Tracking_GrabImageStereo : Image → Image → Timestamp → Tracking → Mat * Tracking;
  Tracking_GrabImageRGBD : Image → Image → Timestamp → Tracking → Mat * Tracking;
  Tracking_GrabImageMonocular : Image → Timestamp → Tracking → Mat * Tracking;
  Tracking_new : bool → Tracking;
  settings_isOpened : string → bool;
  loadFromTextFile : string → bool;
  loadFromBinaryFile : string → bool;
  ifstream : string → option Archive;
  ofstream_ok : string → bool;
}.

(** The process as one [System] method sees it: the object it is called
    on ([this]), the keyframe objects in memory, the static counters
    [Frame::nNextId] and [n] of [System::MapChanged], the trace so far,
    and the number of polls made so far. *)
Record World := {
  this : System;
  heap : gmap nat KeyFrame;
  Frame_nNextId : Z;
  MapChanged_n : Z;
  trace : list Event;
  now : nat;
  env : Env;
}.

Inductive Outcome (A : Type) :=
| Ret (a : A) (w : World)
| Exit (code : Z) (w : World)
| Fault
| Stall.
Global Arguments Ret {A} a w.
Global Arguments Exit {A} code w.
Global Arguments Fault {A}.
Global Arguments Stall {A}.

Definition M (A : Type) : Type := World → Outcome A.

Global Instance M_ret : MRet M := λ A a w, Ret a w.
Global Instance M_bind : MBind M := λ A B f m w,
  match m w with
  | Ret a w' => f a w'
  | Exit c w' => Exit c w'
  | Fault => Fault
  | Stall => Stall
  end.

Definition fault {A} : M A := λ _, Fault.
Definition stall {A} : M A := λ _, Stall.
Definition exit {A} (code : Z) : M A := λ w, Exit code w.
Definition get : M World := λ w, Ret w w.
Definition put (w : World) : M unit := λ _, Ret tt w.

Definition with_this (s : System) (w : World) : World :=
  {| this := s; heap := heap w; Frame_nNextId := Frame_nNextId w;
     MapChanged_n := MapChanged_n w; trace := trace w; now := now w;
     env := env w |}.
Definition with_heap (h : gmap nat KeyFrame) (w : World) : World :=
  {| this := this w; heap := h; Frame_nNextId := Frame_nNextId w;
     MapChanged_n := MapChanged_n w; trace := trace w; now := now w;
     env := env w |}.
Definition with_nNextId (z : Z) (w : World) : World :=
  {| this := this w; heap := heap w; Frame_nNextId := z;
     MapChanged_n := MapChanged_n w; trace := trace w; now := now w;
     env := env w |}.
Definition with_n (z : Z) (w : World) : World :=
  {| this := this w; heap := heap w; Frame_nNextId := Frame_nNextId w;
     MapChanged_n := z; trace := trace w; now := now w; env := env w |}.
(** The world after the events [es] and [k] more polls. *)
Definition advance (es : list Event) (k : nat) (w : World) : World :=
  {| this := this w; heap := heap w; Frame_nNextId := Frame_nNextId w;
     MapChanged_n := MapChanged_n w; trace := trace w ++ es;
     now := (k + now w)%nat; env := env w |}.

Definition emit (e : Event) : M unit := λ w, Ret tt (advance [e] 0 w).

(** One poll of a worker: read the oracle at the current instant,
    record the answer, advance the instant. *)
Definition poll (f : Obs → bool) (ev : bool → Event) : M bool :=
  λ w, let b := f (oracle (env w) (now w)) in Ret b (advance [ev b] 1 w).

Definition modify_this (f : System → System) : M unit :=
  λ w, Ret tt (with_this (f (this w)) w).

Definition deref {A} (p : option A) : M A :=
  match p with Some a => mret a | None => fault end.


Definition get_this : M System := λ w, Ret (this w) w.

(** Single-member updates of [System]. *)
Definition set_mpVocabulary (v : option ORBVocabulary) (s : System) : System :=
  {| mSensor := mSensor s; mpVocabulary := v;
     mpKeyFrameDatabase := mpKeyFrameDatabase s; mpMap := mpMap s;
     mpTracker := mpTracker s; mpViewer := mpViewer s; mbReset := mbReset s;
     mbResetAndLoad := mbResetAndLoad s;
     mbActivateLocalizationMode := mbActivateLocalizationMode s;
     mbDeactivateLocalizationMode := mbDeactivateLocalizationMode s;
     mTrackingState := mTrackingState s;
     mTrackedMapPoints := mTrackedMapPoints s;
     mTrackedKeyPointsUn := mTrackedKeyPointsUn s; mapfile := mapfile s |}.
Definition set_mpKeyFrameDatabase (d : option KeyFrameDatabase) (s : System) : System :=
  {| mSensor := mSensor s; mpVocabulary := mpVocabulary s;
     mpKeyFrameDatabase := d; mpMap := mpMap s;
     mpTracker := mpTracker s; mpViewer := mpViewer s; mbReset := mbReset s;
     mbResetAndLoad := mbResetAndLoad s;
     mbActivateLocalizationMode := mbActivateLocalizationMode s;
     mbDeactivateLocalizationMode := mbDeactivateLocalizationMode s;
     mTrackingState := mTrackingState s;
     mTrackedMapPoints := mTrackedMapPoints s;
     mTrackedKeyPointsUn := mTrackedKeyPointsUn s; mapfile := mapfile s |}.
Definition set_mpMap (m : option Map) (s : System) : System :=
  {| mSensor := mSensor s; mpVocabulary := mpVocabulary s;
     mpKeyFrameDatabase := mpKeyFrameDatabase s; mpMap := m;
     mpTracker := mpTracker s; mpViewer := mpViewer s; mbReset := mbReset s;
     mbResetAndLoad := mbResetAndLoad s;
     mbActivateLocalizationMode := mbActivateLocalizationMode s;
     mbDeactivateLocalizationMode := mbDeactivateLocalizationMode s;
     mTrackingState := mTrackingState s;
     mTrackedMapPoints := mTrackedMapPoints s;
     mTrackedKeyPointsUn := mTrackedKeyPointsUn s; mapfile := mapfile s |}.
Definition set_mpTracker (t : option Tracking) (s : System) : System :=
  {| mSensor := mSensor s; mpVocabulary := mpVocabulary s;
     mpKeyFrameDatabase := mpKeyFrameDatabase s; mpMap := mpMap s;
     mpTracker := t; mpViewer := mpViewer s; mbReset := mbReset s;
     mbResetAndLoad := mbResetAndLoad s;
     mbActivateLocalizationMode := mbActivateLocalizationMode s;
     mbDeactivateLocalizationMode := mbDeactivateLocalizationMode s;
     mTrackingState := mTrackingState s;
     mTrackedMapPoints := mTrackedMapPoints s;
     mTrackedKeyPointsUn := mTrackedKeyPointsUn s; mapfile := mapfile s |}.
Definition set_mpViewer (v : bool) (s : System) : System :=
  {| mSensor := mSensor s; mpVocabulary := mpVocabulary s;
     mpKeyFrameDatabase := mpKeyFrameDatabase s; mpMap := mpMap s;
     mpTracker := mpTracker s; mpViewer := v; mbReset := mbReset s;
     mbResetAndLoad := mbResetAndLoad s;
     mbActivateLocalizationMode := mbActivateLocalizationMode s;
     mbDeactivateLocalizationMode := mbDeactivateLocalizationMode s;
     mTrackingState := mTrackingState s;
     mTrackedMapPoints := mTrackedMapPoints s;
     mTrackedKeyPointsUn := mTrackedKeyPointsUn s; mapfile := mapfile s |}.
Definition set_mbReset (b : bool) (s : System) : System :=
  {| mSensor := mSensor s; mpVocabulary := mpVocabulary s;
     mpKeyFrameDatabase := mpKeyFrameDatabase s; mpMap := mpMap s;
     mpTracker := mpTracker s; mpViewer := mpViewer s; mbReset := b;
     mbResetAndLoad := mbResetAndLoad s;
     mbActivateLocalizationMode := mbActivateLocalizationMode s;
     mbDeactivateLocalizationMode := mbDeactivateLocalizationMode s;
     mTrackingState := mTrackingState s;
     mTrackedMapPoints := mTrackedMapPoints s;
     mTrackedKeyPointsUn := mTrackedKeyPointsUn s; mapfile := mapfile s |}.
Definition set_mbResetAndLoad (b : bool) (s : System) : System :=
  {| mSensor := mSensor s; mpVocabulary := mpVocabulary s;
     mpKeyFrameDatabase := mpKeyFrameDatabase s; mpMap := mpMap s;
     mpTracker := mpTracker s; mpViewer := mpViewer s; mbReset := mbReset s;
     mbResetAndLoad := b;
     mbActivateLocalizationMode := mbActivateLocalizationMode s;
     mbDeactivateLocalizationMode := mbDeactivateLocalizationMode s;
     mTrackingState := mTrackingState s;
     mTrackedMapPoints := mTrackedMapPoints s;
     mTrackedKeyPointsUn := mTrackedKeyPointsUn s; mapfile := mapfile s |}.
Definition set_mbActivateLocalizationMode (b : bool) (s : System) : System :=
  {| mSensor := mSensor s; mpVocabulary := mpVocabulary s;
     mpKeyFrameDatabase := mpKeyFrameDatabase s; mpMap := mpMap s;
     mpTracker := mpTracker s; mpViewer := mpViewer s; mbReset := mbReset s;
     mbResetAndLoad := mbResetAndLoad s;
     mbActivateLocalizationMode := b;
     mbDeactivateLocalizationMode := mbDeactivateLocalizationMode s;
     mTrackingState := mTrackingState s;
     mTrackedMapPoints := mTrackedMapPoints s;
     mTrackedKeyPointsUn := mTrackedKeyPointsUn s; mapfile := mapfile s |}.
Definition set_mbDeactivateLocalizationMode (b : bool) (s : System) : System :=
  {| mSensor := mSensor s; mpVocabulary := mpVocabulary s;
     mpKeyFrameDatabase := mpKeyFrameDatabase s; mpMap := mpMap s;
     mpTracker := mpTracker s; mpViewer := mpViewer s; mbReset := mbReset s;
     mbResetAndLoad := mbResetAndLoad s;
     mbActivateLocalizationMode := mbActivateLocalizationMode s;
     mbDeactivateLocalizationMode := b;
     mTrackingState := mTrackingState s;
     mTrackedMapPoints := mTrackedMapPoints s;
     mTrackedKeyPointsUn := mTrackedKeyPointsUn s; mapfile := mapfile s |}.
Definition set_snapshot (st : Z) (mps : list nat) (kps : list KeyPoint)
    (s : System) : System :=
  {| mSensor := mSensor s; mpVocabulary := mpVocabulary s;
     mpKeyFrameDatabase := mpKeyFrameDatabase s; mpMap := mpMap s;
     mpTracker := mpTracker s; mpViewer := mpViewer s; mbReset := mbReset s;
     mbResetAndLoad := mbResetAndLoad s;
     mbActivateLocalizationMode := mbActivateLocalizationMode s;
     mbDeactivateLocalizationMode := mbDeactivateLocalizationMode s;
     mTrackingState := st;
     mTrackedMapPoints := mps;
     mTrackedKeyPointsUn := kps; mapfile := mapfile s |}.
Definition set_mapfile (f : string) (s : System) : System :=
  {| mSensor := mSensor s; mpVocabulary := mpVocabulary s;
     mpKeyFrameDatabase := mpKeyFrameDatabase s; mpMap := mpMap s;
     mpTracker := mpTracker s; mpViewer := mpViewer s; mbReset := mbReset s;
     mbResetAndLoad := mbResetAndLoad s;
     mbActivateLocalizationMode := mbActivateLocalizationMode s;
     mbDeactivateLocalizationMode := mbDeactivateLocalizationMode s;
     mTrackingState := mTrackingState s;
     mTrackedMapPoints := mTrackedMapPoints s;
     mTrackedKeyPointsUn := mTrackedKeyPointsUn s; mapfile := f |}.

Definition set_frameId (z : Z) (t : Tracking) : Tracking :=
  {| mState := mState t; frameId := z;
     mlRelativeFramePoses := mlRelativeFramePoses t;
     mlpReferences := mlpReferences t; mlFrameTimes := mlFrameTimes t;
     mlbLost := mlbLost t;
     mCurrentFrame_mvpMapPoints := mCurrentFrame_mvpMapPoints t;
     mCurrentFrame_mvKeysUn := mCurrentFrame_mvKeysUn t |}.

Definition set_mpVoc (v : option ORBVocabulary) (d : KeyFrameDatabase) : KeyFrameDatabase :=
  {| mpVoc := v; mvInvertedFile := mvInvertedFile d |}.

(** ** Control structure *)

(** [while (cond) body]. *)
Fixpoint while (fuel : nat) (cond : M bool) (body : M unit) : M unit :=
  match fuel with
  | O => stall
  | S fuel' =>
      b ← cond;
      if b : bool then body;; while fuel' cond body else mret tt
  end.

(** [!a] and the short-circuit [a || b]. *)
Definition notM (a : M bool) : M bool := x ← a; mret (negb x).

Definition when (b : bool) (m : M unit) : M unit := if b then m else mret tt.

(** A call [mpTracker->f(...)] of a [void] method of the tracking
    engine. *)
Definition tracker_call (f : Env → Tracking → Tracking) (e : Event) : M unit :=
  s ← get_this;
  t ← deref (mpTracker s);
  w ← get;
  emit e;;
  modify_this (set_mpTracker (Some (f (env w) t))).

(** A call [mpTracker->GrabImage...(...)]. *)
Definition tracker_grab (f : Env → Tracking → Mat * Tracking) (e : Event) : M Mat :=
  s ← get_this;
  t ← deref (mpTracker s);
  w ← get;
  emit e;;
  modify_this (set_mpTracker (Some (f (env w) t).2));;
  mret (f (env w) t).1.

(** ** Ingestion (System.cc, lines 144-309) *)

(** The block "Check mode change", identical in the three entry points
    except that [TrackMonocular] prints a message first
    ([announce]). *)
Definition CheckModeChange (fuel : nat) (announce : bool) : M unit :=
  s ← get_this;
  when (mbActivateLocalizationMode s)
    (when announce (emit (Cout "Localization mode started"));;
     emit LM_RequestStop;;
     while fuel (notM (poll lm_isStopped LM_isStopped)) (emit (Sleep 1000));;
     tracker_call (λ e, Tracking_InformOnlyTracking e true) (T_InformOnlyTracking true);;
     modify_this (set_mbActivateLocalizationMode false));;
  s ← get_this;
  when (mbDeactivateLocalizationMode s)
    (tracker_call (λ e, Tracking_InformOnlyTracking e false) (T_InformOnlyTracking false);;
     emit LM_Release;;
     modify_this (set_mbDeactivateLocalizationMode false)).

(** The block "Check reset". *)
Definition CheckReset : M unit :=
  s ← get_this;
  when (mbReset s)
    (tracker_call Tracking_Reset T_Reset;;
     modify_this (set_mbReset false)).

(** The block "Check reset and load" (only in [TrackMonocular]). *)
Definition CheckResetAndLoad : M unit :=
  s ← get_this;
  when (mbResetAndLoad s)
    (tracker_call Tracking_ResetAfterLoaded T_ResetAfterLoaded;;
     modify_this (set_mbResetAndLoad false)).

(** The snapshot taken under [mMutexState] after the frame has been
    tracked. *)
Definition SnapshotState : M unit :=
  s ← get_this;
  t ← deref (mpTracker s);
  modify_this
    (set_snapshot (mState t) (mCurrentFrame_mvpMapPoints t) (mCurrentFrame_mvKeysUn t)).

Definition TrackStereo (fuel : nat) (imLeft imRight : Image) (timestamp : Timestamp)
    : M Mat :=
  s ← get_this;
  if bool_decide (mSensor s ≠ STEREO) then
    emit (Cerr "ERROR: you called TrackStereo but input sensor was not set to STEREO.");;
    exit (-1)
  else
    CheckModeChange fuel false;;
    CheckReset;;
    Tcw ← tracker_grab (λ e, Tracking_GrabImageStereo e imLeft imRight timestamp)
             (T_GrabImageStereo imLeft imRight timestamp);
    SnapshotState;;
    mret Tcw.

Definition TrackRGBD (fuel : nat) (im depthmap : Image) (timestamp : Timestamp)
    : M Mat :=
  s ← get_this;
  if bool_decide (mSensor s ≠ RGBD) then
    emit (Cerr "ERROR: you called TrackRGBD but input sensor was not set to RGBD.");;
    exit (-1)
  else
    CheckModeChange fuel false;;
    CheckReset;;
    Tcw ← tracker_grab (λ e, Tracking_GrabImageRGBD e im depthmap timestamp)
             (T_GrabImageRGBD im depthmap timestamp);
    SnapshotState;;
    mret Tcw.

Definition TrackMonocular (fuel : nat) (im : Image) (timestamp : Timestamp) : M Mat :=
  s ← get_this;
  if bool_decide (mSensor s ≠ MONOCULAR) then
    emit (Cerr "ERROR: you called TrackMonocular but input sensor was not set to Monocular.");;
    exit (-1)
  else
    CheckModeChange fuel true;;
    CheckReset;;
    CheckResetAndLoad;;
    Tcw ← tracker_grab (λ e, Tracking_GrabImageMonocular e im timestamp)
             (T_GrabImageMonocular im timestamp);
    SnapshotState;;
    mret Tcw.

(** ** Requests (System.cc, lines 311-321 and 336-341) *)
Definition ActivateLocalizationMode : M unit :=
  modify_this (set_mbActivateLocalizationMode true).

Definition DeactivateLocalizationMode : M unit :=
  modify_this (set_mbDeactivateLocalizationMode true).

Definition Reset : M unit :=
  modify_this (set_mbReset true);;
  s ← get_this;
  t ← deref (mpTracker s);
  modify_this (set_mpTracker (Some (set_frameId 0 t))).

(** ** [MapChanged] (System.cc, lines 323-334)

    [static int n=0;] is one variable for the whole process,
    [MapChanged_n] of the [World]. *)
Definition MapChanged : M bool :=
  s ← get_this;
  m ← deref (mpMap s);
  let curn := GetLastBigChangeIdx m in
  w ← get;
  if MapChanged_n w <? curn then
    put (with_n curn w);;
    mret true
  else mret false.



(** ** Queries (System.cc, lines 546-572) *)
Definition GetTrackingState : M Z := s ← get_this; mret (mTrackingState s).
Definition GetTracker : M (option Tracking) := s ← get_this; mret (mpTracker s).
Definition GetTrackedMapPoints : M (list nat) := s ← get_this; mret (mTrackedMapPoints s).
Definition GetTrackedKeyPointsUn : M (list KeyPoint) :=
  s ← get_this; mret (mTrackedKeyPointsUn s).

(** ** Map persistence (System.cc, lines 574-717) *)

Definition SaveMap (fuel : nat) (filename : string) : M unit :=
  s ← get_this;
  if (mTrackingState s =? 3) || (mTrackingState s =? 2) then
    emit (Cout "Pause the local mapper to save a map");;
    emit LM_RequestStop;;
    while fuel (notM (poll lm_isStopped LM_isStopped)) (emit (Sleep 3000));;
    emit (OA_open filename);;
    w ← get;
    if negb (ofstream_ok (env w) filename) then
      emit (Cerr ("Cannot Write to Mapfile: " +:+ filename));;
      exit (-1)
    else
      emit (Cout ("Saving Mapfile: " +:+ filename));;
      emit (OA_Map (mpMap s));;
      emit (OA_KeyFrameDatabase (mpKeyFrameDatabase s));;
      emit (Cout " ... done");;
      emit OA_close;;
      emit LM_Release
  else
    emit (Cout "ORB-SLAM not initialised. Map not saved.").

Definition SaveManual (fuel : nat) (strMapFile : string) : M unit :=
  when (has_suffix strMapFile ".bin") (modify_this (set_mapfile strMapFile));;
  s ← get_this;
  SaveMap fuel (mapfile s).

(** [ia >> mpMap; ia >> mpKeyFrameDatabase;] followed by
    [mpKeyFrameDatabase->SetORBvocabulary(mpVocabulary)]: the objects of
    the archive are placed in memory and the two pointers are set. *)
Definition deserialize (ar : Archive) : M unit :=
  w ← get;
  put (with_heap (ar_objs ar ∪ heap w) w);;
  modify_this (set_mpMap (Some (ar_map ar)));;
  modify_this (set_mpKeyFrameDatabase (Some (ar_db ar)));;
  s ← get_this;
  emit DB_SetORBvocabulary;;
  modify_this (set_mpKeyFrameDatabase (Some (set_mpVoc (mpVocabulary s) (ar_db ar)))).

(** The loop [for (auto it:vpKFS)] with its running maximum
    [mnFrameId]. *)
Fixpoint reconstruct (vpKFS : list nat) (mnFrameId_max : Z) : M Z :=
  match vpKFS with
  | [] => mret mnFrameId_max
  | it :: rest =>
      w ← get;
      kf ← deref (heap w !! it);
      emit (KF_SetORBvocabulary it);;
      emit (KF_ComputeBoW it);;
      reconstruct rest
        (if mnFrameId_max <? mnFrameId kf then mnFrameId kf else mnFrameId_max)
  end.

(** Lines 628-653 of [LoadMap], repeated as lines 688-710 of
    [LoadMapDuring]. *)
Definition load_archive (ar : Archive) : M unit :=
  s ← get_this;
  emit (Cout ("Loading Mapfile: " +:+ mapfile s));;
  deserialize ar;;
  emit (Cout " ...done");;
  emit (Cout "Map Reconstructing");;
  s ← get_this;
  m ← deref (mpMap s);
  mnFrameId_max ← reconstruct (GetAllKeyFrames m) 0;
  w ← get;
  put (with_nNextId mnFrameId_max w);;
  emit (Cout " ...done");;
  emit IA_close.

Definition LoadMap (filename : string) : M bool :=
  w ← get;
  emit (IA_open filename);;
  match ifstream (env w) filename with
  | None =>
      emit (Cerr ("Cannot Open Mapfile: " +:+ mapfile (this w)
                    +:+ " , You need create it first!"));;
      mret false
  | Some ar =>
      load_archive ar;;
      mret true
  end.

Definition LoadMapDuring (fuel : nat) (filename : string) : M unit :=
  emit LM_RequestStop;;
  while fuel (notM (poll lm_isStopped LM_isStopped)) (emit (Sleep 3000));;
  s ← get_this;
  when (mpViewer s)
    (emit V_RequestStop;;
     while fuel (notM (poll v_isStopped V_isStopped)) (emit (Sleep 3000)));;
  w ← get;
  emit (IA_open filename);;
  match ifstream (env w) filename with
  | None =>
      emit (Cerr ("Cannot Open Mapfile: " +:+ mapfile (this w)
                    +:+ " , You need create it first!"))
  | Some ar =>
      load_archive ar;;
      emit LM_Release;;
      when (mpViewer s) (emit V_Release)
  end.

Definition ResetAndLoad (fuel : nat) (strMapFile : string) : M unit :=
  modify_this (set_mbResetAndLoad true);;
  when (has_suffix strMapFile ".bin") (modify_this (set_mapfile strMapFile));;
  s ← get_this;
  if negb (bool_decide (mapfile s = "")) then
    LoadMapDuring fuel (mapfile s)
  else
    emit (Cout "No map to load, incorrect file name").

(** ** The constructor (System.cc, lines 39-142) *)

(** Modelled from the spec: [new Map()] and
    [new KeyFrameDatabase(mpVocabulary)]; [Map.cc] and
    [KeyFrameDatabase.cc] are not part of the sources.  The spec has the
    fall-back create an empty Map and index. *)
Definition Map_new : Map := {| mspKeyFrames := []; mnBigChangeIdx := 0 |}.
Definition KeyFrameDatabase_new (voc : option ORBVocabulary) : KeyFrameDatabase :=
  {| mpVoc := voc; mvInvertedFile := [] |}.

(** The member initialiser list.  Members it does not mention keep
    whatever the memory of the object held ([s0]), except the pointers,
    which the model reads as not yet set, and [mapfile], a
    default-constructed string. *)
Definition member_init (sensor : eSensor) (s0 : System) : System :=
  {| mSensor := sensor; mpVocabulary := None; mpKeyFrameDatabase := None;
     mpMap := None; mpTracker := None; mpViewer := false;
     mbReset := false; mbResetAndLoad := false;
     mbActivateLocalizationMode := false;
     mbDeactivateLocalizationMode := false;
     mTrackingState := mTrackingState s0;
     mTrackedMapPoints := []; mTrackedKeyPointsUn := [];
     mapfile := "" |}.

(** The loading method is chosen by the file extension (lines 71-77). *)
Definition load_vocabulary (e : Env) (strVocFile : string) : bool :=
  if has_suffix strVocFile ".txt" then loadFromTextFile e strVocFile
  else if has_suffix strVocFile ".bin" then loadFromBinaryFile e strVocFile
  else false.

Definition System_ctor (strVocFile strSettingsFile : string) (sensor : eSensor)
    (bUseViewer : bool) (strMapFile : string) : M unit :=
  modify_this (member_init sensor);;
  w ← get;
  if negb (settings_isOpened (env w) strSettingsFile) then
    emit (Cerr ("Failed to open settings file at: " +:+ strSettingsFile));;
    exit (-1)
  else
    modify_this (set_mpVocabulary (Some {| voc_file := strVocFile |}));;
    let bVocLoad := load_vocabulary (env w) strVocFile in
    if negb bVocLoad then
      emit (Cerr "Wrong path to vocabulary. ");;
      emit (Cerr ("Falied to open at: " +:+ strVocFile));;
      exit (-1)
    else
      when (has_suffix strMapFile ".bin") (modify_this (set_mapfile strMapFile));;
      s ← get_this;
      bReuseMap ← (if negb (bool_decide (mapfile s = "")) then LoadMap (mapfile s)
                   else mret false);
      when (negb bReuseMap)
        (modify_this (set_mpKeyFrameDatabase
                        (Some (KeyFrameDatabase_new (mpVocabulary s))));;
         modify_this (set_mpMap (Some Map_new)));;
      emit (New_FrameDrawer bReuseMap);;
      emit New_MapDrawer;;
      modify_this (set_mpTracker (Some (Tracking_new (env w) bReuseMap)));;
      emit (New_Tracking bReuseMap);;
      emit (Start_LocalMapping (bool_decide (sensor = MONOCULAR)));;
      emit (Start_LoopClosing (bool_decide (sensor ≠ MONOCULAR)));;
      when bUseViewer
        (modify_this (set_mpViewer true);;
         emit Start_Viewer;;
         emit (Wire "mpTracker->SetViewer(mpViewer)"));;
      emit (Wire "mpTracker->SetLocalMapper(mpLocalMapper)");;
      emit (Wire "mpTracker->SetLoopClosing(mpLoopCloser)");;
      emit (Wire "mpLocalMapper->SetTracker(mpTracker)");;
      emit (Wire "mpLocalMapper->SetLoopCloser(mpLoopCloser)");;
      emit (Wire "mpLoopCloser->SetTracker(mpTracker)");;
      emit (Wire "mpLoopCloser->SetLocalMapper(mpLocalMapper)").

(** ** Trajectory export (System.cc, lines 394-544) *)

(** [std::sort(vpKFs.begin(), vpKFs.end(), KeyFrame::lId)]: some
    arrangement in which no element is [lId]-smaller than an earlier
    one. *)
Definition lId_sorted (a b : KeyFrame) : Prop := lId b a = false.

Global Instance lId_sorted_dec a b : Decision (lId_sorted a b).
Proof. unfold lId_sorted. apply _. Defined.

Definition sort_lId (vpKFs : list KeyFrame) : list KeyFrame :=
  merge_sort lId_sorted vpKFs.

(** [mpMap->GetAllKeyFrames()] sorted; the comparator dereferences
    every pointer. *)
Definition sorted_keyframes : M (list KeyFrame) :=
  s ← get_this;
  m ← deref (mpMap s);
  w ← get;
  vpKFs ← deref (mapM (λ p : nat, heap w !! p) (GetAllKeyFrames m));
  mret (sort_lId vpKFs).

(** [vpKFs[0]->GetPoseInverse()]. *)
Definition first_pose_inverse (vpKFs : list KeyFrame) : M Mat :=
  match vpKFs with
  | [] => fault
  | pKF :: _ => mret (GetPoseInverse pKF)
  end.

(** [while(pKF->isBad()) { Trw = Trw*pKF->mTcp; pKF = pKF->GetParent(); }] *)
Fixpoint traverse (fuel : nat) (pKF : nat) (Trw : Mat) : M (Mat * KeyFrame) :=
  w ← get;
  kf ← deref (heap w !! pKF);
  if isBad kf then
    match fuel with
    | O => stall
    | S fuel' =>
        parent ← deref (GetParent kf);
        traverse fuel' parent (mat_mul Trw (mTcp kf))
    end
  else mret (Trw, kf).

(** The body shared by the two camera-trajectory loops: the pose [Tcw]
    of one logged frame. *)
Definition frame_Tcw (fuel : nat) (Two rel : Mat) (pKF : nat) : M Mat :=
  '(Trw, kf) ← traverse fuel pKF mat_eye;
  let Trw := mat_mul (mat_mul Trw (GetPose kf)) Two in
  mret (mat_mul rel Trw).

Definition Rwc_of (Tcw : Mat) : Mat := mat_t (mat_R Tcw).
Definition twc_of (Tcw : Mat) : Mat := mat_mul (mat_neg (Rwc_of Tcw)) (mat_tcol Tcw).

(** The line written for a frame by [SaveTrajectoryTUM] and by
    [SaveTrajectoryKITTI]. *)
Definition TUM_line (t : Timestamp) (Tcw : Mat) : Event :=
  F_TUM t (twc_of Tcw) (toQuaternion (Rwc_of Tcw)).
Definition KITTI_line (Tcw : Mat) : Event :=
  F_KITTI (Rwc_of Tcw) (twc_of Tcw).

(** The four iterators advance together; dereferencing or advancing
    one that is at the end is a fault. *)
Fixpoint TUM_loop (fuel : nat) (Two : Mat) (lit : list Mat) (lRit : list nat)
    (lT : list Timestamp) (lbL : list bool) : M unit :=
  match lit with
  | [] => mret tt
  | rel :: lit' =>
      match lRit, lT, lbL with
      | pKF :: lRit', t :: lT', lost :: lbL' =>
          if lost : bool then TUM_loop fuel Two lit' lRit' lT' lbL'
          else
            Tcw ← frame_Tcw fuel Two rel pKF;
            emit (TUM_line t Tcw);;
            TUM_loop fuel Two lit' lRit' lT' lbL'
      | _, _, _ => fault
      end
  end.

Definition SaveTrajectoryTUM (fuel : nat) (filename : string) : M unit :=
  emit (Cout ("Saving camera trajectory to " +:+ filename +:+ " ..."));;
  s ← get_this;
  if bool_decide (mSensor s = MONOCULAR) then
    emit (Cerr "ERROR: SaveTrajectoryTUM cannot be used for monocular.")
  else
    vpKFs ← sorted_keyframes;
    Two ← first_pose_inverse vpKFs;
    emit (F_open filename);;
    t ← deref (mpTracker s);
    TUM_loop fuel Two (mlRelativeFramePoses t) (mlpReferences t)
      (mlFrameTimes t) (mlbLost t);;
    emit F_close;;
    emit (Cout "trajectory saved!").

(** [SaveTrajectoryKITTI] has no iterator over [mlbLost]. *)
Fixpoint KITTI_loop (fuel : nat) (Two : Mat) (lit : list Mat) (lRit : list nat)
    (lT : list Timestamp) : M unit :=
  match lit with
  | [] => mret tt
  | rel :: lit' =>
      match lRit, lT with
      | pKF :: lRit', t :: lT' =>
          Tcw ← frame_Tcw fuel Two rel pKF;
          emit (KITTI_line Tcw);;
          KITTI_loop fuel Two lit' lRit' lT'
      | _, _ => fault
      end
  end.

Definition SaveTrajectoryKITTI (fuel : nat) (filename : string) : M unit :=
  emit (Cout ("Saving camera trajectory to " +:+ filename +:+ " ..."));;
  s ← get_this;
  if bool_decide (mSensor s = MONOCULAR) then
    emit (Cerr "ERROR: SaveTrajectoryKITTI cannot be used for monocular.")
  else
    vpKFs ← sorted_keyframes;
    Two ← first_pose_inverse vpKFs;
    emit (F_open filename);;
    t ← deref (mpTracker s);
    KITTI_loop fuel Two (mlRelativeFramePoses t) (mlpReferences t) (mlFrameTimes t);;
    emit F_close;;
    emit (Cout "trajectory saved!").

Definition KFTUM_line (pKF : KeyFrame) : Event :=
  let R := mat_t (GetRotation pKF) in
  let q := toQuaternion R in
  let t := GetCameraCenter pKF in
  F_KFTUM (mTimeStamp pKF) t q.

Fixpoint KFTUM_loop (vpKFs : list KeyFrame) : M unit :=
  match vpKFs with
  | [] => mret tt
  | pKF :: rest =>
      if isBad pKF then KFTUM_loop rest
      else emit (KFTUM_line pKF);; KFTUM_loop rest
  end.

Definition SaveKeyFrameTrajectoryTUM (filename : string) : M unit :=
  emit (Cout ("Saving keyframe trajectory to " +:+ filename +:+ " ..."));;
  vpKFs ← sorted_keyframes;
  emit (F_open filename);;
  KFTUM_loop vpKFs;;
  emit F_close;;
  emit (Cout "trajectory saved!").

End Model.

(** ** Vocabulary of the statements *)
Section Statements.
Context `{Extern}.

(** The process before any [System] exists: the statics hold their
    initialisers ([static int n=0;] in [MapChanged]). *)
Definition World_start (s : System) (e : Env) : World :=
  {| this := s; heap := ∅; Frame_nNextId := 0; MapChanged_n := 0;
     trace := []; now := 0%nat; env := e |}.

(** [k] unsuccessful polls, each followed by a sleep. *)
Definition failed_polls (ev : bool → Event) (us : Z) (k : nat) : list Event :=
  mjoin (replicate k [ev false; Sleep us]).

(** The number of unsuccessful polls before the first successful one,
  among the [fuel] polls that start at instant [start]. *)
Fixpoint first_poll (f : nat → bool) (start fuel : nat) : option nat :=
  match fuel with
  | O => None
  | S fuel' => if f start then Some 0%nat else S <$> first_poll f (S start) fuel'
  end.

Definition outcome_world {A} (o : Outcome A) : option World :=
  match o with
  | Ret _ w | Exit _ w => Some w
  | Fault | Stall => None
  end.

Definition outcome_trace {A} (o : Outcome A) : list Event :=
  match o with
  | Ret _ w | Exit _ w => trace w
  | Fault | Stall => []
  end.

(** The worker answers [true] to the poll [k] polls from now and
    [false] to every earlier one. *)
Definition first_true (f : Obs → bool) (w : World) (k : nat) : Prop :=
  f (oracle (env w) (k + now w)) = true ∧
  ∀ j, (j < k)%nat → f (oracle (env w) (j + now w)) = false.




(** Modelled from the spec: [Tracking::InformOnlyTracking] is defined in
    [Tracking.cc], which is not part of the sources.  The spec has it
    put tracking in localization-only mode ([true]) or full mapping
    ([false]); the mode after a trace is the argument of the last
    call. *)
Fixpoint only_tracking (init : bool) (es : list Event) : bool :=
  match es with
  | [] => init
  | T_InformOnlyTracking flag :: es' => only_tracking flag es'
  | _ :: es' => only_tracking init es'
  end.

(** Modelled from the spec: [LocalMapping::RequestStop] and
    [LocalMapping::Release] are defined in [LocalMapping.cc], which is
    not part of the sources.  Local mapping is held from a stop request
    until it is released. *)
Fixpoint lm_held (init : bool) (es : list Event) : bool :=
  match es with
  | [] => init
  | LM_RequestStop :: es' => lm_held true es'
  | LM_Release :: es' => lm_held false es'
  | _ :: es' => lm_held init es'
  end.

(** A call that started in [w] and returned in [w'] did not consume the
  ResetAndLoad request: the flag is as before and the tracking engine
  was not told. *)
Definition ResetAndLoad_untouched (w w' : World) : Prop :=
  mbResetAndLoad (this w') = mbResetAndLoad (this w) ∧
  ∃ es, trace w' = trace w ++ es ∧ T_ResetAfterLoaded ∉ es.

(** The state "deactivated" after a call that started in [w] and
    returned in [w']: both request flags are clear, tracking was last
    told to do full mapping, and local mapping was last released. *)
Definition net_deactivated (w w' : World) : Prop :=
  mbActivateLocalizationMode (this w') = false ∧
  mbDeactivateLocalizationMode (this w') = false ∧
  ∃ es, trace w' = trace w ++ es ∧
        (∀ init, only_tracking init es = false) ∧
        (∀ init, lm_held init es = false).

(** The events of [SaveMap] up to the point where the stream has been
  opened, after [k] unsuccessful polls of local mapping. *)
Definition SaveMap_paused (filename : string) (k : nat) : list Event :=
  [Cout "Pause the local mapper to save a map"; LM_RequestStop] ++
  failed_polls LM_isStopped 3000 k ++ [LM_isStopped true; OA_open filename].

(** The events that write the file and release local mapping. *)
Definition SaveMap_written (filename : string) (s : System) : list Event :=
  [Cout ("Saving Mapfile: " +:+ filename); OA_Map (mpMap s);
   OA_KeyFrameDatabase (mpKeyFrameDatabase s); Cout " ... done"; OA_close;
   LM_Release].

Definition is_OA (e : Event) : bool :=
  match e with
  | OA_Map _ | OA_KeyFrameDatabase _ => true
  | _ => false
  end.

(** Saving is permitted in the tracking states Ok and Lost. *)
Definition save_permitted (st : Z) : Prop :=
  st = state_code OK ∨ st = state_code LOST.

(** The spanning-tree walk from the keyframe at [p]: the culled
    keyframes [ks] passed on the way, and the first one that is not
    culled, [A]. *)
Inductive culled_chain (h : gmap nat KeyFrame) : nat → list KeyFrame → KeyFrame → Prop :=
| chain_live p kf :
    h !! p = Some kf → isBad kf = false → culled_chain h p [] kf
| chain_bad p kf q ks A :
    h !! p = Some kf → isBad kf = true → GetParent kf = Some q →
    culled_chain h q ks A →
    culled_chain h p (kf :: ks) A.

(** [acc * Tcp(k1) * Tcp(k2) * ...], the accumulator being the left
    factor of every product. *)
Definition accumulate (acc : Mat) (ks : list KeyFrame) : Mat :=
  foldl (λ Trw k, mat_mul Trw (mTcp k)) acc ks.

(** [relativePose x ((accumulated x pose(A)) x Two)]. *)
Definition recovered_Tcw (Two rel : Mat) (ks : list KeyFrame) (A : KeyFrame) : Mat :=
  mat_mul rel (mat_mul (mat_mul (accumulate mat_eye ks) (GetPose A)) Two).

(** The accumulator of the claim as it is worded, "left-multiplying an
    accumulator by each bad node's transform": every transform is put
    to the left of the accumulator, [... * Tcp(k2) * Tcp(k1) * acc], and
    the pose that would follow from it. *)
Definition accumulate_left (acc : Mat) (ks : list KeyFrame) : Mat :=
  foldl (λ Trw k, mat_mul (mTcp k) Trw) acc ks.

Definition left_multiplied_Tcw (Two rel : Mat) (ks : list KeyFrame) (A : KeyFrame) : Mat :=
  mat_mul rel (mat_mul (mat_mul (accumulate_left mat_eye ks) (GetPose A)) Two).

(** The spec's "invert to obtain camera center and orientation": the
    inverse of a rigid pose [[R | t]] is [[R^T | -R^T t]], so the
    orientation is the transpose of the rotation block of the pose and
    the camera centre is minus that orientation times the translation
    column of the pose. *)
Definition inverse_orientation (Tcw : Mat) : Mat := mat_t (mat_R Tcw).
Definition inverse_centre (Tcw : Mat) : Mat :=
  mat_mul (mat_neg (mat_t (mat_R Tcw))) (mat_tcol Tcw).

(** One entry of the trajectory log. *)
Record LogEntry := {
  le_rel : Mat;
  le_ref : nat;
  le_time : Timestamp;
  le_lost : bool;
}.

Fixpoint log_entries (lit : list Mat) (lRit : list nat) (lT : list Timestamp)
    (lbL : list bool) : list LogEntry :=
  match lit, lRit, lT, lbL with
  | rel :: lit', pKF :: lRit', t :: lT', lost :: lbL' =>
      {| le_rel := rel; le_ref := pKF; le_time := t; le_lost := lost |}
        :: log_entries lit' lRit' lT' lbL'
  | _, _, _, _ => []
  end.

Definition tracker_log (t : Tracking) : list LogEntry :=
  log_entries (mlRelativeFramePoses t) (mlpReferences t) (mlFrameTimes t) (mlbLost t).

Definition lockstep (t : Tracking) : Prop :=
  List.length (mlpReferences t) = List.length (mlRelativeFramePoses t) ∧
  List.length (mlFrameTimes t) = List.length (mlRelativeFramePoses t) ∧
  List.length (mlbLost t) = List.length (mlRelativeFramePoses t).

(** What the camera-trajectory exports need: a stereo or RGBD system,
    a map whose keyframe pointers are all live with [first] the head of
    the sorted vector, lockstep logs, and a walk that ends for every
    logged reference. *)
Definition export_ready (w : World) (t : Tracking) (first : KeyFrame) : Prop :=
  mSensor (this w) ≠ MONOCULAR ∧
  mpTracker (this w) = Some t ∧
  lockstep t ∧
  (∃ m vpKFs, mpMap (this w) = Some m ∧
     mapM (λ p : nat, heap w !! p) (GetAllKeyFrames m) = Some vpKFs ∧
     head (sort_lId vpKFs) = Some first) ∧
  Forall (λ e, ∃ ks A, culled_chain (heap w) (le_ref e) ks A) (tracker_log t).

(** A line of the export holds the inverse of the recovered pose of its
    log entry: the timestamp, the camera centre and the orientation as
    a quaternion in the one format, the orientation and the camera
    centre in the other. *)
Definition TUM_line_of (h : gmap nat KeyFrame) (Two : Mat) (e : LogEntry) (l : Event) : Prop :=
  ∃ ks A, culled_chain h (le_ref e) ks A ∧
          l = F_TUM (le_time e)
                (inverse_centre (recovered_Tcw Two (le_rel e) ks A))
                (toQuaternion (inverse_orientation (recovered_Tcw Two (le_rel e) ks A))).
Definition KITTI_line_of (h : gmap nat KeyFrame) (Two : Mat) (e : LogEntry) (l : Event) : Prop :=
  ∃ ks A, culled_chain h (le_ref e) ks A ∧
          l = F_KITTI (inverse_orientation (recovered_Tcw Two (le_rel e) ks A))
                (inverse_centre (recovered_Tcw Two (le_rel e) ks A)).

(** The line of the keyframe-trajectory export as the spec has it: the
    timestamp of the keyframe, its camera centre, and its orientation
    (the transpose of its rotation) as a quaternion. *)
Definition keyframe_line (k : KeyFrame) : Event :=
  F_KFTUM (mTimeStamp k) (GetCameraCenter k) (toQuaternion (mat_t (GetRotation k))).

(** The events of the constructor once the map exists. *)
Definition ctor_trace (sensor : eSensor) (bUseViewer bReuseMap : bool) : list Event :=
  [New_FrameDrawer bReuseMap; New_MapDrawer; New_Tracking bReuseMap;
   Start_LocalMapping (bool_decide (sensor = MONOCULAR));
   Start_LoopClosing (bool_decide (sensor ≠ MONOCULAR))] ++
  (if bUseViewer then [Start_Viewer; Wire "mpTracker->SetViewer(mpViewer)"] else []) ++
  [Wire "mpTracker->SetLocalMapper(mpLocalMapper)";
   Wire "mpTracker->SetLoopClosing(mpLoopCloser)";
   Wire "mpLocalMapper->SetTracker(mpTracker)";
   Wire "mpLocalMapper->SetLoopCloser(mpLoopCloser)";
   Wire "mpLoopCloser->SetTracker(mpTracker)";
   Wire "mpLoopCloser->SetLocalMapper(mpLocalMapper)"].

(** What [LoadMap] and [LoadMapDuring] print when the file cannot be
  opened. *)
Definition cannot_open (s : System) : Event :=
  Cerr ("Cannot Open Mapfile: " +:+ mapfile s +:+ " , You need create it first!").

(** The greatest [mnFrameId] among keyframes, 0 when there is none. *)
Definition max_frame_id (kfs : list KeyFrame) : Z :=
  foldl (λ acc k, Z.max acc (mnFrameId k)) 0 kfs.

(** The events of the loop over the loaded keyframes. *)
Definition reconstruct_trace (vpKFS : list nat) : list Event :=
  vpKFS ≫= λ p, [KF_SetORBvocabulary p; KF_ComputeBoW p].

(** The events of a successful load. *)
Definition load_trace (s : System) (vpKFS : list nat) : list Event :=
  [Cout ("Loading Mapfile: " +:+ mapfile s); DB_SetORBvocabulary; Cout " ...done";
   Cout "Map Reconstructing"] ++ reconstruct_trace vpKFS ++ [Cout " ...done"; IA_close].

(** The world after the archive [ar] has been loaded into [w], [kfs]
  being its keyframes. *)
Definition loaded (ar : Archive) (kfs : list KeyFrame) (w w' : World) : Prop :=
  Frame_nNextId w' = max_frame_id kfs ∧
  mpMap (this w') = Some (ar_map ar) ∧
  mpKeyFrameDatabase (this w') = Some (set_mpVoc (mpVocabulary (this w)) (ar_db ar)) ∧
  heap w' = ar_objs ar ∪ heap w.

(** The events of a camera-trajectory or keyframe-trajectory export
  that wrote [lines]. *)
Definition export_trace (what filename : string) (lines : list Event) : list Event :=
  [Cout ("Saving " +:+ what +:+ " trajectory to " +:+ filename +:+ " ...");
   F_open filename] ++ lines ++ [F_close; Cout "trajectory saved!"].

(** The events of a camera-trajectory export that was refused. *)
Definition refused_trace (name filename : string) : list Event :=
  [Cout ("Saving camera trajectory to " +:+ filename +:+ " ...");
   Cerr ("ERROR: " +:+ name +:+ " cannot be used for monocular.")].

Definition id_le (a b : KeyFrame) : Prop := mnId a ≤ mnId b.

Definition not_lost (e : LogEntry) : Prop := le_lost e = false.
Global Instance not_lost_dec e : Decision (not_lost e).
Proof. unfold not_lost. apply _. Defined.

Definition live (k : KeyFrame) : Prop := isBad k = false.
Global Instance live_dec k : Decision (live k).
Proof. unfold live. apply _. Defined.

Definition is_line (e : Event) : bool :=
  match e with
  | F_TUM _ _ _ | F_KFTUM _ _ _ | F_KITTI _ _ => true
  | _ => false
  end.

(** The four request flags, in the order Activate, Deactivate, Reset,
  ResetAndLoad. *)
Definition requests (s : System) : bool * bool * bool * bool :=
  (mbActivateLocalizationMode s, mbDeactivateLocalizationMode s, mbReset s,
   mbResetAndLoad s).

(** The members read by the queries hold what the tracking engine
  holds. *)
Definition snapshot_taken (s : System) : Prop :=
  ∃ t, mpTracker s = Some t ∧
       mTrackingState s = mState t ∧
       mTrackedMapPoints s = mCurrentFrame_mvpMapPoints t ∧
       mTrackedKeyPointsUn s = mCurrentFrame_mvKeysUn t.

(** The state "localization only" after a call that started in [w] and
  returned in [w']: the Activate flag is clear, tracking was last told
  to track only, and local mapping was last asked to stop. *)
Definition localization_only (w w' : World) : Prop :=
  mbActivateLocalizationMode (this w') = false ∧
  ∃ es, trace w' = trace w ++ es ∧
        (∀ init, only_tracking init es = true) ∧
        (∀ init, lm_held init es = true).

(** The events of an ingestion call with only Activate (and possibly
  the reset requests) pending, after [k] unsuccessful polls. *)
Definition activate_trace (announce : bool) (k : nat) (reset resetload : bool)
    (grab : Event) : list Event :=
  (if announce then [Cout "Localization mode started"] else []) ++
  [LM_RequestStop] ++ failed_polls LM_isStopped 1000 k ++
  [LM_isStopped true; T_InformOnlyTracking true] ++
  (if reset then [T_Reset] else []) ++
  (if resetload then [T_ResetAfterLoaded] else []) ++ [grab].

(** The events that pause local mapping and, when there is one, the
  viewer, with [k] and [kv] unsuccessful polls, and the number of polls
  made. *)
Definition pause_trace (viewer : bool) (k kv : nat) : list Event :=
  [LM_RequestStop] ++ failed_polls LM_isStopped 3000 k ++ [LM_isStopped true] ++
  (if viewer
   then [V_RequestStop] ++ failed_polls V_isStopped 3000 kv ++ [V_isStopped true]
   else []).

Definition pause_polls (viewer : bool) (k kv : nat) : nat :=
  ((if viewer then S kv else 0) + S k)%nat.

(** Local mapping answers stopped after [k] unsuccessful polls and
  then, when there is a viewer, the viewer after [kv]. *)
Definition paused (fuel : nat) (w : World) (k kv : nat) : Prop :=
  first_poll (λ i, lm_isStopped (oracle (env w) i)) (now w) fuel = Some k ∧
  (mpViewer (this w) = true →
   first_poll (λ i, v_isStopped (oracle (env w) i)) (S k + now w) fuel = Some kv).


Definition is_LM_command (e : Event) : bool :=
  match e with
  | LM_RequestStop | LM_Release => true
  | _ => false
  end.

(** What holds of a [System] whose constructor has returned: the sensor
  and the viewer are as asked, no request is pending, the vocabulary is
  the one named, and the map, the index and the tracking engine exist,
  the engine built with the reuse flag [bReuseMap]. *)
Definition constructed (e : Env) (strVocFile : string) (sensor : eSensor)
    (bUseViewer bReuseMap : bool) (s : System) : Prop :=
  mSensor s = sensor ∧ mpViewer s = bUseViewer ∧
  requests s = (false, false, false, false) ∧
  mpVocabulary s = Some {| voc_file := strVocFile |} ∧
  is_Some (mpMap s) ∧ is_Some (mpKeyFrameDatabase s) ∧
  mpTracker s = Some (Tracking_new e bReuseMap).

(** The calls an ingestion entry point makes when Activate is not
    pending: those of the Deactivate block, of the Reset block and of
    the ResetAndLoad block (which only [TrackMonocular] has,
    [with_load]), and then the frame. *)
Definition plain_trace (with_load : bool) (s : System) (grab : Event) : list Event :=
  (if mbDeactivateLocalizationMode s then [T_InformOnlyTracking false; LM_Release]
   else []) ++
  (if mbReset s then [T_Reset] else []) ++
  (if with_load && mbResetAndLoad s then [T_ResetAfterLoaded] else []) ++ [grab].

(** The number of logged frames flagged lost. *)
Definition lost_count (t : Tracking) : nat :=
  List.length (filter (λ b : bool, b = true) (mlbLost t)).

End Statements.

(** ** A concrete instance for test inputs

    Matrices are lists of rows with integer entries, shaped at run time
    like [cv::Mat].  [Converter::toQuaternion] is not part of the
    sources; the instance keeps the entries of the rotation, row by
    row, in its place. *)
Module Fixture.

Definition ZMat : Type := list (list Z).

Definition ncols (m : ZMat) : nat :=
  match m with [] => 0%nat | r :: _ => List.length r end.
Definition column (j : nat) (m : ZMat) : list Z := map (λ r, nth j r 0) m.
Definition transpose (m : ZMat) : ZMat := map (λ j, column j m) (seq 0 (ncols m)).
Definition dot (r c : list Z) : Z := foldr Z.add 0 (zip_with Z.mul r c).
Definition mul (a b : ZMat) : ZMat :=
  map (λ r, map (λ c, dot r c) (transpose b)) a.
Definition eye4 : ZMat :=
  [[1; 0; 0; 0]; [0; 1; 0; 0]; [0; 0; 1; 0]; [0; 0; 0; 1]].
Definition block33 (m : ZMat) : ZMat := map (take 3) (take 3 m).
Definition tcol (m : ZMat) : ZMat := map (λ r, [nth 3 r 0]) (take 3 m).
Definition neg (m : ZMat) : ZMat := map (map Z.opp) m.

Definition ZExt : Extern :=
  {| Mat := ZMat; Quat := list Z; Timestamp := Z; Image := string; KeyPoint := nat;
     mat_mul := mul; mat_eye := eye4; mat_t := transpose; mat_R := block33;
     mat_tcol := tcol; mat_neg := neg; toQuaternion := mjoin |}.

#[local] Existing Instance ZExt.

(** The rigid transform [[R | t]] with the rotation [R] and the
    translation column [t]. *)
Definition rigid (R t : ZMat) : ZMat := zip_with app R t ++ [[0; 0; 0; 1]].

(** A quarter turn about the z axis followed by a shift, and pure
    shifts. *)
Definition turn_z (x y z : Z) : ZMat :=
  [[0; -1; 0; x]; [1; 0; 0; y]; [0; 0; 1; z]; [0; 0; 0; 1]].
Definition shift (x y z : Z) : ZMat :=
  [[1; 0; 0; x]; [0; 1; 0; y]; [0; 0; 1; z]; [0; 0; 0; 1]].

(** The chain root -> K1 -> K2 at the addresses 10, 11, 12, with K1
    culled. *)
Definition kf_root : KeyFrame :=
  {| mnId := 0; mnFrameId := 0; mTimeStamp := 100;
     GetPose := shift 1 2 3; GetPoseInverse := shift (-1) (-2) (-3);
     GetRotation := block33 (shift 1 2 3); GetCameraCenter := [[-1]; [-2]; [-3]];
     mTcp := eye4; isBad := false; GetParent := None |}.
Definition kf_K1 : KeyFrame :=
  {| mnId := 1; mnFrameId := 3; mTimeStamp := 103;
     GetPose := turn_z 4 0 0; GetPoseInverse := eye4;
     GetRotation := block33 (turn_z 4 0 0); GetCameraCenter := [[0]; [4]; [0]];
     mTcp := turn_z 5 6 7; isBad := true; GetParent := Some 10%nat |}.
Definition kf_K2 : KeyFrame :=
  {| mnId := 2; mnFrameId := 5; mTimeStamp := 105;
     GetPose := shift 0 0 9; GetPoseInverse := shift 0 0 (-9);
     GetRotation := block33 (shift 0 0 9); GetCameraCenter := [[0]; [0]; [-9]];
     mTcp := shift 1 1 1; isBad := false; GetParent := Some 11%nat |}.

Definition chain_heap : gmap nat KeyFrame :=
  {[ 10%nat := kf_root; 11%nat := kf_K1; 12%nat := kf_K2 ]}.

(** The same chain after K2 has been culled as well. *)
Definition kf_K2_culled : KeyFrame :=
  {| mnId := 2; mnFrameId := 5; mTimeStamp := 105;
     GetPose := shift 0 0 9; GetPoseInverse := shift 0 0 (-9);
     GetRotation := block33 (shift 0 0 9); GetCameraCenter := [[0]; [0]; [-9]];
     mTcp := shift 1 1 1; isBad := true; GetParent := Some 11%nat |}.

Definition deep_heap : gmap nat KeyFrame := <[ 12%nat := kf_K2_culled ]> chain_heap.

Definition chain_map : Map :=
  {| mspKeyFrames := [12%nat; 11%nat; 10%nat]; mnBigChangeIdx := 4 |}.

(** Three logged frames: one on K2, one on the culled K1, and one that
    was lost. *)
Definition chain_tracker : Tracking :=
  {| mState := 2; frameId := 6;
     mlRelativeFramePoses := [shift 0 1 0; turn_z 1 0 0; shift 0 0 1];
     mlpReferences := [12%nat; 11%nat; 11%nat];
     mlFrameTimes := [105; 106; 107];
     mlbLost := [false; false; true];
     mCurrentFrame_mvpMapPoints := [];
     mCurrentFrame_mvKeysUn := [] |}.

(** The workers come to rest at the [n]-th poll. *)
Definition rest_from (n : nat) (t : nat) : Obs :=
  let r := bool_decide (n ≤ t)%nat in
  {| lm_isStopped := r; lm_isFinished := r; lc_isFinished := r;
     lc_isRunningGBA := negb r; v_isFinished := r; v_isStopped := r |}.

Definition loaded_archive : Archive :=
  {| ar_map := chain_map;
     ar_db := {| mpVoc := None; mvInvertedFile := [] |};
     ar_objs := chain_heap |}.

Definition grabbed (t : Tracking) : Mat * Tracking := (eye4, t).

(** [n]: the poll at which the workers come to rest.  The file
    ["map.bin"] holds [loaded_archive]; nothing else can be read, and
    nothing under ["/ro/"] can be written. *)
Definition test_env (n : nat) : Env :=
  {| oracle := rest_from n;
     Tracking_InformOnlyTracking := λ _ t, t;
     Tracking_Reset := λ t, t;
     Tracking_ResetAfterLoaded := λ t, t;
     Tracking_GrabImageStereo := λ _ _ _, grabbed;
     Tracking_GrabImageRGBD := λ _ _ _, grabbed;
     Tracking_GrabImageMonocular := λ _ _, grabbed;
     Tracking_new := λ _, chain_tracker;
     settings_isOpened := λ f, bool_decide (f = "settings.yaml");
     loadFromTextFile := λ f, bool_decide (f = "ORBvoc.txt");
     loadFromBinaryFile := λ f, bool_decide (f = "ORBvoc.bin");
     ifstream := λ f, if bool_decide (f = "map.bin") then Some loaded_archive else None;
     ofstream_ok := λ f, negb (String.prefix "/ro/" f) |}.

Definition test_system (sensor : eSensor) (viewer : bool) (state : eTrackingState)
    (activate deactivate reset resetload : bool) : System :=
  {| mSensor := sensor;
     mpVocabulary := Some {| voc_file := "ORBvoc.txt" |};
     mpKeyFrameDatabase := Some (KeyFrameDatabase_new (Some {| voc_file := "ORBvoc.txt" |}));
     mpMap := Some chain_map;
     mpTracker := Some chain_tracker;
     mpViewer := viewer;
     mbReset := reset; mbResetAndLoad := resetload;
     mbActivateLocalizationMode := activate;
     mbDeactivateLocalizationMode := deactivate;
     mTrackingState := state_code state;
     mTrackedMapPoints := []; mTrackedKeyPointsUn := [];
     mapfile := "" |}.

Definition test_world (s : System) (n : nat) : World :=
  {| this := s; heap := chain_heap; Frame_nNextId := 6; MapChanged_n := 0;
     trace := []; now := 0%nat; env := test_env n |}.

(** The world a constructor call starts in. *)
Definition blank_system : System :=
  {| mSensor := MONOCULAR; mpVocabulary := None; mpKeyFrameDatabase := None;
     mpMap := None; mpTracker := None; mpViewer := false;
     mbReset := true; mbResetAndLoad := true;
     mbActivateLocalizationMode := true; mbDeactivateLocalizationMode := true;
     mTrackingState := 77; mTrackedMapPoints := [1%nat];
     mTrackedKeyPointsUn := []; mapfile := "garbage" |}.




End Fixture.


(** * Proofs *)

(** ** The monad and the polling loops *)
Section Proofs.
Context `{Extern}.

Lemma advance_advance es1 k1 es2 k2 (w : World) :
  advance es2 k2 (advance es1 k1 w) = advance (es1 ++ es2) (k2 + k1) w.
Proof.
  unfold advance; simpl. f_equal; [by rewrite app_assoc | lia].
Qed.

Lemma advance_nil (w : World) : advance [] 0 w = w.
Proof. destruct w; unfold advance; simpl. by rewrite app_nil_r. Qed.

Lemma advance_eq es es' k k' (w : World) :
  es = es' → k = k' → advance es k w = advance es' k' w.
Proof. by intros -> ->. Qed.

Lemma World_eq (w1 w2 : World) :
  this w1 = this w2 → heap w1 = heap w2 → Frame_nNextId w1 = Frame_nNextId w2 →
  MapChanged_n w1 = MapChanged_n w2 → trace w1 = trace w2 → now w1 = now w2 →
  env w1 = env w2 → w1 = w2.
Proof. destruct w1, w2; simpl; by intros -> -> -> -> -> -> ->. Qed.

Ltac assoc_right :=
  repeat match goal with
         | |- context [(?a ++ ?b) ++ ?c] => rewrite <- (app_assoc a b c)
         end.

Ltac world_eq :=
  lazymatch goal with
  | |- Ret _ _ = Ret _ _ => f_equal
  | |- Exit _ _ = Exit _ _ => f_equal
  | |- _ => idtac
  end;
  try (apply World_eq; simpl; try reflexivity; try lia;
       rewrite <- ?app_assoc; simpl; try reflexivity).

Lemma bind_ret_inv {A B} (m : M A) (f : A → M B) w b w' :
  (m ≫= f) w = Ret b w' → ∃ a w1, m w = Ret a w1 ∧ f a w1 = Ret b w'.
Proof.
  unfold mbind, M_bind. destruct (m w) as [a w1| | |] eqn:E; try discriminate.
  intros Hf. by exists a, w1.
Qed.

Lemma first_poll_spec f start fuel k :
  first_poll f start fuel = Some k ↔
  (k < fuel)%nat ∧ f (k + start)%nat = true ∧ ∀ j, (j < k)%nat → f (j + start)%nat = false.
Proof.
  revert start k. induction fuel as [|fuel IH]; intros start k; simpl.
  - split; [discriminate | lia].
  - destruct (f start) eqn:E.
    + split.
      * intros [= <-]. split; [lia|]. split; [done | lia].
      * intros (_ & Hk & Hj). destruct k as [|k]; [done|].
        specialize (Hj 0%nat). simpl in Hj. rewrite Hj in E; [done | lia].
    + destruct (first_poll f (S start) fuel) as [k'|] eqn:E'; simpl.
      * apply IH in E' as (Hlt & Hk & Hj). split.
        -- intros [= <-]. split; [lia|]. split.
           ++ by replace (S k' + start)%nat with (k' + S start)%nat by lia.
           ++ intros [|j] Hjk; [done|].
              replace (S j + start)%nat with (j + S start)%nat by lia.
              apply Hj. lia.
        -- intros (Hlt' & Hk' & Hj'). destruct k as [|k]; [simpl in Hk'; congruence|].
           f_equal. destruct (lt_eq_lt_dec k k') as [[Hc|Hc]|Hc]; [|by subst|].
           ++ specialize (Hj k Hc).
              replace (k + S start)%nat with (S k + start)%nat in Hj by lia. congruence.
           ++ specialize (Hj' (S k') ltac:(lia)).
              replace (S k' + start)%nat with (k' + S start)%nat in Hj' by lia. congruence.
      * split; [discriminate|]. intros (Hlt & Hk & Hj).
        destruct k as [|k]; [simpl in Hk; congruence|].
        assert (first_poll f (S start) fuel = Some k) as E''; [|congruence].
        apply IH. split; [lia|]. split.
        -- by replace (k + S start)%nat with (S k + start)%nat by lia.
        -- intros j Hjk. replace (j + S start)%nat with (S j + start)%nat by lia.
           apply Hj. lia.
Qed.

Lemma while_poll f ev us fuel (w : World) :
  while fuel (notM (poll f ev)) (emit (Sleep us)) w =
  match first_poll (λ t, f (oracle (env w) t)) (now w) fuel with
  | Some k => Ret tt (advance (failed_polls ev us k ++ [ev true]) (S k) w)
  | None => Stall
  end.
Proof.
  revert w. induction fuel as [|fuel IH]; intros w; [done|].
  simpl. unfold mbind, M_bind, notM, poll at 1. simpl.
  destruct (f (oracle (env w) (now w))) eqn:E; simpl.
  - done.
  - rewrite IH. simpl.
    destruct (first_poll _ (S (now w)) fuel) as [k|]; simpl; [|done].
    f_equal. rewrite !advance_advance. apply advance_eq; [|lia].
    unfold failed_polls. simpl. done.
Qed.

Lemma only_tracking_app init es1 es2 :
  only_tracking init (es1 ++ es2) = only_tracking (only_tracking init es1) es2.
Proof.
  revert init. induction es1 as [|e es1 IH]; intros init; [done|].
  destruct e; simpl; auto.
Qed.

Lemma lm_held_app init es1 es2 :
  lm_held init (es1 ++ es2) = lm_held (lm_held init es1) es2.
Proof.
  revert init. induction es1 as [|e es1 IH]; intros init; [done|].
  destruct e; simpl; auto.
Qed.

Lemma only_tracking_failed_polls init us k :
  only_tracking init (failed_polls LM_isStopped us k) = init.
Proof. induction k as [|k IH]; [done|]. unfold failed_polls in *. by simpl. Qed.

Lemma lm_held_failed_polls init us k :
  lm_held init (failed_polls LM_isStopped us k) = init.
Proof. induction k as [|k IH]; [done|]. unfold failed_polls in *. by simpl. Qed.

(** ** The request flags at ingestion *)

(** The mode-change block when both requests are pending. *)
Lemma CheckModeChange_both fuel announce (w : World) t :
  mpTracker (this w) = Some t →
  mbActivateLocalizationMode (this w) = true →
  mbDeactivateLocalizationMode (this w) = true →
  CheckModeChange fuel announce w =
  match first_poll (λ i, lm_isStopped (oracle (env w) i)) (now w) fuel with
  | Some k =>
      Ret tt
        (with_this
           (set_mbDeactivateLocalizationMode false
              (set_mpTracker
                 (Some (Tracking_InformOnlyTracking (env w) false
                          (Tracking_InformOnlyTracking (env w) true t)))
                 (set_mbActivateLocalizationMode false (this w))))
           (advance
              ((if announce then [Cout "Localization mode started"] else []) ++
               [LM_RequestStop] ++ failed_polls LM_isStopped 1000 k ++
               [LM_isStopped true; T_InformOnlyTracking true;
                T_InformOnlyTracking false; LM_Release])
              (S k) w))
  | None => Stall
  end.
Proof.
  intros Ht Ha Hd. unfold CheckModeChange.
  destruct announce; unfold mbind, M_bind, get_this, when; rewrite Ha; simpl;
    rewrite while_poll; simpl;
    (destruct (first_poll _ (now w) fuel) as [k|]; [|done]); simpl;
    unfold tracker_call, mbind, M_bind, get_this; simpl; rewrite Ht; simpl;
    rewrite Hd; simpl; unfold modify_this; world_eq.
Qed.

(** Without a tracking engine the mode-change block cannot return when
    a request is pending. *)
Lemma CheckModeChange_no_tracker fuel announce (w : World) a w' :
  mpTracker (this w) = None →
  mbActivateLocalizationMode (this w) = true →
  CheckModeChange fuel announce w ≠ Ret a w'.
Proof.
  intros Ht Ha. unfold CheckModeChange.
  destruct announce; unfold mbind, M_bind, get_this, when; rewrite Ha; simpl;
    rewrite while_poll; simpl;
    (destruct (first_poll _ (now w) fuel) as [k|]; [|done]); simpl;
    unfold tracker_call, mbind, M_bind, get_this; simpl; by rewrite Ht.
Qed.

Ltac explode w :=
  destruct w as [[sens voc db mp trk vw rs rl act deact st mps kps mf] hp nid n tr nw e];
  simpl in *.

Ltac run_blocks :=
  unfold CheckReset, CheckResetAndLoad, tracker_grab, tracker_call, SnapshotState,
    mbind, M_bind, get_this, when, modify_this, deref, emit, mret, M_ret, fault; simpl.

Lemma net_deactivated_events (w w' : World) pre k post :
  mbActivateLocalizationMode (this w') = false →
  mbDeactivateLocalizationMode (this w') = false →
  trace w' =
    trace w ++ pre ++ [LM_RequestStop] ++ failed_polls LM_isStopped 1000 k ++
      [LM_isStopped true; T_InformOnlyTracking true; T_InformOnlyTracking false;
       LM_Release] ++ post →
  (∀ init, only_tracking init post = init) →
  (∀ init, lm_held init post = init) →
  net_deactivated w w'.
Proof.
  intros Ha Hd Htr Hot Hlm. split; [done|]. split; [done|].
  eexists. split; [exact Htr|]. split; intros init.
  - rewrite only_tracking_app. simpl.
    rewrite only_tracking_app, only_tracking_failed_polls. simpl. apply Hot.
  - rewrite lm_held_app. simpl.
    rewrite lm_held_app, lm_held_failed_polls. simpl. apply Hlm.
Qed.

Ltac deactivate_wins t pre :=
  let Hmode := fresh "Hmode" in
  let Hrest := fresh "Hrest" in
  let Ht := fresh "Ht" in
  unfold mbind at 1, M_bind at 1, get_this at 1;
  case_bool_decide; [done|];
  intros (? & ? & Hmode & Hrest)%bind_ret_inv;
  match goal with
  | |- net_deactivated ?w _ =>
      destruct (mpTracker (this w)) as [t|] eqn:Ht;
      [|by apply CheckModeChange_no_tracker in Hmode];
      rewrite (CheckModeChange_both _ _ _ t) in Hmode by done;
      destruct (first_poll _ (now w) _) as [k|]; [|done];
      injection Hmode as <- <-; revert Hrest;
      explode w; subst; run_blocks;
      repeat match goal with
             | |- context [if ?b then _ else _] => destruct b; simpl
             end;
      intros [= <- <-];
      (eapply (net_deactivated_events _ _ pre k); simpl;
       [reflexivity | reflexivity
       | repeat (rewrite <- app_assoc; simpl); reflexivity
       | done | done])
  end.

Lemma TrackStereo_deactivate_wins fuel imLeft imRight timestamp (w : World) Tcw w' :
  mbActivateLocalizationMode (this w) = true →
  mbDeactivateLocalizationMode (this w) = true →
  TrackStereo fuel imLeft imRight timestamp w = Ret Tcw w' →
  net_deactivated w w'.
Proof.
  intros Ha Hd. unfold TrackStereo. deactivate_wins t (@nil Event).
Qed.

Lemma TrackRGBD_deactivate_wins fuel im depthmap timestamp (w : World) Tcw w' :
  mbActivateLocalizationMode (this w) = true →
  mbDeactivateLocalizationMode (this w) = true →
  TrackRGBD fuel im depthmap timestamp w = Ret Tcw w' →
  net_deactivated w w'.
Proof.
  intros Ha Hd. unfold TrackRGBD. deactivate_wins t (@nil Event).
Qed.

Lemma TrackMonocular_deactivate_wins fuel im timestamp (w : World) Tcw w' :
  mbActivateLocalizationMode (this w) = true →
  mbDeactivateLocalizationMode (this w) = true →
  TrackMonocular fuel im timestamp w = Ret Tcw w' →
  net_deactivated w w'.
Proof.
  intros Ha Hd. unfold TrackMonocular.
  deactivate_wins t [Cout "Localization mode started"].
Qed.

Lemma first_poll_exists f start k :
  f (k + start)%nat = true →
  ∃ k', (k' ≤ k)%nat ∧ first_poll f start (S k) = Some k'.
Proof.
  revert start. induction k as [|k IH]; intros start Hk; simpl in *.
  - rewrite Hk. exists 0%nat. split; [lia | done].
  - destruct (f start) eqn:E.
    + exists 0%nat. split; [lia | done].
    + destruct (IH (S start)) as (k' & Hle & Hfp).
      { by replace (k + S start)%nat with (S (k + start)) by lia. }
      exists (S k'). split; [lia|]. simpl in Hfp. by rewrite Hfp.
Qed.

Ltac returns_after_stop w t Hstop :=
  let Hfp := fresh "Hfp" in
  let k' := fresh "k'" in
  apply (first_poll_exists (λ i, lm_isStopped (oracle (env w) i))) in Hstop
    as (k' & _ & Hfp);
  unfold mbind at 1, M_bind at 1, get_this at 1;
  case_bool_decide; [done|];
  unfold mbind at 1, M_bind at 1;
  rewrite (CheckModeChange_both _ _ _ t) by done;
  rewrite Hfp; clear Hfp;
  explode w; subst; run_blocks;
  repeat match goal with
         | |- context [if ?b then _ else _] => destruct b; simpl
         end;
  eauto.

Lemma TrackStereo_returns k t imLeft imRight timestamp (w : World) :
  mSensor (this w) = STEREO → mpTracker (this w) = Some t →
  mbActivateLocalizationMode (this w) = true →
  mbDeactivateLocalizationMode (this w) = true →
  lm_isStopped (oracle (env w) (k + now w)) = true →
  ∃ Tcw w', TrackStereo (S k) imLeft imRight timestamp w = Ret Tcw w'.
Proof.
  intros Hs Ht Ha Hd Hstop. unfold TrackStereo. returns_after_stop w t Hstop.
Qed.

Lemma TrackRGBD_returns k t im depthmap timestamp (w : World) :
  mSensor (this w) = RGBD → mpTracker (this w) = Some t →
  mbActivateLocalizationMode (this w) = true →
  mbDeactivateLocalizationMode (this w) = true →
  lm_isStopped (oracle (env w) (k + now w)) = true →
  ∃ Tcw w', TrackRGBD (S k) im depthmap timestamp w = Ret Tcw w'.
Proof.
  intros Hs Ht Ha Hd Hstop. unfold TrackRGBD. returns_after_stop w t Hstop.
Qed.

Lemma TrackMonocular_returns k t im timestamp (w : World) :
  mSensor (this w) = MONOCULAR → mpTracker (this w) = Some t →
  mbActivateLocalizationMode (this w) = true →
  mbDeactivateLocalizationMode (this w) = true →
  lm_isStopped (oracle (env w) (k + now w)) = true →
  ∃ Tcw w', TrackMonocular (S k) im timestamp w = Ret Tcw w'.
Proof.
  intros Hs Ht Ha Hd Hstop. unfold TrackMonocular. returns_after_stop w t Hstop.
Qed.

(** C7.  With both ActivateLocalizationMode and DeactivateLocalizationMode
    pending, every ingestion call that returns leaves both flags clear,
    tracking last told to do full mapping and local mapping last
    released; and the call does return, with enough fuel, once local
    mapping answers that it has stopped. *)
Theorem C7_deactivate_wins (w : World) :
  mbActivateLocalizationMode (this w) = true →
  mbDeactivateLocalizationMode (this w) = true →
  (∀ fuel imLeft imRight timestamp Tcw w',
     TrackStereo fuel imLeft imRight timestamp w = Ret Tcw w' → net_deactivated w w') ∧
  (∀ fuel im depthmap timestamp Tcw w',
     TrackRGBD fuel im depthmap timestamp w = Ret Tcw w' → net_deactivated w w') ∧
  (∀ fuel im timestamp Tcw w',
     TrackMonocular fuel im timestamp w = Ret Tcw w' → net_deactivated w w') ∧
  (∀ k t,
     mpTracker (this w) = Some t →
     lm_isStopped (oracle (env w) (k + now w)) = true →
     (mSensor (this w) = STEREO → ∀ imLeft imRight timestamp,
        ∃ Tcw w', TrackStereo (S k) imLeft imRight timestamp w = Ret Tcw w') ∧
     (mSensor (this w) = RGBD → ∀ im depthmap timestamp,
        ∃ Tcw w', TrackRGBD (S k) im depthmap timestamp w = Ret Tcw w') ∧
     (mSensor (this w) = MONOCULAR → ∀ im timestamp,
        ∃ Tcw w', TrackMonocular (S k) im timestamp w = Ret Tcw w')).
Proof.
  intros Ha Hd. split; [|split; [|split]].
  - intros ? ? ? ? ? ? Hrun. exact (TrackStereo_deactivate_wins _ _ _ _ _ _ _ Ha Hd Hrun).
  - intros ? ? ? ? ? ? Hrun. exact (TrackRGBD_deactivate_wins _ _ _ _ _ _ _ Ha Hd Hrun).
  - intros ? ? ? ? ? Hrun. exact (TrackMonocular_deactivate_wins _ _ _ _ _ _ Ha Hd Hrun).
  - intros k t Ht Hstop. split; [|split]; intros Hs; intros.
    + by eapply TrackStereo_returns.
    + by eapply TrackRGBD_returns.
    + by eapply TrackMonocular_returns.
Qed.

Lemma failed_polls_elem e us k :
  e ∈ failed_polls LM_isStopped us k → e = LM_isStopped false ∨ e = Sleep us.
Proof.
  induction k as [|k IH]; unfold failed_polls in *; simpl.
  - by intros ?%elem_of_nil.
  - rewrite !elem_of_cons. intros [->|[->|Hin]]; auto.
Qed.

Ltac no_reset_after_loaded :=
  rewrite ?elem_of_app, ?elem_of_cons, ?elem_of_nil;
  intros Hin;
  repeat match goal with
         | Hin : _ ∨ _ |- _ => destruct Hin as [Hin|Hin]
         | Hin : _ ∈ failed_polls _ _ _ |- _ =>
             apply failed_polls_elem in Hin
         | Hin : T_ResetAfterLoaded = _ |- _ => discriminate Hin
         | Hin : False |- _ => destruct Hin
         end.

Lemma untouched_refl (w : World) : ResetAndLoad_untouched w w.
Proof. split; [done|]. exists []. split; [by rewrite app_nil_r | apply not_elem_of_nil]. Qed.

Lemma untouched_trans (w1 w2 w3 : World) :
  ResetAndLoad_untouched w1 w2 → ResetAndLoad_untouched w2 w3 →
  ResetAndLoad_untouched w1 w3.
Proof.
  intros (Hf1 & es1 & Ht1 & Hn1) (Hf2 & es2 & Ht2 & Hn2). split; [congruence|].
  exists (es1 ++ es2). split.
  - by rewrite Ht2, Ht1, app_assoc.
  - rewrite elem_of_app. tauto.
Qed.

Ltac untouched_block w :=
  explode w; subst; run_blocks;
  repeat match goal with
         | |- context [match ?b with _ => _ end] => is_var b; destruct b; simpl
         end;
  try done; intros [= <- <-];
  first [ apply untouched_refl
        | (split; [done|]); simpl;
          eexists; (split; [assoc_right; reflexivity|]);
          no_reset_after_loaded ].

Lemma CheckModeChange_untouched fuel announce (w : World) a w' :
  CheckModeChange fuel announce w = Ret a w' → ResetAndLoad_untouched w w'.
Proof.
  unfold CheckModeChange, mbind, M_bind, get_this, when.
  destruct (mbActivateLocalizationMode (this w)) eqn:Ha; simpl.
  - destruct announce; simpl; rewrite while_poll; simpl;
      (destruct (first_poll _ (now w) _) as [k|]; [|done]);
      untouched_block w.
  - untouched_block w.
Qed.

Lemma CheckReset_untouched (w : World) a w' :
  CheckReset w = Ret a w' → ResetAndLoad_untouched w w'.
Proof. untouched_block w. Qed.

Lemma tracker_grab_untouched f ev (w : World) a w' :
  ev ≠ T_ResetAfterLoaded →
  tracker_grab f ev w = Ret a w' → ResetAndLoad_untouched w w'.
Proof.
  intros Hev. explode w. run_blocks. destruct trk; simpl; [|done].
  intros [= <- <-]. split; [done|]. simpl. exists [ev]. split; [done|].
  rewrite list_elem_of_singleton. congruence.
Qed.

Lemma SnapshotState_untouched (w : World) a w' :
  SnapshotState w = Ret a w' → ResetAndLoad_untouched w w'.
Proof.
  explode w. run_blocks. destruct trk; simpl; [|done].
  intros [= <- <-]. split; [done|]. exists []. simpl.
  split; [by rewrite app_nil_r | apply not_elem_of_nil].
Qed.

(** [TrackStereo] and [TrackRGBD] never consume a pending ResetAndLoad
    request. *)
Lemma TrackStereo_ResetAndLoad_untouched fuel imLeft imRight timestamp (w : World) Tcw w' :
  TrackStereo fuel imLeft imRight timestamp w = Ret Tcw w' →
  ResetAndLoad_untouched w w'.
Proof.
  unfold TrackStereo. unfold mbind at 1, M_bind at 1, get_this at 1.
  case_bool_decide; [done|].
  intros (? & w1 & H1%CheckModeChange_untouched & Hrest)%bind_ret_inv.
  apply bind_ret_inv in Hrest as (? & w2 & H2%CheckReset_untouched & Hrest).
  apply bind_ret_inv in Hrest as (? & w3 & H3%tracker_grab_untouched & Hrest); [|done].
  apply bind_ret_inv in Hrest as (? & w4 & H4%SnapshotState_untouched & Hrest).
  injection Hrest as <- <-. eauto using untouched_trans.
Qed.

Lemma TrackRGBD_ResetAndLoad_untouched fuel im depthmap timestamp (w : World) Tcw w' :
  TrackRGBD fuel im depthmap timestamp w = Ret Tcw w' →
  ResetAndLoad_untouched w w'.
Proof.
  unfold TrackRGBD. unfold mbind at 1, M_bind at 1, get_this at 1.
  case_bool_decide; [done|].
  intros (? & w1 & H1%CheckModeChange_untouched & Hrest)%bind_ret_inv.
  apply bind_ret_inv in Hrest as (? & w2 & H2%CheckReset_untouched & Hrest).
  apply bind_ret_inv in Hrest as (? & w3 & H3%tracker_grab_untouched & Hrest); [|done].
  apply bind_ret_inv in Hrest as (? & w4 & H4%SnapshotState_untouched & Hrest).
  injection Hrest as <- <-. eauto using untouched_trans.
Qed.

Lemma bind_run {A B} (m : M A) (f : A → M B) w a w1 :
  m w = Ret a w1 → (m ≫= f) w = f a w1.
Proof. unfold mbind, M_bind. by intros ->. Qed.

Lemma CheckReset_run t (w : World) :
  mbReset (this w) = true → mpTracker (this w) = Some t →
  CheckReset w =
  Ret tt (with_this
            (set_mbReset false
               (set_mpTracker (Some (Tracking_Reset (env w) t)) (this w)))
            (advance [T_Reset] 0 w)).
Proof. explode w. intros -> ->. done. Qed.

Lemma CheckResetAndLoad_run t (w : World) :
  mbResetAndLoad (this w) = true → mpTracker (this w) = Some t →
  CheckResetAndLoad w =
  Ret tt (with_this
            (set_mbResetAndLoad false
               (set_mpTracker (Some (Tracking_ResetAfterLoaded (env w) t)) (this w)))
            (advance [T_ResetAfterLoaded] 0 w)).
Proof. explode w. intros -> ->. done. Qed.

Lemma tracker_grab_run f ev t (w : World) :
  mpTracker (this w) = Some t →
  tracker_grab f ev w =
  Ret (f (env w) t).1
    (with_this (set_mpTracker (Some (f (env w) t).2) (this w)) (advance [ev] 0 w)).
Proof. explode w. intros ->. done. Qed.

Lemma SnapshotState_run t (w : World) :
  mpTracker (this w) = Some t →
  SnapshotState w =
  Ret tt (with_this
            (set_snapshot (mState t) (mCurrentFrame_mvpMapPoints t)
               (mCurrentFrame_mvKeysUn t) (this w)) w).
Proof. explode w. intros ->. done. Qed.

(** [TrackMonocular] consumes the four requests in the fixed order
    before it hands the frame to the tracking engine. *)
Lemma TrackMonocular_all_pending fuel k t im timestamp (w : World) :
  mSensor (this w) = MONOCULAR → mpTracker (this w) = Some t →
  mbActivateLocalizationMode (this w) = true →
  mbDeactivateLocalizationMode (this w) = true →
  mbReset (this w) = true → mbResetAndLoad (this w) = true →
  first_poll (λ i, lm_isStopped (oracle (env w) i)) (now w) fuel = Some k →
  ∃ Tcw w',
    TrackMonocular fuel im timestamp w = Ret Tcw w' ∧
    trace w' =
      trace w ++ [Cout "Localization mode started"; LM_RequestStop] ++
        failed_polls LM_isStopped 1000 k ++
        [LM_isStopped true; T_InformOnlyTracking true; T_InformOnlyTracking false;
         LM_Release; T_Reset; T_ResetAfterLoaded;
         T_GrabImageMonocular im timestamp] ∧
    mbActivateLocalizationMode (this w') = false ∧
    mbDeactivateLocalizationMode (this w') = false ∧
    mbReset (this w') = false ∧ mbResetAndLoad (this w') = false.
Proof.
  intros Hs Ht Ha Hd Hr Hl Hfp. unfold TrackMonocular.
  unfold mbind at 1, M_bind at 1, get_this at 1.
  case_bool_decide; [done|].
  erewrite bind_run by (rewrite (CheckModeChange_both _ _ _ t), Hfp by done; reflexivity).
  erewrite bind_run by (by eapply CheckReset_run).
  erewrite bind_run by (by eapply CheckResetAndLoad_run).
  erewrite bind_run by (by eapply tracker_grab_run).
  erewrite bind_run by (by eapply SnapshotState_run).
  do 2 eexists. split; [reflexivity|]. simpl.
  split; [|done]. repeat (rewrite <- app_assoc; simpl). done.
Qed.

(** ** Shutdown *)







(** ** Saving the map *)

Lemma save_permitted_codes st : save_permitted st ↔ st = 2 ∨ st = 3.
Proof. unfold save_permitted. simpl. tauto. Qed.

Lemma save_permitted_states s :
  save_permitted (state_code s) ↔ s = OK ∨ s = LOST.
Proof.
  rewrite save_permitted_codes.
  destruct s; simpl; split; intros [?|?]; try discriminate; auto; lia.
Qed.

Lemma SaveMap_refused fuel filename (w : World) :
  ¬ save_permitted (mTrackingState (this w)) →
  SaveMap fuel filename w =
  Ret tt (advance [Cout "ORB-SLAM not initialised. Map not saved."] 0 w).
Proof.
  rewrite save_permitted_codes. intros Hst. unfold SaveMap.
  unfold mbind at 1, M_bind at 1, get_this at 1.
  destruct (mTrackingState (this w) =? 3) eqn:E3; [lia|].
  destruct (mTrackingState (this w) =? 2) eqn:E2; [lia|]. done.
Qed.

Lemma SaveMap_permitted fuel filename (w : World) :
  save_permitted (mTrackingState (this w)) →
  SaveMap fuel filename w =
  match first_poll (λ i, lm_isStopped (oracle (env w) i)) (now w) fuel with
  | None => Stall
  | Some k =>
      if ofstream_ok (env w) filename then
        Ret tt (advance (SaveMap_paused filename k ++ SaveMap_written filename (this w))
                  (S k) w)
      else
        Exit (-1)
          (advance (SaveMap_paused filename k ++
                    [Cerr ("Cannot Write to Mapfile: " +:+ filename)])
             (S k) w)
  end.
Proof.
  rewrite save_permitted_codes. intros Hst. unfold SaveMap.
  unfold mbind at 1, M_bind at 1, get_this at 1.
  replace ((mTrackingState (this w) =? 3) || (mTrackingState (this w) =? 2)) with true
    by (symmetry; apply orb_true_iff; lia).
  erewrite bind_run by reflexivity. erewrite bind_run by reflexivity.
  unfold mbind at 1, M_bind at 1. rewrite while_poll.
  simpl (env _). simpl (now _).
  destruct (first_poll _ (now w) fuel) as [k|]; [|done].
  erewrite bind_run by reflexivity. unfold mbind at 1, M_bind at 1, get at 1.
  simpl (env _). unfold SaveMap_paused, SaveMap_written.
  destruct (ofstream_ok (env w) filename); cbn [negb].
  - unfold mbind, M_bind, emit. rewrite !advance_advance.
    f_equal. apply advance_eq; [|lia].
    repeat (rewrite <- app_assoc; simpl). done.
  - unfold mbind, M_bind, emit, exit. rewrite !advance_advance.
    f_equal. apply advance_eq; [|lia].
    repeat (rewrite <- app_assoc; simpl). done.
Qed.

(** C5, as amended.  In a tracking state other than Ok and Lost, Save
    writes nothing, prints the diagnostic and returns, without a stop
    request or a release.  In the states Ok and Lost it asks local mapping
    to stop and polls until it has; then, if the stream opens, it writes
    the Map, then the index, and releases local mapping; if the stream
    does not open it exits the process with status -1, nothing written
    and local mapping not released. *)
Theorem C5_save_map fuel filename (w : World) :
  (¬ save_permitted (mTrackingState (this w)) →
   SaveMap fuel filename w =
   Ret tt (advance [Cout "ORB-SLAM not initialised. Map not saved."] 0 w)) ∧
  (save_permitted (mTrackingState (this w)) →
   SaveMap fuel filename w =
   match first_poll (λ i, lm_isStopped (oracle (env w) i)) (now w) fuel with
   | None => Stall
   | Some k =>
       if ofstream_ok (env w) filename then
         Ret tt (advance (SaveMap_paused filename k ++ SaveMap_written filename (this w))
                   (S k) w)
       else
         Exit (-1)
           (advance (SaveMap_paused filename k ++
                     [Cerr ("Cannot Write to Mapfile: " +:+ filename)])
              (S k) w)
   end).
Proof. split; [apply SaveMap_refused | apply SaveMap_permitted]. Qed.

(** ** Trajectory export *)

Lemma lId_sorted_id_le a b : lId_sorted a b ↔ id_le a b.
Proof. unfold lId_sorted, lId, id_le. rewrite Z.ltb_ge. done. Qed.

Global Instance lId_sorted_total : Total lId_sorted.
Proof. intros a b. rewrite !lId_sorted_id_le. unfold id_le. lia. Qed.

Global Instance lId_sorted_trans : Transitive lId_sorted.
Proof. intros a b c. rewrite !lId_sorted_id_le. unfold id_le. lia. Qed.

Lemma sort_lId_perm vpKFs : sort_lId vpKFs ≡ₚ vpKFs.
Proof. apply merge_sort_Permutation. Qed.

Lemma sort_lId_sorted vpKFs : StronglySorted id_le (sort_lId vpKFs).
Proof.
  unfold sort_lId.
  pose proof (StronglySorted_merge_sort lId_sorted vpKFs) as Hs.
  induction Hs as [|k l Hl IH Hall]; constructor; [done|].
  eapply Forall_impl; [exact Hall|]. intros b. apply lId_sorted_id_le.
Qed.

Lemma sort_lId_head vpKFs first :
  head (sort_lId vpKFs) = Some first →
  first ∈ vpKFs ∧ Forall (id_le first) vpKFs.
Proof.
  intros Hhead. pose proof (sort_lId_sorted vpKFs) as Hs.
  pose proof (sort_lId_perm vpKFs) as Hp.
  destruct (sort_lId vpKFs) as [|k rest]; [done|]. injection Hhead as ->.
  split.
  - rewrite <- Hp. apply elem_of_cons. by left.
  - rewrite <- Hp. apply StronglySorted_inv in Hs as [_ Hall].
    constructor; [unfold id_le; lia | done].
Qed.

Lemma sorted_keyframes_run m vpKFs (w : World) :
  mpMap (this w) = Some m →
  mapM (λ p : nat, heap w !! p) (GetAllKeyFrames m) = Some vpKFs →
  sorted_keyframes w = Ret (sort_lId vpKFs) w.
Proof.
  intros Hm Hk. unfold sorted_keyframes, mbind, M_bind, get_this, get.
  rewrite Hm. simpl. by rewrite Hk.
Qed.

Lemma KFTUM_loop_run vpKFs (w : World) :
  KFTUM_loop vpKFs w = Ret tt (advance (keyframe_line <$> filter live vpKFs) 0 w).
Proof.
  revert w. induction vpKFs as [|k rest IH]; intros w; simpl.
  - by rewrite advance_nil.
  - destruct (isBad k) eqn:E.
    + rewrite filter_cons_False by (unfold live; congruence). apply IH.
    + rewrite filter_cons_True by done.
      unfold mbind, M_bind, emit. rewrite IH, advance_advance. done.
Qed.

Lemma SaveKeyFrameTrajectoryTUM_run filename m vpKFs (w : World) :
  mpMap (this w) = Some m →
  mapM (λ p : nat, heap w !! p) (GetAllKeyFrames m) = Some vpKFs →
  SaveKeyFrameTrajectoryTUM filename w =
  Ret tt (advance
            (export_trace "keyframe" filename
               (keyframe_line <$> filter live (sort_lId vpKFs))) 0 w).
Proof.
  intros Hm Hk. unfold SaveKeyFrameTrajectoryTUM.
  erewrite bind_run by reflexivity.
  erewrite bind_run by (by eapply sorted_keyframes_run).
  erewrite bind_run by reflexivity.
  erewrite bind_run by apply KFTUM_loop_run.
  erewrite bind_run by reflexivity.
  unfold emit. rewrite !advance_advance. reflexivity.
Qed.

Lemma SaveTrajectoryTUM_monocular fuel filename (w : World) :
  mSensor (this w) = MONOCULAR →
  SaveTrajectoryTUM fuel filename w =
  Ret tt (advance (refused_trace "SaveTrajectoryTUM" filename) 0 w).
Proof.
  intros Hs. unfold SaveTrajectoryTUM.
  erewrite bind_run by reflexivity.
  unfold mbind at 1, M_bind at 1, get_this at 1. simpl (this _).
  rewrite bool_decide_eq_true_2 by done.
  unfold emit. by rewrite advance_advance.
Qed.

Lemma SaveTrajectoryKITTI_monocular fuel filename (w : World) :
  mSensor (this w) = MONOCULAR →
  SaveTrajectoryKITTI fuel filename w =
  Ret tt (advance (refused_trace "SaveTrajectoryKITTI" filename) 0 w).
Proof.
  intros Hs. unfold SaveTrajectoryKITTI.
  erewrite bind_run by reflexivity.
  unfold mbind at 1, M_bind at 1, get_this at 1. simpl (this _).
  rewrite bool_decide_eq_true_2 by done.
  unfold emit. by rewrite advance_advance.
Qed.

(** C8.  With the Monocular sensor both camera-trajectory exports open no
    file: they print the announcement and the error and return.  The
    keyframe-trajectory export, whatever the sensor, sorts the keyframes
    of the map (the sorted vector holds the same keyframes, in ascending
    id order) and writes, between opening and closing the file, one
    line for each keyframe of the sorted vector that is not bad and
    nothing for a bad one; the line holds the timestamp of the
    keyframe, its camera centre, and the quaternion of its orientation
    (the transpose of its rotation). *)
Theorem C8_monocular_exports fuel filename (w : World) :
  mSensor (this w) = MONOCULAR →
  SaveTrajectoryTUM fuel filename w =
    Ret tt (advance (refused_trace "SaveTrajectoryTUM" filename) 0 w) ∧
  SaveTrajectoryKITTI fuel filename w =
    Ret tt (advance (refused_trace "SaveTrajectoryKITTI" filename) 0 w) ∧
  ∀ m vpKFs,
    mpMap (this w) = Some m →
    mapM (λ p : nat, heap w !! p) (GetAllKeyFrames m) = Some vpKFs →
    sort_lId vpKFs ≡ₚ vpKFs ∧ StronglySorted id_le (sort_lId vpKFs) ∧
    SaveKeyFrameTrajectoryTUM filename w =
    Ret tt (advance
              ([Cout ("Saving keyframe trajectory to " +:+ filename +:+ " ...");
                F_open filename] ++
               ((λ k, F_KFTUM (mTimeStamp k) (GetCameraCenter k)
                        (toQuaternion (mat_t (GetRotation k))))
                  <$> filter (λ k, isBad k = false) (sort_lId vpKFs)) ++
               [F_close; Cout "trajectory saved!"])
              0 w).
Proof.
  intros Hs. split; [by apply SaveTrajectoryTUM_monocular|].
  split; [by apply SaveTrajectoryKITTI_monocular|].
  intros m vpKFs Hm Hk.
  split; [apply sort_lId_perm|]. split; [apply sort_lId_sorted|].
  by rewrite (SaveKeyFrameTrajectoryTUM_run filename m vpKFs).
Qed.

Lemma traverse_chain h p ks A :
  culled_chain h p ks A →
  ∀ fuel Trw (w : World),
    heap w = h → (List.length ks ≤ fuel)%nat →
    traverse fuel p Trw w = Ret (accumulate Trw ks, A) w.
Proof.
  induction 1 as [p kf Hp Hb | p kf q ks A Hp Hb Hq Hc IH]; intros fuel Trw w <- Hf.
  - destruct fuel; simpl; unfold mbind, M_bind, get; rewrite Hp; simpl;
      by rewrite Hb.
  - destruct fuel as [|fuel]; [simpl in Hf; lia|].
    simpl. unfold mbind, M_bind, get. rewrite Hp. simpl. rewrite Hb, Hq. simpl.
    apply IH; [done | simpl in Hf; lia].
Qed.

Lemma frame_Tcw_chain h p ks A fuel Two rel (w : World) :
  culled_chain h p ks A → heap w = h → (List.length ks ≤ fuel)%nat →
  frame_Tcw fuel Two rel p w = Ret (recovered_Tcw Two rel ks A) w.
Proof.
  intros Hc Hh Hf. unfold frame_Tcw.
  erewrite bind_run by (by eapply traverse_chain). done.
Qed.

Lemma TUM_loop_run Two h lit :
  ∀ lRit lT lbL,
    List.length lRit = List.length lit → List.length lT = List.length lit →
    List.length lbL = List.length lit →
    Forall (λ e, ∃ ks A, culled_chain h (le_ref e) ks A) (log_entries lit lRit lT lbL) →
    ∃ fuel0, ∀ fuel (w : World),
      heap w = h → (fuel0 ≤ fuel)%nat →
      ∃ lines,
        TUM_loop fuel Two lit lRit lT lbL w = Ret tt (advance lines 0 w) ∧
        Forall2 (TUM_line_of h Two) (filter not_lost (log_entries lit lRit lT lbL)) lines.
Proof.
  induction lit as [|rel lit IH]; intros lRit lT lbL H1 H2 H3 Hall.
  - exists 0%nat. intros fuel w _ _. exists []. simpl.
    split; [by rewrite advance_nil | constructor].
  - destruct lRit as [|pKF lRit], lT as [|t lT], lbL as [|lost lbL]; try done.
    simpl in *. apply Forall_cons in Hall as [(ks & A & Hc) Hall].
    destruct (IH lRit lT lbL) as (fuel0 & Hrun); [lia | lia | lia | done |].
    exists (List.length ks `max` fuel0)%nat. intros fuel w Hh Hf.
    destruct lost.
    + rewrite filter_cons_False by done. apply Hrun; [done | lia].
    + rewrite filter_cons_True by done.
      erewrite bind_run by (eapply frame_Tcw_chain; [exact Hc | done | lia]).
      erewrite bind_run by reflexivity.
      destruct (Hrun fuel (advance [TUM_line t (recovered_Tcw Two rel ks A)] 0 w))
        as (lines & -> & Hlines); [done | lia |].
      eexists (_ :: lines). split; [by rewrite advance_advance|].
      constructor; [|done]. by exists ks, A.
Qed.

Lemma KITTI_loop_run Two h lit :
  ∀ lRit lT lbL,
    List.length lRit = List.length lit → List.length lT = List.length lit →
    List.length lbL = List.length lit →
    Forall (λ e, ∃ ks A, culled_chain h (le_ref e) ks A) (log_entries lit lRit lT lbL) →
    ∃ fuel0, ∀ fuel (w : World),
      heap w = h → (fuel0 ≤ fuel)%nat →
      ∃ lines,
        KITTI_loop fuel Two lit lRit lT w = Ret tt (advance lines 0 w) ∧
        Forall2 (KITTI_line_of h Two) (log_entries lit lRit lT lbL) lines.
Proof.
  induction lit as [|rel lit IH]; intros lRit lT lbL H1 H2 H3 Hall.
  - exists 0%nat. intros fuel w _ _. exists []. simpl.
    split; [by rewrite advance_nil | constructor].
  - destruct lRit as [|pKF lRit], lT as [|t lT], lbL as [|lost lbL]; try done.
    simpl in *. apply Forall_cons in Hall as [(ks & A & Hc) Hall].
    destruct (IH lRit lT lbL) as (fuel0 & Hrun); [lia | lia | lia | done |].
    exists (List.length ks `max` fuel0)%nat. intros fuel w Hh Hf.
    erewrite bind_run by (eapply frame_Tcw_chain; [exact Hc | done | lia]).
    erewrite bind_run by reflexivity.
    destruct (Hrun fuel (advance [KITTI_line (recovered_Tcw Two rel ks A)] 0 w))
      as (lines & -> & Hlines); [done | lia |].
    eexists (_ :: lines). split; [by rewrite advance_advance|].
    constructor; [|done]. by exists ks, A.
Qed.

Lemma first_pose_inverse_run vpKFs first (w : World) :
  head vpKFs = Some first →
  first_pose_inverse vpKFs w = Ret (GetPoseInverse first) w.
Proof. destruct vpKFs; [done|]. by intros [= ->]. Qed.

Lemma SaveTrajectoryTUM_run filename t first (w : World) :
  export_ready w t first →
  ∃ fuel0, ∀ fuel, (fuel0 ≤ fuel)%nat →
    ∃ lines,
      SaveTrajectoryTUM fuel filename w =
        Ret tt (advance (export_trace "camera" filename lines) 0 w) ∧
      Forall2 (TUM_line_of (heap w) (GetPoseInverse first))
        (filter not_lost (tracker_log t)) lines.
Proof.
  intros (Hs & Ht & (H1 & H2 & H3) & (m & vpKFs & Hm & Hk & Hfirst) & Hall).
  destruct (TUM_loop_run (GetPoseInverse first) (heap w) _ _ _ _ H1 H2 H3 Hall)
    as (fuel0 & Hrun).
  exists fuel0. intros fuel Hf.
  destruct (Hrun fuel
              (advance [Cout ("Saving camera trajectory to " +:+ filename +:+ " ...");
                        F_open filename] 0 w))
    as (lines & Hloop & Hlines); [done | done |].
  exists lines. split; [|done].
  unfold SaveTrajectoryTUM.
  erewrite bind_run by reflexivity.
  unfold mbind at 1, M_bind at 1, get_this at 1. simpl (this _).
  rewrite bool_decide_eq_false_2 by done.
  erewrite bind_run by (by eapply sorted_keyframes_run).
  erewrite bind_run by (by eapply first_pose_inverse_run).
  erewrite bind_run by reflexivity.
  rewrite Ht. erewrite bind_run by reflexivity.
  rewrite advance_advance.
  erewrite bind_run by exact Hloop.
  erewrite bind_run by reflexivity.
  unfold emit. rewrite !advance_advance. reflexivity.
Qed.

Lemma SaveTrajectoryKITTI_run filename t first (w : World) :
  export_ready w t first →
  ∃ fuel0, ∀ fuel, (fuel0 ≤ fuel)%nat →
    ∃ lines,
      SaveTrajectoryKITTI fuel filename w =
        Ret tt (advance (export_trace "camera" filename lines) 0 w) ∧
      Forall2 (KITTI_line_of (heap w) (GetPoseInverse first)) (tracker_log t) lines.
Proof.
  intros (Hs & Ht & (H1 & H2 & H3) & (m & vpKFs & Hm & Hk & Hfirst) & Hall).
  destruct (KITTI_loop_run (GetPoseInverse first) (heap w) _ _ _ _ H1 H2 H3 Hall)
    as (fuel0 & Hrun).
  exists fuel0. intros fuel Hf.
  destruct (Hrun fuel
              (advance [Cout ("Saving camera trajectory to " +:+ filename +:+ " ...");
                        F_open filename] 0 w))
    as (lines & Hloop & Hlines); [done | done |].
  exists lines. split; [|done].
  unfold SaveTrajectoryKITTI.
  erewrite bind_run by reflexivity.
  unfold mbind at 1, M_bind at 1, get_this at 1. simpl (this _).
  rewrite bool_decide_eq_false_2 by done.
  erewrite bind_run by (by eapply sorted_keyframes_run).
  erewrite bind_run by (by eapply first_pose_inverse_run).
  erewrite bind_run by reflexivity.
  rewrite Ht. erewrite bind_run by reflexivity.
  rewrite advance_advance.
  erewrite bind_run by exact Hloop.
  erewrite bind_run by reflexivity.
  unfold emit. rewrite !advance_advance. reflexivity.
Qed.

(** The walk is a function of the heap: the culled keyframes passed and
    the ancestor reached are determined by the starting pointer. *)
Lemma culled_chain_functional h p ks A ks' A' :
  culled_chain h p ks A → culled_chain h p ks' A' → ks = ks' ∧ A = A'.
Proof.
  intros Hc. revert ks' A'.
  induction Hc as [p kf Hp Hb | p kf q ks A Hp Hb Hq Hc IH]; intros ks' A' Hc'.
  - inversion Hc'; subst; simplify_eq; [done | congruence].
  - inversion Hc' as [? ? Hp' Hb' | ? ? ? ? ? Hp' Hb' Hq' Hc'']; subst; simplify_eq.
    + congruence.
    + destruct (IH _ _ Hc'') as [-> ->]. done.
Qed.

(** C1, as amended.  For a stereo or RGBD system whose logs are in
    lockstep and whose logged references all reach a keyframe that is
    not bad, both camera-trajectory exports return (with enough fuel for
    the walks) and every line they write holds the inverse of the pose
    [relativePose x ((accumulated x pose(A)) x Two)]: the camera centre
    [-R^T t] and the orientation [R^T] of that pose [[R | t]] (as a
    quaternion, after the timestamp, in the one format; as a matrix in
    the other).  The walk from the frame's reference keyframe passes
    the bad keyframes [ks] and ends at the first keyframe [A] that is
    not bad; the accumulator starts at the identity and is multiplied
    on the right by the transform of each bad keyframe, so
    [accumulated] is [eye x Tcp(k1) x Tcp(k2) ...] over [ks] in walk
    order, the transform of the keyframe met first leftmost; [Two] is
    the inverse pose of the keyframe with the lowest id.
    [SaveTrajectoryTUM] writes such a line for the frames not flagged
    lost.  For a frame whose reference K1 is bad with a parent root that
    is not, the pose is [relativePose x ((Tcp(K1) x pose(root)) x Two)],
    given that [eye x Tcp(K1)] is [Tcp(K1)]; for a frame whose reference
    K2 is bad with a bad parent K1 whose parent root is not bad, it is
    [relativePose x ((((eye x Tcp(K2)) x Tcp(K1)) x pose(root)) x Two)]. *)
Theorem C1_culled_reference_pose filename t first (w : World) :
  export_ready w t first →
  (∃ fuel0, ∀ fuel, (fuel0 ≤ fuel)%nat →
     (∃ lines,
        SaveTrajectoryTUM fuel filename w =
          Ret tt (advance (export_trace "camera" filename lines) 0 w) ∧
        Forall2 (TUM_line_of (heap w) (GetPoseInverse first))
          (filter not_lost (tracker_log t)) lines) ∧
     (∃ lines,
        SaveTrajectoryKITTI fuel filename w =
          Ret tt (advance (export_trace "camera" filename lines) 0 w) ∧
        Forall2 (KITTI_line_of (heap w) (GetPoseInverse first))
          (tracker_log t) lines)) ∧
  (∀ m vpKFs,
     mpMap (this w) = Some m →
     mapM (λ p : nat, heap w !! p) (GetAllKeyFrames m) = Some vpKFs →
     first ∈ vpKFs ∧ Forall (id_le first) vpKFs) ∧
  (∀ pr p1 root K1 rel fuel Two,
     heap w !! pr = Some root → isBad root = false →
     heap w !! p1 = Some K1 → isBad K1 = true → GetParent K1 = Some pr →
     mat_mul mat_eye (mTcp K1) = mTcp K1 →
     culled_chain (heap w) p1 [K1] root ∧
     recovered_Tcw Two rel [K1] root =
       mat_mul rel (mat_mul (mat_mul (mTcp K1) (GetPose root)) Two) ∧
     frame_Tcw (S fuel) Two rel p1 w =
       Ret (mat_mul rel (mat_mul (mat_mul (mTcp K1) (GetPose root)) Two)) w) ∧
  (∀ pr p1 p2 root K1 K2 rel fuel Two,
     heap w !! pr = Some root → isBad root = false →
     heap w !! p1 = Some K1 → isBad K1 = true → GetParent K1 = Some pr →
     heap w !! p2 = Some K2 → isBad K2 = true → GetParent K2 = Some p1 →
     culled_chain (heap w) p2 [K2; K1] root ∧
     frame_Tcw (S (S fuel)) Two rel p2 w =
       Ret (mat_mul rel
              (mat_mul
                 (mat_mul (mat_mul (mat_mul mat_eye (mTcp K2)) (mTcp K1)) (GetPose root))
                 Two)) w).
Proof.
  intros Hready. split; [|split; [|split]].
  - destruct (SaveTrajectoryTUM_run filename t first w Hready) as (f1 & Htum).
    destruct (SaveTrajectoryKITTI_run filename t first w Hready) as (f2 & Hkitti).
    exists (f1 `max` f2)%nat. intros fuel Hf. split.
    + apply Htum. lia.
    + apply Hkitti. lia.
  - intros m vpKFs Hm Hk.
    destruct Hready as (_ & _ & _ & (m' & vpKFs' & Hm' & Hk' & Hfirst) & _).
    simplify_eq. by apply sort_lId_head.
  - intros pr p1 root K1 rel fuel Two Hroot Hlive HK1 Hbad Hparent Heye.
    assert (culled_chain (heap w) p1 [K1] root) as Hc.
    { eapply chain_bad; [done | done | done |]. by apply chain_live. }
    assert (recovered_Tcw Two rel [K1] root =
            mat_mul rel (mat_mul (mat_mul (mTcp K1) (GetPose root)) Two)) as Heq.
    { unfold recovered_Tcw, accumulate. simpl. by rewrite Heye. }
    split; [done|]. split; [done|]. rewrite <- Heq.
    eapply frame_Tcw_chain; [done | done | simpl; lia].
  - intros pr p1 p2 root K1 K2 rel fuel Two Hroot Hlive HK1 Hbad1 Hpar1 HK2 Hbad2 Hpar2.
    assert (culled_chain (heap w) p2 [K2; K1] root) as Hc.
    { eapply chain_bad; [done | done | done |].
      eapply chain_bad; [done | done | done |]. by apply chain_live. }
    split; [done|].
    change (mat_mul rel
              (mat_mul
                 (mat_mul (mat_mul (mat_mul mat_eye (mTcp K2)) (mTcp K1)) (GetPose root))
                 Two))
      with (recovered_Tcw Two rel [K2; K1] root).
    eapply frame_Tcw_chain; [done | done | simpl; lia].
Qed.

(** ** Loading the map *)

Lemma has_suffix_nonempty s suffix :
  suffix ≠ "" → has_suffix s suffix = true → s ≠ "".
Proof.
  intros Hne Hs ->. destruct suffix as [|c suffix]; [done|].
  unfold has_suffix, find, size_t_sub in Hs. simpl String.length in Hs.
  change (Z.of_nat 0) with 0 in Hs.
  assert ((0 <? (0 - Z.of_nat (S (String.length suffix))) mod 2 ^ 64) = true) as Hlt.
  { apply Z.ltb_lt.
    destruct (Z.eq_dec ((0 - Z.of_nat (S (String.length suffix))) mod 2 ^ 64) 0)
      as [Hz|Hz].
    - rewrite Hz in Hs. simpl in Hs. done.
    - pose proof (Z.mod_pos_bound (0 - Z.of_nat (S (String.length suffix))) (2 ^ 64)).
      lia. }
  rewrite Hlt in Hs. done.
Qed.

Lemma LoadMap_missing filename (w : World) :
  ifstream (env w) filename = None →
  LoadMap filename w =
  Ret false (advance [IA_open filename; cannot_open (this w)] 0 w).
Proof.
  intros Hin. unfold LoadMap.
  unfold mbind at 1, M_bind at 1, get at 1. rewrite Hin.
  erewrite bind_run by reflexivity. erewrite bind_run by reflexivity.
  unfold mret, M_ret. by rewrite advance_advance.
Qed.

Lemma reconstruct_run vpKFS : ∀ kfs acc (w : World),
  mapM (λ p : nat, heap w !! p) vpKFS = Some kfs →
  reconstruct vpKFS acc w =
  Ret (foldl (λ acc k, Z.max acc (mnFrameId k)) acc kfs)
    (advance (reconstruct_trace vpKFS) 0 w).
Proof.
  induction vpKFS as [|p rest IH]; intros kfs acc w Hk.
  - injection Hk as <-. simpl. by rewrite advance_nil.
  - simpl in Hk. destruct (heap w !! p) as [kf|] eqn:Hp; [|done]. simpl in Hk.
    destruct (mapM _ rest) as [kfs'|] eqn:Hrest; [|done]. injection Hk as <-.
    simpl. unfold mbind at 1, M_bind at 1, get at 1. rewrite Hp.
    erewrite bind_run by reflexivity. erewrite bind_run by reflexivity.
    erewrite bind_run by reflexivity.
    replace (if acc <? mnFrameId kf then mnFrameId kf else acc)
      with (Z.max acc (mnFrameId kf))
      by (destruct (Z.ltb_spec acc (mnFrameId kf)); lia).
    rewrite (IH kfs') by done. by rewrite !advance_advance.
Qed.

Lemma load_archive_run ar kfs (w : World) :
  mapM (λ p : nat, (ar_objs ar ∪ heap w) !! p) (GetAllKeyFrames (ar_map ar)) = Some kfs →
  ∃ w', load_archive ar w = Ret tt w' ∧
        loaded ar kfs w w' ∧
        trace w' = trace w ++ load_trace (this w) (GetAllKeyFrames (ar_map ar)) ∧
        mapfile (this w') = mapfile (this w).
Proof.
  intros Hk. unfold load_archive.
  erewrite bind_run by reflexivity. erewrite bind_run by reflexivity.
  erewrite bind_run by reflexivity. erewrite bind_run by reflexivity.
  erewrite bind_run by reflexivity. erewrite bind_run by reflexivity.
  erewrite bind_run by reflexivity.
  erewrite bind_run by (by apply reconstruct_run).
  erewrite bind_run by reflexivity. erewrite bind_run by reflexivity.
  erewrite bind_run by reflexivity.
  eexists. split; [reflexivity|]. unfold loaded, load_trace. simpl.
  split; [done|]. split; [|done].
  repeat (rewrite <- app_assoc; simpl). done.
Qed.

Lemma LoadMap_loaded filename ar kfs (w : World) :
  ifstream (env w) filename = Some ar →
  mapM (λ p : nat, (ar_objs ar ∪ heap w) !! p) (GetAllKeyFrames (ar_map ar)) = Some kfs →
  ∃ w', LoadMap filename w = Ret true w' ∧
        loaded ar kfs w w' ∧
        trace w' =
          trace w ++ [IA_open filename] ++
            load_trace (this w) (GetAllKeyFrames (ar_map ar)).
Proof.
  intros Hin Hk. unfold LoadMap.
  unfold mbind at 1, M_bind at 1, get at 1. rewrite Hin.
  erewrite bind_run by reflexivity.
  destruct (load_archive_run ar kfs (advance [IA_open filename] 0 w))
    as (w' & Hrun & Hloaded & Htrace & _); [done|].
  erewrite bind_run by exact Hrun.
  exists w'. split; [done|]. split; [done|].
  rewrite Htrace. simpl. by rewrite <- app_assoc.
Qed.

(** After a successful load the counter holds the greatest loaded frame
    id itself. *)
Lemma LoadMap_nNextId filename ar kfs (w : World) b w' :
  ifstream (env w) filename = Some ar →
  mapM (λ p : nat, (ar_objs ar ∪ heap w) !! p) (GetAllKeyFrames (ar_map ar)) = Some kfs →
  LoadMap filename w = Ret b w' →
  b = true ∧ Frame_nNextId w' = max_frame_id kfs.
Proof.
  intros Hin Hk Hrun.
  destruct (LoadMap_loaded filename ar kfs w Hin Hk) as (w2 & Hrun' & (Hid & _) & _).
  rewrite Hrun' in Hrun. by injection Hrun as <- <-.
Qed.

Lemma max_frame_id_attained kfs :
  kfs ≠ [] → Forall (λ k, 0 ≤ mnFrameId k) kfs →
  ∃ k, k ∈ kfs ∧ mnFrameId k = max_frame_id kfs.
Proof.
  unfold max_frame_id. intros Hne Hall.
  assert (∀ acc, (∃ k, k ∈ kfs ∧
                       mnFrameId k = foldl (λ acc k, Z.max acc (mnFrameId k)) acc kfs) ∨
                 (foldl (λ acc k, Z.max acc (mnFrameId k)) acc kfs = acc ∧
                  Forall (λ k, mnFrameId k < acc) kfs)) as Hgen.
  { clear Hne Hall. induction kfs as [|k kfs IH]; intros acc; simpl.
    - right. split; [done | constructor].
    - destruct (IH (Z.max acc (mnFrameId k))) as [(k' & Hin & Hk')|[Heq Hlt]].
      + left. exists k'. split; [by apply elem_of_cons; right | done].
      + destruct (Z.lt_ge_cases (mnFrameId k) acc) as [Hc|Hc].
        * right. rewrite Heq. split; [lia|]. constructor; [done|].
          eapply Forall_impl; [exact Hlt|]. simpl. lia.
        * left. exists k. split; [by apply elem_of_cons; left|]. rewrite Heq. lia. }
  destruct (Hgen 0) as [Hk|[_ Hlt]]; [done|].
  destruct kfs as [|k kfs]; [done|].
  apply Forall_cons in Hall as [Hk _]. apply Forall_cons in Hlt as [Hk' _]. lia.
Qed.

Lemma System_ctor_fallback strVocFile strSettingsFile sensor bUseViewer strMapFile
    (w : World) :
  settings_isOpened (env w) strSettingsFile = true →
  load_vocabulary (env w) strVocFile = true →
  has_suffix strMapFile ".bin" = true →
  ifstream (env w) strMapFile = None →
  ∃ w',
    System_ctor strVocFile strSettingsFile sensor bUseViewer strMapFile w = Ret tt w' ∧
    mpMap (this w') = Some Map_new ∧
    mpKeyFrameDatabase (this w') =
      Some (KeyFrameDatabase_new (Some {| voc_file := strVocFile |})) ∧
    heap w' = heap w ∧ Frame_nNextId w' = Frame_nNextId w ∧
    trace w' =
      trace w ++
      [IA_open strMapFile;
       Cerr ("Cannot Open Mapfile: " +:+ strMapFile +:+ " , You need create it first!")] ++
      ctor_trace sensor bUseViewer false.
Proof.
  intros Hset Hvoc Hsuf Hin. unfold System_ctor, when.
  erewrite bind_run by reflexivity.
  unfold mbind at 1, M_bind at 1, get at 1. simpl (env _).
  rewrite Hset. cbn [negb].
  erewrite bind_run by reflexivity.
  cbv zeta. rewrite Hvoc. cbn [negb].
  rewrite Hsuf. erewrite bind_run by reflexivity.
  unfold mbind at 1, M_bind at 1, get_this at 1. simpl (mapfile _).
  rewrite (bool_decide_eq_false_2 (strMapFile = ""))
    by (by apply (has_suffix_nonempty _ ".bin")).
  cbn [negb].
  erewrite bind_run by (by apply LoadMap_missing).
  cbn [negb].
  erewrite bind_run by (erewrite bind_run by reflexivity; reflexivity).
  erewrite bind_run by reflexivity. erewrite bind_run by reflexivity.
  erewrite bind_run by reflexivity. erewrite bind_run by reflexivity.
  erewrite bind_run by reflexivity. erewrite bind_run by reflexivity.
  destruct bUseViewer.
  - erewrite bind_run
      by (erewrite bind_run by reflexivity; erewrite bind_run by reflexivity;
          reflexivity).
    erewrite bind_run by reflexivity. erewrite bind_run by reflexivity.
    erewrite bind_run by reflexivity. erewrite bind_run by reflexivity.
    erewrite bind_run by reflexivity.
    eexists. split; [reflexivity|]. simpl.
    repeat (split; [done|]). repeat (rewrite <- app_assoc; simpl). done.
  - erewrite bind_run by reflexivity.
    erewrite bind_run by reflexivity. erewrite bind_run by reflexivity.
    erewrite bind_run by reflexivity. erewrite bind_run by reflexivity.
    erewrite bind_run by reflexivity.
    eexists. split; [reflexivity|]. simpl.
    repeat (split; [done|]). repeat (rewrite <- app_assoc; simpl). done.
Qed.

(** C9.  When the map file cannot be opened, [LoadMap] prints the
    message and returns [false], leaving the object, the memory and the
    frame-id counter as they were; and a constructor given such a file
    (settings and vocabulary being readable) goes on to create an empty
    Map and an empty index bound to the vocabulary, and builds the frame
    drawer and the tracking engine with the reuse flag [false]. *)
Theorem C9_missing_map_file (w : World) :
  (∀ filename,
     ifstream (env w) filename = None →
     LoadMap filename w =
     Ret false (advance [IA_open filename; cannot_open (this w)] 0 w)) ∧
  (∀ strVocFile strSettingsFile sensor bUseViewer strMapFile,
     settings_isOpened (env w) strSettingsFile = true →
     load_vocabulary (env w) strVocFile = true →
     has_suffix strMapFile ".bin" = true →
     ifstream (env w) strMapFile = None →
     ∃ w',
       System_ctor strVocFile strSettingsFile sensor bUseViewer strMapFile w = Ret tt w' ∧
       mpMap (this w') = Some Map_new ∧
       mpKeyFrameDatabase (this w') =
         Some (KeyFrameDatabase_new (Some {| voc_file := strVocFile |})) ∧
       heap w' = heap w ∧ Frame_nNextId w' = Frame_nNextId w ∧
       trace w' =
         trace w ++
         [IA_open strMapFile;
          Cerr ("Cannot Open Mapfile: " +:+ strMapFile +:+ " , You need create it first!")] ++
         ctor_trace sensor bUseViewer false).
Proof.
  split.
  - intros filename. apply LoadMap_missing.
  - intros. by apply System_ctor_fallback.
Qed.

(** ** The map-change query *)

Lemma MapChanged_run m (w : World) :
  mpMap (this w) = Some m →
  MapChanged w =
  if bool_decide (MapChanged_n w < GetLastBigChangeIdx m)
  then Ret true (with_n (GetLastBigChangeIdx m) w)
  else Ret false w.
Proof.
  intros Hm. unfold MapChanged, mbind, M_bind, get_this, get. rewrite Hm. simpl.
  destruct (Z.ltb_spec (MapChanged_n w) (GetLastBigChangeIdx m)).
  - by rewrite bool_decide_eq_true_2.
  - rewrite bool_decide_eq_false_2 by lia. done.
Qed.

(** C10.  The last observed index is the one variable [MapChanged_n] of
    the process, 0 at start.  A call on any [System] returns [true]
    exactly when the index of that system's map exceeds the variable, and
    then stores the index in it; so after one instance has returned
    [true], a call on another instance whose map has the same index (or
    a smaller one) returns [false]. *)
Theorem C10_MapChanged_shared (w : World) (m : Map) :
  mpMap (this w) = Some m →
  (∀ s e, MapChanged_n (World_start s e) = 0) ∧
  MapChanged w =
    (if bool_decide (MapChanged_n w < GetLastBigChangeIdx m)
     then Ret true (with_n (GetLastBigChangeIdx m) w)
     else Ret false w) ∧
  (∀ other m',
     mpMap other = Some m' →
     MapChanged_n w < GetLastBigChangeIdx m →
     GetLastBigChangeIdx m' ≤ GetLastBigChangeIdx m →
     MapChanged w = Ret true (with_n (GetLastBigChangeIdx m) w) ∧
     MapChanged (with_this other (with_n (GetLastBigChangeIdx m) w)) =
       Ret false (with_this other (with_n (GetLastBigChangeIdx m) w))).
Proof.
  intros Hm. split; [done|]. split; [by apply MapChanged_run|].
  intros other m' Hm' Hlt Hle. split.
  - rewrite (MapChanged_run m) by done. by rewrite bool_decide_eq_true_2.
  - rewrite (MapChanged_run m') by done. simpl.
    rewrite bool_decide_eq_false_2 by lia. done.
Qed.

(** ** More about [has_suffix] *)

Lemma prefix_app_l (s t : string) : String.prefix s (s +:+ t) = true.
Proof.
  induction s as [|a s IH]; simpl; [by destruct t|].
  destruct (Ascii.ascii_dec a a); [done | congruence].
Qed.

Lemma prefix_same_length (s1 s2 : string) :
  String.prefix s1 s2 = true → String.length s1 = String.length s2 → s1 = s2.
Proof.
  revert s2. induction s1 as [|a s1 IH]; intros [|b s2]; simpl; try done.
  destruct (Ascii.ascii_dec a b) as [->|]; [|done].
  intros Hp [= Hl]. f_equal. by apply IH.
Qed.

Lemma index_0_cons (s1 : string) b (s2 : string) :
  String.index 0 s1 (String b s2) =
  if String.prefix s1 (String b s2) then Some 0%nat
  else match String.index 0 s1 s2 with Some n => Some (S n) | None => None end.
Proof. done. Qed.

Lemma index_S_cons n (s1 : string) b (s2 : string) :
  String.index (S n) s1 (String b s2) =
  match String.index n s1 s2 with Some n => Some (S n) | None => None end.
Proof. done. Qed.

Lemma prefix_length (s1 s2 : string) :
  String.prefix s1 s2 = true → (String.length s1 ≤ String.length s2)%nat.
Proof.
  revert s2. induction s1 as [|a s1 IH]; intros [|c s]; simpl; try done; try lia.
  destruct (Ascii.ascii_dec a c); [|done]. intros Hp%IH. lia.
Qed.

Lemma index_bound (s1 s2 : string) : ∀ n m,
  String.index n s1 s2 = Some m →
  (n ≤ m)%nat ∧ (m + String.length s1 ≤ String.length s2)%nat.
Proof.
  induction s2 as [|b s2 IH]; intros n m.
  - simpl. destruct n; [|done]. destruct s1; [|done]. intros [= <-]. simpl. lia.
  - destruct n as [|n].
    + rewrite index_0_cons.
      destruct (String.prefix s1 (String b s2)) eqn:Hp.
      * intros [= <-]. split; [lia|]. apply prefix_length in Hp. lia.
      * destruct (String.index 0 s1 s2) as [k|] eqn:Hi; [|done].
        intros [= <-]. apply IH in Hi. simpl. lia.
    + rewrite index_S_cons.
      destruct (String.index n s1 s2) as [k|] eqn:Hi; [|done].
      intros [= <-]. apply IH in Hi. simpl. lia.
Qed.

Lemma prefix_refl (s : string) : String.prefix s s = true.
Proof.
  induction s as [|a s IH]; simpl; [done|].
  destruct (Ascii.ascii_dec a a); [done | congruence].
Qed.

Lemma index_suffix_found (pre suf : string) :
  String.index (String.length pre) suf (pre +:+ suf) = Some (String.length pre).
Proof.
  induction pre as [|a pre IH].
  - destruct suf as [|b suf]; [done|].
    change ("" +:+ String b suf) with (String b suf).
    change (String.length "") with 0%nat.
    by rewrite index_0_cons, prefix_refl.
  - change (String a pre +:+ suf) with (String a (pre +:+ suf)).
    change (String.length (String a pre)) with (S (String.length pre)).
    by rewrite index_S_cons, IH.
Qed.

Lemma index_at_end (suf str : string) : ∀ n m,
  String.index n suf str = Some m →
  (n + String.length suf = String.length str)%nat →
  ∃ pre, str = pre +:+ suf.
Proof.
  induction str as [|b str IH]; intros n m Hi Hl.
  - simpl in Hl. destruct suf; [|simpl in Hl; lia]. by exists "".
  - pose proof (index_bound _ _ _ _ Hi) as [Hnm Hm].
    destruct n as [|n]; [rewrite index_0_cons in Hi | rewrite index_S_cons in Hi].
    + destruct (String.prefix suf (String b str)) eqn:Hp.
      * exists "". simpl. symmetry. by apply prefix_same_length.
      * destruct (String.index 0 suf str) as [k|] eqn:Hk; [|done].
        injection Hi as <-. simpl in Hm, Hl. lia.
    + destruct (String.index n suf str) as [k|] eqn:Hk; [|done].
      destruct (IH n k Hk) as (pre & ->); [simpl in Hl; lia|].
      by exists (String b pre).
Qed.

Lemma length_append (s t : string) :
  String.length (s +:+ t) = (String.length s + String.length t)%nat.
Proof. induction s as [|a s IH]; simpl; [done | by rewrite IH]. Qed.

(** X1.  For strings within the range of [size_t], [has_suffix] answers
    [true] exactly when the string ends with the suffix; a string shorter
    than the suffix gets [false] through the wrap-around of the
    subtraction. *)
Theorem has_suffix_spec (str suffix : string) :
  Z.of_nat (String.length str) < 2 ^ 64 - 1 →
  Z.of_nat (String.length suffix) < 2 ^ 64 - 1 →
  has_suffix str suffix = true ↔ ∃ pre, str = pre +:+ suffix.
Proof.
  intros Hstr Hsuf. unfold has_suffix, find, size_t_sub, npos.
  destruct (le_lt_dec (String.length suffix) (String.length str)) as [Hle|Hlt].
  - rewrite Z.mod_small by lia.
    replace (Z.of_nat (String.length str) - Z.of_nat (String.length suffix))
      with (Z.of_nat (String.length str - String.length suffix)) by lia.
    rewrite Nat2Z.id.
    destruct (Z.ltb_spec (Z.of_nat (String.length str))
                (Z.of_nat (String.length str - String.length suffix))); [lia|].
    destruct (String.index _ suffix str) as [m|] eqn:Hi.
    + pose proof (index_bound _ _ _ _ Hi) as [_ Hm].
      split.
      * intros _. eapply index_at_end; [exact Hi | lia].
      * intros _. apply negb_true_iff, Z.eqb_neq. lia.
    + split; [done|]. intros (pre & ->).
      rewrite length_append in Hi.
      replace (String.length pre + String.length suffix - String.length suffix)%nat
        with (String.length pre) in Hi by lia.
      by rewrite index_suffix_found in Hi.
  - destruct (Z.ltb_spec (Z.of_nat (String.length str))
                ((Z.of_nat (String.length str) - Z.of_nat (String.length suffix))
                   mod 2 ^ 64)) as [_|Hge].
    + split; [done|]. intros (pre & ->). rewrite length_append in Hlt. lia.
    + exfalso.
      replace ((Z.of_nat (String.length str) - Z.of_nat (String.length suffix))
                 mod 2 ^ 64)
        with (Z.of_nat (String.length str) - Z.of_nat (String.length suffix) + 2 ^ 64)
        in Hge; [lia|].
      apply Z.mod_unique with (q := -1); lia.
Qed.

(** ** More about ingestion *)

(** X2.  An ingestion call that does not match the configured sensor
    prints the error and exits the process with status -1: no request is
    consumed, no worker is asked anything and the tracking engine gets no
    frame. *)
Theorem Track_wrong_sensor fuel (im1 im2 : Image) (timestamp : Timestamp) (w : World) :
  (mSensor (this w) ≠ STEREO →
   TrackStereo fuel im1 im2 timestamp w =
   Exit (-1)
     (advance
        [Cerr "ERROR: you called TrackStereo but input sensor was not set to STEREO."]
        0 w)) ∧
  (mSensor (this w) ≠ RGBD →
   TrackRGBD fuel im1 im2 timestamp w =
   Exit (-1)
     (advance
        [Cerr "ERROR: you called TrackRGBD but input sensor was not set to RGBD."]
        0 w)) ∧
  (mSensor (this w) ≠ MONOCULAR →
   TrackMonocular fuel im1 timestamp w =
   Exit (-1)
     (advance
        [Cerr "ERROR: you called TrackMonocular but input sensor was not set to Monocular."]
        0 w)).
Proof.
  split; [|split]; intros Hs.
  - unfold TrackStereo. unfold mbind at 1, M_bind at 1, get_this at 1.
    by rewrite bool_decide_eq_true_2.
  - unfold TrackRGBD. unfold mbind at 1, M_bind at 1, get_this at 1.
    by rewrite bool_decide_eq_true_2.
  - unfold TrackMonocular. unfold mbind at 1, M_bind at 1, get_this at 1.
    by rewrite bool_decide_eq_true_2.
Qed.

Lemma grab_snapshot f ev (w : World) Tcw w' :
  (tracker_grab f ev ≫= λ Tcw, SnapshotState;; mret Tcw) w = Ret Tcw w' →
  ∃ t0,
    mpTracker (this w) = Some t0 ∧
    Tcw = (f (env w') t0).1 ∧
    mpTracker (this w') = Some (f (env w') t0).2 ∧
    snapshot_taken (this w') ∧
    GetTrackingState w' = Ret (mState (f (env w') t0).2) w'.
Proof.
  explode w. run_blocks. destruct trk as [t0|]; simpl; [|done].
  intros [= <- <-]. exists t0. simpl. split; [done|]. split; [done|].
  split; [done|]. split; [|done]. by eexists.
Qed.

(** X3.  When an ingestion call returns, the pose it returns is the one
    the tracking engine computed for the frame, and the members behind
    [GetTrackingState], [GetTrackedMapPoints] and [GetTrackedKeyPointsUn]
    hold the state, map points and keypoints of the tracking engine
    after that frame. *)
Theorem Track_snapshot (w : World) :
  (∀ fuel imLeft imRight timestamp Tcw w',
     TrackStereo fuel imLeft imRight timestamp w = Ret Tcw w' →
     ∃ t0,
       Tcw = (Tracking_GrabImageStereo (env w') imLeft imRight timestamp t0).1 ∧
       mpTracker (this w') =
         Some (Tracking_GrabImageStereo (env w') imLeft imRight timestamp t0).2 ∧
       snapshot_taken (this w') ∧
       GetTrackingState w' =
         Ret (mState (Tracking_GrabImageStereo (env w') imLeft imRight timestamp t0).2)
           w') ∧
  (∀ fuel im depthmap timestamp Tcw w',
     TrackRGBD fuel im depthmap timestamp w = Ret Tcw w' →
     ∃ t0,
       Tcw = (Tracking_GrabImageRGBD (env w') im depthmap timestamp t0).1 ∧
       mpTracker (this w') =
         Some (Tracking_GrabImageRGBD (env w') im depthmap timestamp t0).2 ∧
       snapshot_taken (this w') ∧
       GetTrackingState w' =
         Ret (mState (Tracking_GrabImageRGBD (env w') im depthmap timestamp t0).2) w') ∧
  (∀ fuel im timestamp Tcw w',
     TrackMonocular fuel im timestamp w = Ret Tcw w' →
     ∃ t0,
       Tcw = (Tracking_GrabImageMonocular (env w') im timestamp t0).1 ∧
       mpTracker (this w') =
         Some (Tracking_GrabImageMonocular (env w') im timestamp t0).2 ∧
       snapshot_taken (this w') ∧
       GetTrackingState w' =
         Ret (mState (Tracking_GrabImageMonocular (env w') im timestamp t0).2) w').
Proof.
  split; [|split].
  - intros fuel imLeft imRight timestamp Tcw w'. unfold TrackStereo.
    unfold mbind at 1, M_bind at 1, get_this at 1. case_bool_decide; [done|].
    intros (? & w1 & _ & Hrest)%bind_ret_inv.
    apply bind_ret_inv in Hrest as (? & w2 & _ & Hrest).
    apply grab_snapshot in Hrest as (t0 & _ & Hrest). by exists t0.
  - intros fuel im depthmap timestamp Tcw w'. unfold TrackRGBD.
    unfold mbind at 1, M_bind at 1, get_this at 1. case_bool_decide; [done|].
    intros (? & w1 & _ & Hrest)%bind_ret_inv.
    apply bind_ret_inv in Hrest as (? & w2 & _ & Hrest).
    apply grab_snapshot in Hrest as (t0 & _ & Hrest). by exists t0.
  - intros fuel im timestamp Tcw w'. unfold TrackMonocular.
    unfold mbind at 1, M_bind at 1, get_this at 1. case_bool_decide; [done|].
    intros (? & w1 & _ & Hrest)%bind_ret_inv.
    apply bind_ret_inv in Hrest as (? & w2 & _ & Hrest).
    apply bind_ret_inv in Hrest as (? & w3 & _ & Hrest).
    apply grab_snapshot in Hrest as (t0 & _ & Hrest). by exists t0.
Qed.

Ltac requests_block w :=
  explode w; subst; run_blocks;
  repeat match goal with
         | |- context [match ?b with _ => _ end] => is_var b; destruct b; simpl
         end;
  try done; intros [= <- <-]; done.

Lemma CheckModeChange_requests fuel announce (w : World) a w' :
  CheckModeChange fuel announce w = Ret a w' →
  requests (this w') = (false, false, mbReset (this w), mbResetAndLoad (this w)).
Proof.
  unfold CheckModeChange, mbind, M_bind, get_this, when, requests.
  destruct (mbActivateLocalizationMode (this w)) eqn:Ha; simpl.
  - destruct announce; simpl; rewrite while_poll; simpl;
      (destruct (first_poll _ (now w) _) as [k|]; [|done]);
      requests_block w.
  - requests_block w.
Qed.

Lemma CheckReset_requests (w : World) a w' :
  CheckReset w = Ret a w' →
  requests (this w') =
  (mbActivateLocalizationMode (this w), mbDeactivateLocalizationMode (this w), false,
   mbResetAndLoad (this w)).
Proof. unfold requests. requests_block w. Qed.

Lemma CheckResetAndLoad_requests (w : World) a w' :
  CheckResetAndLoad w = Ret a w' →
  requests (this w') =
  (mbActivateLocalizationMode (this w), mbDeactivateLocalizationMode (this w),
   mbReset (this w), false).
Proof. unfold requests. requests_block w. Qed.

Lemma grab_snapshot_requests f ev (w : World) Tcw w' :
  (tracker_grab f ev ≫= λ Tcw, SnapshotState;; mret Tcw) w = Ret Tcw w' →
  requests (this w') = requests (this w).
Proof. unfold requests. requests_block w. Qed.

(** X4.  Every ingestion call that returns has consumed the requests it
    handles: Activate, Deactivate and Reset are clear after
    [TrackStereo] and [TrackRGBD], which leave ResetAndLoad as it was;
    all four are clear after [TrackMonocular]. *)
Theorem Track_consumes_requests (w : World) :
  (∀ fuel imLeft imRight timestamp Tcw w',
     TrackStereo fuel imLeft imRight timestamp w = Ret Tcw w' →
     requests (this w') = (false, false, false, mbResetAndLoad (this w))) ∧
  (∀ fuel im depthmap timestamp Tcw w',
     TrackRGBD fuel im depthmap timestamp w = Ret Tcw w' →
     requests (this w') = (false, false, false, mbResetAndLoad (this w))) ∧
  (∀ fuel im timestamp Tcw w',
     TrackMonocular fuel im timestamp w = Ret Tcw w' →
     requests (this w') = (false, false, false, false)).
Proof.
  split; [|split].
  - intros fuel imLeft imRight timestamp Tcw w'. unfold TrackStereo.
    unfold mbind at 1, M_bind at 1, get_this at 1. case_bool_decide; [done|].
    intros (? & w1 & H1%CheckModeChange_requests & Hrest)%bind_ret_inv.
    apply bind_ret_inv in Hrest as (? & w2 & H2%CheckReset_requests & Hrest).
    apply grab_snapshot_requests in Hrest. unfold requests in *. congruence.
  - intros fuel im depthmap timestamp Tcw w'. unfold TrackRGBD.
    unfold mbind at 1, M_bind at 1, get_this at 1. case_bool_decide; [done|].
    intros (? & w1 & H1%CheckModeChange_requests & Hrest)%bind_ret_inv.
    apply bind_ret_inv in Hrest as (? & w2 & H2%CheckReset_requests & Hrest).
    apply grab_snapshot_requests in Hrest. unfold requests in *. congruence.
  - intros fuel im timestamp Tcw w'. unfold TrackMonocular.
    unfold mbind at 1, M_bind at 1, get_this at 1. case_bool_decide; [done|].
    intros (? & w1 & H1%CheckModeChange_requests & Hrest)%bind_ret_inv.
    apply bind_ret_inv in Hrest as (? & w2 & H2%CheckReset_requests & Hrest).
    apply bind_ret_inv in Hrest as (? & w3 & H3%CheckResetAndLoad_requests & Hrest).
    apply grab_snapshot_requests in Hrest. unfold requests in *. congruence.
Qed.

Ltac no_wait_block b :=
  destruct b; simpl; do 2 eexists; (split; [reflexivity|]); simpl;
  rewrite ?app_nil_r, <- ?app_assoc; simpl;
  repeat (split; [reflexivity|]); reflexivity.

Lemma CheckModeChange_no_wait fuel announce t (w : World) :
  mbActivateLocalizationMode (this w) = false →
  mpTracker (this w) = Some t →
  ∃ w' t', CheckModeChange fuel announce w = Ret tt w' ∧
           now w' = now w ∧ mpTracker (this w') = Some t' ∧
           trace w' =
             trace w ++ (if mbDeactivateLocalizationMode (this w)
                         then [T_InformOnlyTracking false; LM_Release] else []) ∧
           mbReset (this w') = mbReset (this w) ∧
           mbResetAndLoad (this w') = mbResetAndLoad (this w).
Proof.
  explode w. intros -> ->. unfold CheckModeChange. run_blocks. no_wait_block deact.
Qed.

Lemma CheckReset_no_wait t (w : World) :
  mpTracker (this w) = Some t →
  ∃ w' t', CheckReset w = Ret tt w' ∧ now w' = now w ∧ mpTracker (this w') = Some t' ∧
           trace w' = trace w ++ (if mbReset (this w) then [T_Reset] else []) ∧
           mbResetAndLoad (this w') = mbResetAndLoad (this w).
Proof. explode w. intros ->. run_blocks. no_wait_block rs. Qed.

Lemma CheckResetAndLoad_no_wait t (w : World) :
  mpTracker (this w) = Some t →
  ∃ w' t', CheckResetAndLoad w = Ret tt w' ∧ now w' = now w ∧
           mpTracker (this w') = Some t' ∧
           trace w' =
             trace w ++ (if mbResetAndLoad (this w) then [T_ResetAfterLoaded] else []).
Proof. explode w. intros ->. run_blocks. no_wait_block rl. Qed.

Lemma grab_snapshot_no_wait f ev t (w : World) :
  mpTracker (this w) = Some t →
  ∃ Tcw w', (tracker_grab f ev ≫= λ Tcw, SnapshotState;; mret Tcw) w = Ret Tcw w' ∧
            now w' = now w ∧ trace w' = trace w ++ [ev].
Proof.
  explode w. intros ->. run_blocks. do 2 eexists.
  split; [reflexivity|]. simpl. split; reflexivity.
Qed.

(** X5.  Without a pending Activate request, and whatever the other
    requests are, an ingestion call on the matching sensor goes through
    no wait loop of [System.cc]: it polls no worker, asks for no stop
    and sleeps nowhere, with any amount of fuel and with none.  What it
    does is, in this order: [InformOnlyTracking(false)] and the release of
    local mapping if Deactivate is pending, [Reset] if pending,
    [ResetAfterLoaded] if pending (in [TrackMonocular] only), and the
    hand-over of the frame.  (The methods of the tracking engine are
    calls into [Tracking.cc]; whether they wait is not a matter of
    [System.cc].) *)
Theorem Track_without_Activate_polls_nothing fuel t (w : World) :
  mbActivateLocalizationMode (this w) = false →
  mpTracker (this w) = Some t →
  (mSensor (this w) = STEREO → ∀ imLeft imRight timestamp,
     ∃ Tcw w',
       TrackStereo fuel imLeft imRight timestamp w = Ret Tcw w' ∧ now w' = now w ∧
       trace w' =
         trace w ++ plain_trace false (this w)
                      (T_GrabImageStereo imLeft imRight timestamp)) ∧
  (mSensor (this w) = RGBD → ∀ im depthmap timestamp,
     ∃ Tcw w',
       TrackRGBD fuel im depthmap timestamp w = Ret Tcw w' ∧ now w' = now w ∧
       trace w' =
         trace w ++ plain_trace false (this w) (T_GrabImageRGBD im depthmap timestamp)) ∧
  (mSensor (this w) = MONOCULAR → ∀ im timestamp,
     ∃ Tcw w',
       TrackMonocular fuel im timestamp w = Ret Tcw w' ∧ now w' = now w ∧
       trace w' =
         trace w ++ plain_trace true (this w) (T_GrabImageMonocular im timestamp)).
Proof.
  intros Ha Ht. split; [|split]; intros Hs; intros.
  - unfold TrackStereo. unfold mbind at 1, M_bind at 1, get_this at 1.
    case_bool_decide; [done|].
    destruct (CheckModeChange_no_wait fuel false t w Ha Ht)
      as (w1 & t1 & H1 & N1 & T1 & E1 & R1 & _).
    destruct (CheckReset_no_wait t1 w1 T1) as (w2 & t2 & H2 & N2 & T2 & E2 & _).
    edestruct (grab_snapshot_no_wait) as (Tcw & w3 & H3 & N3 & E3); [exact T2|].
    erewrite bind_run by exact H1. erewrite bind_run by exact H2.
    exists Tcw, w3. split; [exact H3|]. split; [congruence|].
    rewrite E3, E2, E1, R1. unfold plain_trace. simpl.
    by rewrite <- !app_assoc.
  - unfold TrackRGBD. unfold mbind at 1, M_bind at 1, get_this at 1.
    case_bool_decide; [done|].
    destruct (CheckModeChange_no_wait fuel false t w Ha Ht)
      as (w1 & t1 & H1 & N1 & T1 & E1 & R1 & _).
    destruct (CheckReset_no_wait t1 w1 T1) as (w2 & t2 & H2 & N2 & T2 & E2 & _).
    edestruct (grab_snapshot_no_wait) as (Tcw & w3 & H3 & N3 & E3); [exact T2|].
    erewrite bind_run by exact H1. erewrite bind_run by exact H2.
    exists Tcw, w3. split; [exact H3|]. split; [congruence|].
    rewrite E3, E2, E1, R1. unfold plain_trace. simpl.
    by rewrite <- !app_assoc.
  - unfold TrackMonocular. unfold mbind at 1, M_bind at 1, get_this at 1.
    case_bool_decide; [done|].
    destruct (CheckModeChange_no_wait fuel true t w Ha Ht)
      as (w1 & t1 & H1 & N1 & T1 & E1 & R1 & L1).
    destruct (CheckReset_no_wait t1 w1 T1) as (w2 & t2 & H2 & N2 & T2 & E2 & L2).
    destruct (CheckResetAndLoad_no_wait t2 w2 T2) as (w3 & t3 & H3 & N3 & T3 & E3).
    edestruct (grab_snapshot_no_wait) as (Tcw & w4 & H4 & N4 & E4); [exact T3|].
    erewrite bind_run by exact H1. erewrite bind_run by exact H2.
    erewrite bind_run by exact H3.
    exists Tcw, w4. split; [exact H4|]. split; [congruence|].
    rewrite E4, E3, E2, E1, L2, L1, R1. unfold plain_trace. simpl.
    by rewrite <- !app_assoc.
Qed.

Lemma CheckModeChange_activate fuel announce (w : World) t :
  mpTracker (this w) = Some t →
  mbActivateLocalizationMode (this w) = true →
  mbDeactivateLocalizationMode (this w) = false →
  CheckModeChange fuel announce w =
  match first_poll (λ i, lm_isStopped (oracle (env w) i)) (now w) fuel with
  | Some k =>
      Ret tt
        (with_this
           (set_mbActivateLocalizationMode false
              (set_mpTracker (Some (Tracking_InformOnlyTracking (env w) true t))
                 (this w)))
           (advance
              ((if announce then [Cout "Localization mode started"] else []) ++
               [LM_RequestStop] ++ failed_polls LM_isStopped 1000 k ++
               [LM_isStopped true; T_InformOnlyTracking true])
              (S k) w))
  | None => Stall
  end.
Proof.
  intros Ht Ha Hd. unfold CheckModeChange.
  destruct announce; unfold mbind, M_bind, get_this, when; rewrite Ha; simpl;
    rewrite while_poll; simpl;
    (destruct (first_poll _ (now w) fuel) as [k|]; [|done]); simpl;
    unfold tracker_call, mbind, M_bind, get_this; simpl; rewrite Ht; simpl;
    rewrite Hd; simpl; unfold modify_this, mret, M_ret; world_eq.
Qed.

Lemma localization_events (w w' : World) pre k post :
  mbActivateLocalizationMode (this w') = false →
  trace w' =
    trace w ++ pre ++ [LM_RequestStop] ++ failed_polls LM_isStopped 1000 k ++
      [LM_isStopped true; T_InformOnlyTracking true] ++ post →
  (∀ init, only_tracking init post = init) →
  (∀ init, lm_held init post = init) →
  localization_only w w'.
Proof.
  intros Ha Htr Hot Hlm. split; [done|].
  eexists. split; [exact Htr|]. split; intros init.
  - rewrite only_tracking_app. simpl.
    rewrite only_tracking_app, only_tracking_failed_polls. simpl. apply Hot.
  - rewrite lm_held_app. simpl.
    rewrite lm_held_app, lm_held_failed_polls. simpl. apply Hlm.
Qed.

Ltac activates w t k Hfp pre :=
  unfold mbind at 1, M_bind at 1, get_this at 1;
  case_bool_decide; [done|];
  unfold mbind at 1, M_bind at 1;
  rewrite (CheckModeChange_activate _ _ _ t) by done;
  rewrite Hfp; clear Hfp;
  explode w; subst; run_blocks;
  repeat match goal with
         | |- context [if ?b then _ else _] => is_var b; destruct b; simpl
         end;
  (do 2 eexists; split; [reflexivity|]; simpl; split;
   [unfold activate_trace; simpl; repeat (rewrite <- app_assoc; simpl); reflexivity
   |eapply (localization_events _ _ pre k); simpl;
    [reflexivity
    | repeat (rewrite <- app_assoc; simpl); reflexivity
    | done | done]]).

(** X6.  With Activate pending and Deactivate not, an ingestion call
    asks local mapping to stop, polls until it answers that it has
    stopped, tells tracking to track only, and hands the frame over
    after that; on return tracking is in localization-only mode, local
    mapping is still held and the flag is clear. *)
Theorem Track_activates_before_frame fuel k t (w : World) :
  mbActivateLocalizationMode (this w) = true →
  mbDeactivateLocalizationMode (this w) = false →
  mpTracker (this w) = Some t →
  first_poll (λ i, lm_isStopped (oracle (env w) i)) (now w) fuel = Some k →
  (mSensor (this w) = STEREO → ∀ imLeft imRight timestamp,
     ∃ Tcw w',
       TrackStereo fuel imLeft imRight timestamp w = Ret Tcw w' ∧
       trace w' =
         trace w ++ activate_trace false k (mbReset (this w)) false
                      (T_GrabImageStereo imLeft imRight timestamp) ∧
       localization_only w w') ∧
  (mSensor (this w) = RGBD → ∀ im depthmap timestamp,
     ∃ Tcw w',
       TrackRGBD fuel im depthmap timestamp w = Ret Tcw w' ∧
       trace w' =
         trace w ++ activate_trace false k (mbReset (this w)) false
                      (T_GrabImageRGBD im depthmap timestamp) ∧
       localization_only w w') ∧
  (mSensor (this w) = MONOCULAR → ∀ im timestamp,
     ∃ Tcw w',
       TrackMonocular fuel im timestamp w = Ret Tcw w' ∧
       trace w' =
         trace w ++ activate_trace true k (mbReset (this w)) (mbResetAndLoad (this w))
                      (T_GrabImageMonocular im timestamp) ∧
       localization_only w w').
Proof.
  intros Ha Hd Ht Hfp. split; [|split]; intros Hs; intros.
  - unfold TrackStereo. activates w t k Hfp (@nil Event).
  - unfold TrackRGBD. activates w t k Hfp (@nil Event).
  - unfold TrackMonocular. activates w t k Hfp [Cout "Localization mode started"].
Qed.




(** ** More about loading *)

Lemma lm_held_quiet init es :
  Forall (λ e, is_LM_command e = false) es → lm_held init es = init.
Proof.
  revert init. induction es as [|e es IH]; intros init Hall; [done|].
  apply Forall_cons in Hall as [He Hall]. destruct e; simpl in *; try done; by apply IH.
Qed.

Lemma failed_polls_quiet ev us k :
  is_LM_command (ev false) = false →
  Forall (λ e, is_LM_command e = false) (failed_polls ev us k).
Proof.
  intros Hev. induction k as [|k IH]; unfold failed_polls in *; simpl.
  - constructor.
  - constructor; [done|]. constructor; [done|]. exact IH.
Qed.

Lemma lm_held_pause init viewer k kv :
  lm_held init (pause_trace viewer k kv) = true.
Proof.
  unfold pause_trace. simpl.
  rewrite lm_held_app, lm_held_failed_polls. simpl.
  destruct viewer; simpl; [|done].
  rewrite lm_held_app. rewrite (lm_held_quiet _ (failed_polls _ _ _)); [done|].
  by apply failed_polls_quiet.
Qed.

(** [LoadMapDuring] up to the point where the stream has been opened. *)
Lemma LoadMapDuring_paused fuel filename k kv (w : World) :
  paused fuel w k kv →
  LoadMapDuring fuel filename w =
  (match ifstream (env w) filename with
   | None => emit (cannot_open (this w))
   | Some ar =>
       load_archive ar;; emit LM_Release;;
       when (mpViewer (this w)) (emit V_Release)
   end)
    (advance (pause_trace (mpViewer (this w)) k kv ++ [IA_open filename])
       (pause_polls (mpViewer (this w)) k kv) w).
Proof.
  intros (Hk & Hkv). unfold LoadMapDuring.
  erewrite bind_run by reflexivity.
  erewrite bind_run; last first.
  { rewrite while_poll. simpl (env _). simpl (now _). rewrite Hk. reflexivity. }
  unfold mbind at 1, M_bind at 1, get_this at 1. simpl (this _).
  unfold pause_trace, pause_polls, when.
  destruct (mpViewer (this w)) eqn:Hv.
  - erewrite bind_run; last first.
    { erewrite bind_run by reflexivity. rewrite while_poll.
      simpl (env _). simpl (now _).
      change (S (k + now w)) with (S k + now w)%nat.
      rewrite (Hkv eq_refl). reflexivity. }
    unfold mbind at 1, M_bind at 1, get at 1. simpl (env _). simpl (this _).
    erewrite bind_run by reflexivity.
    rewrite !advance_advance. f_equal.
    apply advance_eq; [|lia]. repeat (rewrite <- app_assoc; simpl). done.
  - erewrite bind_run by reflexivity.
    unfold mbind at 1, M_bind at 1, get at 1. simpl (env _). simpl (this _).
    erewrite bind_run by reflexivity.
    rewrite !advance_advance. f_equal.
    apply advance_eq; [|lia]. repeat (rewrite <- app_assoc; simpl). done.
Qed.

(** X8.  When the file cannot be opened, [LoadMapDuring] has already
    paused local mapping (and the viewer) and returns without releasing
    them: the object, the memory and the counters are as before, and
    local mapping is left held. *)
Theorem LoadMapDuring_missing_file_keeps_pause fuel filename k kv (w : World) :
  paused fuel w k kv →
  ifstream (env w) filename = None →
  LoadMapDuring fuel filename w =
    Ret tt (advance
              (pause_trace (mpViewer (this w)) k kv ++
               [IA_open filename; cannot_open (this w)])
              (pause_polls (mpViewer (this w)) k kv) w) ∧
  ∀ init,
    lm_held init (pause_trace (mpViewer (this w)) k kv ++
                  [IA_open filename; cannot_open (this w)]) = true.
Proof.
  intros Hp Hin. split.
  - rewrite (LoadMapDuring_paused _ _ k kv) by done. rewrite Hin.
    unfold emit. rewrite advance_advance. f_equal.
    apply advance_eq; [|done]. by rewrite <- app_assoc.
  - intros init. rewrite lm_held_app, lm_held_pause. done.
Qed.


(** X10.  A successful [LoadMap] returns [true] with the Map and the
    index of the archive in place, the index bound to the vocabulary of
    the system, every loaded keyframe rebound and its descriptor
    recomputed in the order of the map's keyframes, and [Frame::nNextId]
    set to the greatest loaded frame id: 0 for a map without keyframes,
    and otherwise (frame ids not negative) the frame id of one of the
    loaded keyframes. *)
Theorem LoadMap_success filename ar kfs (w : World) :
  ifstream (env w) filename = Some ar →
  mapM (λ p : nat, (ar_objs ar ∪ heap w) !! p) (GetAllKeyFrames (ar_map ar)) = Some kfs →
  ∃ w',
    LoadMap filename w = Ret true w' ∧
    loaded ar kfs w w' ∧
    trace w' =
      trace w ++ [IA_open filename] ++
        load_trace (this w) (GetAllKeyFrames (ar_map ar)) ∧
    (kfs = [] → Frame_nNextId w' = 0) ∧
    (kfs ≠ [] → Forall (λ k, 0 ≤ mnFrameId k) kfs →
     ∃ k, k ∈ kfs ∧ mnFrameId k = Frame_nNextId w').
Proof.
  intros Hin Hk.
  destruct (LoadMap_loaded filename ar kfs w Hin Hk) as (w' & Hrun & Hloaded & Htr).
  exists w'. split; [done|]. split; [done|]. split; [done|].
  destruct Hloaded as (Hid & _). rewrite Hid. split.
  - by intros ->.
  - apply max_frame_id_attained.
Qed.

(** X11.  [ResetAndLoad] with a name that does not end in ".bin", on a
    system that has no map file name stored, loads nothing and pauses
    nothing, but still raises the request flag; the next monocular frame
    then makes the tracking engine reset after a load that did not
    happen. *)
Theorem ResetAndLoad_without_file fuel strMapFile (w : World) :
  mapfile (this w) = "" →
  has_suffix strMapFile ".bin" = false →
  ResetAndLoad fuel strMapFile w =
    Ret tt (advance [Cout "No map to load, incorrect file name"] 0
              (with_this (set_mbResetAndLoad true (this w)) w)) ∧
  ∀ t im timestamp,
    mSensor (this w) = MONOCULAR →
    requests (this w) = (false, false, false, false) →
    mpTracker (this w) = Some t →
    ∃ Tcw w',
      (ResetAndLoad fuel strMapFile ≫= λ _, TrackMonocular fuel im timestamp) w
        = Ret Tcw w' ∧
      trace w' =
        trace w ++ [Cout "No map to load, incorrect file name"; T_ResetAfterLoaded;
                    T_GrabImageMonocular im timestamp].
Proof.
  intros Hmf Hsuf.
  assert (ResetAndLoad fuel strMapFile w =
          Ret tt (advance [Cout "No map to load, incorrect file name"] 0
                    (with_this (set_mbResetAndLoad true (this w)) w))) as Hrun.
  { unfold ResetAndLoad. erewrite bind_run by reflexivity.
    rewrite Hsuf. unfold when. erewrite bind_run by reflexivity.
    unfold mbind at 1, M_bind at 1, get_this at 1. simpl (mapfile _).
    rewrite Hmf. done. }
  split; [exact Hrun|].
  intros t im timestamp Hs Hreq Ht.
  erewrite bind_run by exact Hrun.
  unfold requests in Hreq. injection Hreq as Ha Hd Hr Hl.
  unfold TrackMonocular. unfold mbind at 1, M_bind at 1, get_this at 1.
  simpl (mSensor _). rewrite bool_decide_eq_false_2 by (rewrite Hs; tauto).
  clear Hrun. explode w. subst. unfold CheckModeChange. run_blocks.
  do 2 eexists. split; [reflexivity|]. simpl.
  repeat (rewrite <- app_assoc; simpl). done.
Qed.

Lemma reconstruct_keeps vpKFS : ∀ acc (w : World) z w',
  reconstruct vpKFS acc w = Ret z w' → this w' = this w ∧ env w' = env w.
Proof.
  induction vpKFS as [|p rest IH]; intros acc w z w'; simpl.
  - by intros [= _ <-].
  - unfold mbind at 1, M_bind at 1, get at 1.
    destruct (heap w !! p) as [kf|]; [|done].
    erewrite bind_run by reflexivity. erewrite bind_run by reflexivity.
    erewrite bind_run by reflexivity. intros [-> ->]%IH. done.
Qed.

(** What [LoadMap] leaves alone. *)
Lemma LoadMap_keeps filename (w : World) b w' :
  LoadMap filename w = Ret b w' →
  mSensor (this w') = mSensor (this w) ∧
  mpViewer (this w') = mpViewer (this w) ∧
  requests (this w') = requests (this w) ∧
  mpVocabulary (this w') = mpVocabulary (this w) ∧
  mapfile (this w') = mapfile (this w) ∧
  mpTracker (this w') = mpTracker (this w) ∧
  env w' = env w ∧
  (b = true → is_Some (mpMap (this w')) ∧ is_Some (mpKeyFrameDatabase (this w'))) ∧
  (b = false → this w' = this w).
Proof.
  unfold LoadMap. unfold mbind at 1, M_bind at 1, get at 1.
  erewrite bind_run by reflexivity.
  destruct (ifstream (env w) filename) as [ar|].
  - intros (? & w1 & Hload & Hret)%bind_ret_inv. injection Hret as <- <-.
    revert Hload. unfold load_archive.
    erewrite bind_run by reflexivity. erewrite bind_run by reflexivity.
    erewrite bind_run by reflexivity. erewrite bind_run by reflexivity.
    erewrite bind_run by reflexivity. erewrite bind_run by reflexivity.
    erewrite bind_run by reflexivity.
    intros (z & w2 & [Hthis Henv]%reconstruct_keeps & Hrest)%bind_ret_inv.
    revert Hrest.
    erewrite bind_run by reflexivity. erewrite bind_run by reflexivity.
    erewrite bind_run by reflexivity. intros [= <- <-]. simpl.
    rewrite Hthis, Henv. simpl. unfold requests. simpl.
    repeat (split; [done|]). try (split; [by eauto|]). intros [=].
  - erewrite bind_run by reflexivity. intros [= <- <-]. simpl.
    repeat (split; [done|]). done.
Qed.

(** ** More about the constructor *)

(** X12.  The constructor ends the process with status -1 when the
    settings file cannot be opened, and when the vocabulary does not
    load -- which is always the case for a vocabulary file whose name
    ends neither in ".txt" nor in ".bin".  In both cases nothing has been
    constructed or started: the trace holds the error messages only. *)
Theorem System_ctor_fatal strVocFile strSettingsFile sensor bUseViewer strMapFile
    (w : World) :
  (settings_isOpened (env w) strSettingsFile = false →
   ∃ w', System_ctor strVocFile strSettingsFile sensor bUseViewer strMapFile w
           = Exit (-1) w' ∧
         trace w' =
           trace w ++ [Cerr ("Failed to open settings file at: " +:+ strSettingsFile)]) ∧
  (settings_isOpened (env w) strSettingsFile = true →
   load_vocabulary (env w) strVocFile = false →
   ∃ w', System_ctor strVocFile strSettingsFile sensor bUseViewer strMapFile w
           = Exit (-1) w' ∧
         trace w' =
           trace w ++ [Cerr "Wrong path to vocabulary. ";
                       Cerr ("Falied to open at: " +:+ strVocFile)]) ∧
  (has_suffix strVocFile ".txt" = false → has_suffix strVocFile ".bin" = false →
   load_vocabulary (env w) strVocFile = false).
Proof.
  split; [|split].
  - intros Hset. unfold System_ctor.
    erewrite bind_run by reflexivity.
    unfold mbind at 1, M_bind at 1, get at 1. simpl (env _).
    rewrite Hset. cbn [negb].
    erewrite bind_run by reflexivity. eexists. split; [reflexivity|]. done.
  - intros Hset Hvoc. unfold System_ctor.
    erewrite bind_run by reflexivity.
    unfold mbind at 1, M_bind at 1, get at 1. simpl (env _).
    rewrite Hset. cbn [negb].
    erewrite bind_run by reflexivity.
    cbv zeta. rewrite Hvoc. cbn [negb].
    erewrite bind_run by reflexivity. erewrite bind_run by reflexivity.
    eexists. split; [reflexivity|]. simpl. by rewrite <- app_assoc.
  - intros Ht Hb. unfold load_vocabulary. by rewrite Ht, Hb.
Qed.


(** X14.  Given a map file that loads, the constructor takes the Map
    and the index from the file, sets the frame-id counter from the
    loaded keyframes, creates no empty Map, and builds the frame drawer
    and the tracking engine with the reuse flag [true]. *)
Theorem System_ctor_reuses_map strVocFile strSettingsFile sensor bUseViewer strMapFile
    ar kfs (w : World) :
  settings_isOpened (env w) strSettingsFile = true →
  load_vocabulary (env w) strVocFile = true →
  has_suffix strMapFile ".bin" = true →
  ifstream (env w) strMapFile = Some ar →
  mapM (λ p : nat, (ar_objs ar ∪ heap w) !! p) (GetAllKeyFrames (ar_map ar)) = Some kfs →
  ∃ w',
    System_ctor strVocFile strSettingsFile sensor bUseViewer strMapFile w = Ret tt w' ∧
    constructed (env w) strVocFile sensor bUseViewer true (this w') ∧
    mpMap (this w') = Some (ar_map ar) ∧
    mpKeyFrameDatabase (this w') =
      Some (set_mpVoc (Some {| voc_file := strVocFile |}) (ar_db ar)) ∧
    mapfile (this w') = strMapFile ∧
    Frame_nNextId w' = max_frame_id kfs ∧
    trace w' =
      trace w ++ [IA_open strMapFile] ++
        [Cout ("Loading Mapfile: " +:+ strMapFile); DB_SetORBvocabulary;
         Cout " ...done"; Cout "Map Reconstructing"] ++
        reconstruct_trace (GetAllKeyFrames (ar_map ar)) ++
        [Cout " ...done"; IA_close] ++ ctor_trace sensor bUseViewer true.
Proof.
  intros Hset Hvoc Hsuf Hin Hk. unfold System_ctor, when.
  erewrite bind_run by reflexivity.
  unfold mbind at 1, M_bind at 1, get at 1. simpl (env _).
  rewrite Hset. cbn [negb].
  erewrite bind_run by reflexivity.
  cbv zeta. rewrite Hvoc. cbn [negb].
  rewrite Hsuf. erewrite bind_run by reflexivity.
  unfold mbind at 1, M_bind at 1, get_this at 1. simpl (mapfile _).
  rewrite (bool_decide_eq_false_2 (strMapFile = ""))
    by (by apply (has_suffix_nonempty _ ".bin")).
  cbn [negb].
  match goal with
  | |- context [LoadMap strMapFile ≫= _] =>
      match goal with
      | |- ∃ _, (_ ≫= _) ?w1 = _ ∧ _ =>
          destruct (LoadMap_loaded strMapFile ar kfs w1 Hin Hk)
            as (w2 & Hrun & (Hid & Hmap & Hdb & Hheap) & Htr)
      end
  end.
  erewrite bind_run by exact Hrun.
  cbn [negb].
  erewrite bind_run by reflexivity.
  erewrite bind_run by reflexivity. erewrite bind_run by reflexivity.
  erewrite bind_run by reflexivity. erewrite bind_run by reflexivity.
  erewrite bind_run by reflexivity. erewrite bind_run by reflexivity.
  pose proof (LoadMap_keeps _ _ _ _ Hrun) as (Hs2 & Hv2 & Hreq2 & Hvoc2 & Hmf2 & _).
  simpl in Hs2, Hv2, Hreq2, Hvoc2, Hmf2, Hdb, Htr.
  destruct bUseViewer.
  - erewrite bind_run
      by (erewrite bind_run by reflexivity; erewrite bind_run by reflexivity;
          reflexivity).
    erewrite bind_run by reflexivity. erewrite bind_run by reflexivity.
    erewrite bind_run by reflexivity. erewrite bind_run by reflexivity.
    erewrite bind_run by reflexivity.
    eexists. split; [reflexivity|]. unfold constructed, requests in *. simpl.
    rewrite Hmap, Hdb, Hid, Htr, Hmf2.
    split; [by repeat split; eauto|].
    repeat (split; [done|]). unfold load_trace. simpl.
    repeat (rewrite <- app_assoc; simpl). done.
  - erewrite bind_run by reflexivity.
    erewrite bind_run by reflexivity. erewrite bind_run by reflexivity.
    erewrite bind_run by reflexivity. erewrite bind_run by reflexivity.
    erewrite bind_run by reflexivity.
    eexists. split; [reflexivity|]. unfold constructed, requests in *. simpl.
    rewrite Hmap, Hdb, Hid, Htr, Hmf2, Hv2.
    split; [by repeat split; eauto|].
    repeat (split; [done|]). unfold load_trace. simpl.
    repeat (rewrite <- app_assoc; simpl). done.
Qed.

(** ** More about the trajectory exports *)

Lemma traverse_returns fuel : ∀ p Trw (w : World) T A w',
  traverse fuel p Trw w = Ret (T, A) w' →
  w' = w ∧
  ∃ ks, culled_chain (heap w) p ks A ∧ T = accumulate Trw ks ∧
        (List.length ks ≤ fuel)%nat.
Proof.
  induction fuel as [|fuel IH]; intros p Trw w T A w'; simpl;
    unfold mbind at 1, M_bind at 1, get at 1;
    unfold mbind at 1, M_bind at 1, deref at 1;
    destruct (heap w !! p) as [kf|] eqn:Hp; simpl; try done;
    destruct (isBad kf) eqn:Hb; try done.
  - intros [= <- <- <-]. split; [done|]. exists []. split; [by constructor|]. done.
  - unfold mbind at 1, M_bind at 1, deref at 1.
    destruct (GetParent kf) as [q|] eqn:Hq; simpl; [|done].
    intros (-> & ks & Hc & -> & Hlen)%IH. split; [done|].
    exists (kf :: ks). split; [by eapply chain_bad|]. split; [done|]. simpl. lia.
  - intros [= <- <- <-]. split; [done|]. exists []. split; [by constructor|].
    split; [done|]. simpl. lia.
Qed.

(** X15.  The pose of a logged frame is computed exactly when the walk
    from its reference keyframe reaches, within the steps allowed, a
    keyframe that is not bad; the pose is then the recovered one and
    nothing else has changed.  A bad keyframe without a parent makes the
    walk dereference a null pointer. *)
Theorem walk_ends_at_live_keyframe fuel Two rel p (w : World) :
  (∀ Tcw w',
     frame_Tcw fuel Two rel p w = Ret Tcw w' ↔
     w' = w ∧
     ∃ ks A, culled_chain (heap w) p ks A ∧ (List.length ks ≤ fuel)%nat ∧
             Tcw = recovered_Tcw Two rel ks A) ∧
  (∀ kf, heap w !! p = Some kf → isBad kf = true → GetParent kf = None →
         frame_Tcw (S fuel) Two rel p w = Fault).
Proof.
  split.
  - intros Tcw w'. split.
    + unfold frame_Tcw. intros ([T A] & w1 & Htr & Hret)%bind_ret_inv.
      apply traverse_returns in Htr as (-> & ks & Hc & -> & Hlen).
      injection Hret as <- <-. split; [done|]. by exists ks, A.
    + intros (-> & ks & A & Hc & Hlen & ->). by eapply frame_Tcw_chain.
  - intros kf Hp Hb Hq. unfold frame_Tcw. simpl.
    unfold mbind, M_bind, get, deref. rewrite Hp. simpl. by rewrite Hb, Hq.
Qed.

Lemma log_entries_length lit : ∀ lRit lT lbL,
  List.length lRit = List.length lit → List.length lT = List.length lit →
  List.length lbL = List.length lit →
  List.length (log_entries lit lRit lT lbL) = List.length lit ∧
  (List.length (filter not_lost (log_entries lit lRit lT lbL)) +
   List.length (filter (λ b : bool, b = true) lbL))%nat = List.length lit.
Proof.
  induction lit as [|rel lit IH]; intros lRit lT lbL H1 H2 H3.
  - destruct lbL; [done|]. simpl in H3. lia.
  - destruct lRit as [|pKF lRit], lT as [|t lT], lbL as [|lost lbL]; try done.
    simpl in *. destruct (IH lRit lT lbL) as [IH1 IH2]; [lia | lia | lia |].
    split; [lia|]. destruct lost.
    + rewrite filter_cons_False by done. rewrite filter_cons_True by done.
      simpl. lia.
    + rewrite filter_cons_True by done. rewrite filter_cons_False by done.
      simpl. lia.
Qed.

(** X16.  The number of lines of the two camera-trajectory files: the
    KITTI export writes one line for every logged frame, the TUM export
    one for every logged frame that is not flagged lost, so the two
    files differ by the number of lost frames. *)
Theorem export_line_counts filename t first (w : World) :
  export_ready w t first →
  ∃ fuel0, ∀ fuel, (fuel0 ≤ fuel)%nat →
    ∃ tum kitti,
      SaveTrajectoryTUM fuel filename w =
        Ret tt (advance (export_trace "camera" filename tum) 0 w) ∧
      SaveTrajectoryKITTI fuel filename w =
        Ret tt (advance (export_trace "camera" filename kitti) 0 w) ∧
      List.length kitti = List.length (mlRelativeFramePoses t) ∧
      (List.length tum + lost_count t)%nat = List.length kitti.
Proof.
  intros Hready.
  destruct (SaveTrajectoryTUM_run filename t first w Hready) as (f1 & Htum).
  destruct (SaveTrajectoryKITTI_run filename t first w Hready) as (f2 & Hkitti).
  destruct Hready as (_ & _ & (H1 & H2 & H3) & _).
  destruct (log_entries_length _ _ _ _ H1 H2 H3) as [Hlen Hlost].
  exists (f1 `max` f2)%nat. intros fuel Hf.
  destruct (Htum fuel) as (tum & Hrt & Ht); [lia|].
  destruct (Hkitti fuel) as (kitti & Hrk & Hk); [lia|].
  exists tum, kitti. split; [done|]. split; [done|].
  apply Forall2_length in Ht, Hk. unfold tracker_log, lost_count in *.
  split; lia.
Qed.


(** ** More about saving and resetting *)

(** X18.  [SaveManual] saves under the name given only when that name
    ends in ".bin", and then keeps it as the stored map file; any other
    name is ignored and the map goes to the stored file.  The stored
    name changes even when the save itself is refused. *)
Theorem SaveManual_target fuel strMapFile (w : World) :
  ∃ target,
    target = (if has_suffix strMapFile ".bin" then strMapFile else mapfile (this w)) ∧
    (¬ save_permitted (mTrackingState (this w)) →
     ∃ w', SaveManual fuel strMapFile w = Ret tt w' ∧
           mapfile (this w') = target ∧
           trace w' = trace w ++ [Cout "ORB-SLAM not initialised. Map not saved."]) ∧
    (∀ k, save_permitted (mTrackingState (this w)) →
          first_poll (λ i, lm_isStopped (oracle (env w) i)) (now w) fuel = Some k →
          ofstream_ok (env w) target = true →
          ∃ w', SaveManual fuel strMapFile w = Ret tt w' ∧
                mapfile (this w') = target ∧
                trace w' =
                  trace w ++ SaveMap_paused target k ++ SaveMap_written target (this w)).
Proof.
  eexists. split; [reflexivity|]. unfold SaveManual, when.
  destruct (has_suffix strMapFile ".bin"); split.
  - intros Hst. erewrite bind_run by reflexivity.
    unfold mbind at 1, M_bind at 1, get_this at 1. simpl (mapfile _).
    rewrite SaveMap_refused by done. eexists. split; [reflexivity|]. done.
  - intros k Hst Hk Hok. erewrite bind_run by reflexivity.
    unfold mbind at 1, M_bind at 1, get_this at 1. simpl (mapfile _).
    rewrite SaveMap_permitted by done. simpl (env _). simpl (now _).
    rewrite Hk, Hok. eexists. split; [reflexivity|]. done.
  - intros Hst. erewrite bind_run by reflexivity.
    unfold mbind at 1, M_bind at 1, get_this at 1. simpl (mapfile _).
    rewrite SaveMap_refused by done. eexists. split; [reflexivity|]. done.
  - intros k Hst Hk Hok. erewrite bind_run by reflexivity.
    unfold mbind at 1, M_bind at 1, get_this at 1. simpl (mapfile _).
    rewrite SaveMap_permitted by done. simpl (env _). simpl (now _).
    rewrite Hk, Hok. eexists. split; [reflexivity|]. done.
Qed.

Lemma Reset_run t (w : World) :
  mpTracker (this w) = Some t →
  Reset w =
  Ret tt (with_this (set_mpTracker (Some (set_frameId 0 t)) (set_mbReset true (this w))) w).
Proof.
  intros Ht. unfold Reset. erewrite bind_run by reflexivity.
  unfold mbind at 1, M_bind at 1, get_this at 1. simpl (this _). simpl (mpTracker _).
  rewrite Ht. erewrite bind_run by reflexivity. done.
Qed.

Ltac one_frame w r :=
  intros Hreq Ht Hs; unfold requests in Hreq; injection Hreq as Ha Hd Hr Hl;
  unfold CheckModeChange; explode w; subst; run_blocks;
  destruct r; simpl; do 3 eexists; (split; [reflexivity|]); simpl;
  rewrite <- ?app_assoc; done.

(** One frame with no request pending but, possibly, Reset. *)
Lemma TrackStereo_one_frame fuel r t imLeft imRight timestamp (w : World) :
  requests (this w) = (false, false, r, false) →
  mpTracker (this w) = Some t →
  mSensor (this w) = STEREO →
  ∃ Tcw w' t',
    TrackStereo fuel imLeft imRight timestamp w = Ret Tcw w' ∧
    trace w' =
      trace w ++ (if r then [T_Reset] else []) ++
        [T_GrabImageStereo imLeft imRight timestamp] ∧
    requests (this w') = (false, false, false, false) ∧
    mpTracker (this w') = Some t' ∧ mSensor (this w') = STEREO.
Proof. unfold TrackStereo. one_frame w r. Qed.

Lemma TrackRGBD_one_frame fuel r t im depthmap timestamp (w : World) :
  requests (this w) = (false, false, r, false) →
  mpTracker (this w) = Some t →
  mSensor (this w) = RGBD →
  ∃ Tcw w' t',
    TrackRGBD fuel im depthmap timestamp w = Ret Tcw w' ∧
    trace w' =
      trace w ++ (if r then [T_Reset] else []) ++
        [T_GrabImageRGBD im depthmap timestamp] ∧
    requests (this w') = (false, false, false, false) ∧
    mpTracker (this w') = Some t' ∧ mSensor (this w') = RGBD.
Proof. unfold TrackRGBD. one_frame w r. Qed.

Lemma TrackMonocular_one_frame fuel r t im timestamp (w : World) :
  requests (this w) = (false, false, r, false) →
  mpTracker (this w) = Some t →
  mSensor (this w) = MONOCULAR →
  ∃ Tcw w' t',
    TrackMonocular fuel im timestamp w = Ret Tcw w' ∧
    trace w' =
      trace w ++ (if r then [T_Reset] else []) ++
        [T_GrabImageMonocular im timestamp] ∧
    requests (this w') = (false, false, false, false) ∧
    mpTracker (this w') = Some t' ∧ mSensor (this w') = MONOCULAR.
Proof. unfold TrackMonocular. one_frame w r. Qed.

(** X19.  Reset requests coalesce: after any number of [Reset] calls
    (two here) the next frame makes the tracking engine reset once,
    just before the frame is handed over, and the frame after that
    finds no request. *)
Theorem Reset_requests_coalesce fuel t (w : World) :
  requests (this w) = (false, false, false, false) →
  mpTracker (this w) = Some t →
  (mSensor (this w) = STEREO → ∀ imLeft imRight timestamp imLeft' imRight' timestamp',
     ∃ Tcw w',
       (Reset;; Reset;; TrackStereo fuel imLeft imRight timestamp;;
        TrackStereo fuel imLeft' imRight' timestamp') w = Ret Tcw w' ∧
       trace w' =
         trace w ++ [T_Reset; T_GrabImageStereo imLeft imRight timestamp;
                     T_GrabImageStereo imLeft' imRight' timestamp']) ∧
  (mSensor (this w) = RGBD → ∀ im depthmap timestamp im' depthmap' timestamp',
     ∃ Tcw w',
       (Reset;; Reset;; TrackRGBD fuel im depthmap timestamp;;
        TrackRGBD fuel im' depthmap' timestamp') w = Ret Tcw w' ∧
       trace w' =
         trace w ++ [T_Reset; T_GrabImageRGBD im depthmap timestamp;
                     T_GrabImageRGBD im' depthmap' timestamp']) ∧
  (mSensor (this w) = MONOCULAR → ∀ im timestamp im' timestamp',
     ∃ Tcw w',
       (Reset;; Reset;; TrackMonocular fuel im timestamp;;
        TrackMonocular fuel im' timestamp') w = Ret Tcw w' ∧
       trace w' =
         trace w ++ [T_Reset; T_GrabImageMonocular im timestamp;
                     T_GrabImageMonocular im' timestamp']).
Proof.
  intros Hreq Ht. unfold requests in Hreq. injection Hreq as Ha Hd Hr Hl.
  assert (∀ w2 : World,
            w2 = with_this
                   (set_mpTracker (Some (set_frameId 0 (set_frameId 0 t)))
                      (set_mbReset true
                         (set_mpTracker (Some (set_frameId 0 t))
                            (set_mbReset true (this w)))))
                   (with_this
                      (set_mpTracker (Some (set_frameId 0 t)) (set_mbReset true (this w)))
                      w) →
            requests (this w2) = (false, false, true, false) ∧
            mpTracker (this w2) = Some (set_frameId 0 (set_frameId 0 t)) ∧
            mSensor (this w2) = mSensor (this w) ∧ trace w2 = trace w) as Hw2.
  { intros w2 ->. unfold requests. simpl. by rewrite Ha, Hd, Hl. }
  split; [|split]; intros Hs; intros.
  - erewrite bind_run by (by apply Reset_run).
    erewrite bind_run by (by apply Reset_run).
    edestruct Hw2 as (Hreq2 & Ht2 & Hs2 & Htr2); [reflexivity|].
    destruct (TrackStereo_one_frame fuel true _ imLeft imRight timestamp _ Hreq2 Ht2)
      as (? & w3 & t3 & Hrun3 & Htr3 & Hreq3 & Ht3 & Hs3); [by rewrite Hs2|].
    erewrite bind_run by exact Hrun3.
    destruct (TrackStereo_one_frame fuel false t3 imLeft' imRight' timestamp' w3 Hreq3 Ht3 Hs3)
      as (Tcw & w4 & t4 & Hrun4 & Htr4 & _).
    exists Tcw, w4. split; [exact Hrun4|]. rewrite Htr4, Htr3, Htr2. simpl.
    by rewrite <- app_assoc.
  - erewrite bind_run by (by apply Reset_run).
    erewrite bind_run by (by apply Reset_run).
    edestruct Hw2 as (Hreq2 & Ht2 & Hs2 & Htr2); [reflexivity|].
    destruct (TrackRGBD_one_frame fuel true _ im depthmap timestamp _ Hreq2 Ht2)
      as (? & w3 & t3 & Hrun3 & Htr3 & Hreq3 & Ht3 & Hs3); [by rewrite Hs2|].
    erewrite bind_run by exact Hrun3.
    destruct (TrackRGBD_one_frame fuel false t3 im' depthmap' timestamp' w3 Hreq3 Ht3 Hs3)
      as (Tcw & w4 & t4 & Hrun4 & Htr4 & _).
    exists Tcw, w4. split; [exact Hrun4|]. rewrite Htr4, Htr3, Htr2. simpl.
    by rewrite <- app_assoc.
  - erewrite bind_run by (by apply Reset_run).
    erewrite bind_run by (by apply Reset_run).
    edestruct Hw2 as (Hreq2 & Ht2 & Hs2 & Htr2); [reflexivity|].
    destruct (TrackMonocular_one_frame fuel true _ im timestamp _ Hreq2 Ht2)
      as (? & w3 & t3 & Hrun3 & Htr3 & Hreq3 & Ht3 & Hs3); [by rewrite Hs2|].
    erewrite bind_run by exact Hrun3.
    destruct (TrackMonocular_one_frame fuel false t3 im' timestamp' w3 Hreq3 Ht3 Hs3)
      as (Tcw & w4 & t4 & Hrun4 & Htr4 & _).
    exists Tcw, w4. split; [exact Hrun4|]. rewrite Htr4, Htr3, Htr2. simpl.
    by rewrite <- app_assoc.
Qed.

Lemma LoadMap_true_iff filename (w : World) b w' :
  LoadMap filename w = Ret b w' → b = true ↔ is_Some (ifstream (env w) filename).
Proof.
  unfold LoadMap. unfold mbind at 1, M_bind at 1, get at 1.
  erewrite bind_run by reflexivity.
  destruct (ifstream (env w) filename) as [ar|].
  - intros (? & w1 & _ & [= <- _])%bind_ret_inv. split; eauto.
  - erewrite bind_run by reflexivity. intros [= <- _].
    split; [done|]. by intros [? ?].
Qed.

(** X20.  Whenever the constructor returns, the settings file opened
    and the vocabulary loaded, and the object is complete: sensor and
    viewer as asked, no request pending, and the Map, the index and the
    tracking engine all in place.  The reuse flag given to the tracking
    engine is [true] exactly when the map file name ends in ".bin" and
    the file could be opened; the stored name is the one given if it
    ends in ".bin" and empty otherwise. *)
Theorem System_ctor_postcondition strVocFile strSettingsFile sensor bUseViewer strMapFile
    (w w' : World) :
  System_ctor strVocFile strSettingsFile sensor bUseViewer strMapFile w = Ret tt w' →
  settings_isOpened (env w) strSettingsFile = true ∧
  load_vocabulary (env w) strVocFile = true ∧
  env w' = env w ∧
  mapfile (this w') = (if has_suffix strMapFile ".bin" then strMapFile else "") ∧
  ∃ bReuseMap,
    constructed (env w) strVocFile sensor bUseViewer bReuseMap (this w') ∧
    (bReuseMap = true ↔
     has_suffix strMapFile ".bin" = true ∧ is_Some (ifstream (env w) strMapFile)).
Proof.
  unfold System_ctor, when.
  erewrite bind_run by reflexivity.
  unfold mbind at 1, M_bind at 1, get at 1. simpl (env _).
  destruct (settings_isOpened (env w) strSettingsFile) eqn:Hset; cbn [negb];
    [|by erewrite bind_run by reflexivity].
  erewrite bind_run by reflexivity. cbv zeta.
  destruct (load_vocabulary (env w) strVocFile) eqn:Hvoc; cbn [negb];
    [|by do 2 erewrite bind_run by reflexivity].
  destruct (has_suffix strMapFile ".bin") eqn:Hsuf.
  - erewrite bind_run by reflexivity.
    unfold mbind at 1, M_bind at 1, get_this at 1. simpl (mapfile _).
    rewrite (bool_decide_eq_false_2 (strMapFile = ""))
      by (by apply (has_suffix_nonempty _ ".bin")).
    cbn [negb].
    intros (b & w2 & Hload & Hrest)%bind_ret_inv.
    pose proof (LoadMap_keeps _ _ _ _ Hload)
      as (Hs2 & Hv2 & Hreq2 & Hvoc2 & Hmf2 & _ & Henv2 & Hsome & Hsame).
    pose proof (LoadMap_true_iff _ _ _ _ Hload) as Hiff.
    simpl in Hs2, Hv2, Hreq2, Hvoc2, Hmf2, Henv2, Hiff.
    revert Hrest. destruct b; cbn [negb].
    + destruct (Hsome eq_refl) as [Hmap Hdb].
      erewrite bind_run by reflexivity.
      erewrite bind_run by reflexivity. erewrite bind_run by reflexivity.
      erewrite bind_run by reflexivity. erewrite bind_run by reflexivity.
      erewrite bind_run by reflexivity. erewrite bind_run by reflexivity.
      destruct bUseViewer.
      * erewrite bind_run
          by (erewrite bind_run by reflexivity; erewrite bind_run by reflexivity;
              reflexivity).
        erewrite bind_run by reflexivity. erewrite bind_run by reflexivity.
        erewrite bind_run by reflexivity. erewrite bind_run by reflexivity.
        erewrite bind_run by reflexivity.
        intros [= <-]. simpl. rewrite Henv2, Hmf2.
        repeat (split; [done|]). exists true. unfold constructed, requests in *.
        simpl. rewrite Hs2, Hvoc2. split; [by repeat split; eauto|]. tauto.
      * erewrite bind_run by reflexivity.
        erewrite bind_run by reflexivity. erewrite bind_run by reflexivity.
        erewrite bind_run by reflexivity. erewrite bind_run by reflexivity.
        erewrite bind_run by reflexivity.
        intros [= <-]. simpl. rewrite Henv2, Hmf2.
        repeat (split; [done|]). exists true. unfold constructed, requests in *.
        simpl. rewrite Hs2, Hvoc2, Hv2. split; [by repeat split; eauto|]. tauto.
    + clear Hsome.
      erewrite bind_run by (erewrite bind_run by reflexivity; reflexivity).
      erewrite bind_run by reflexivity. erewrite bind_run by reflexivity.
      erewrite bind_run by reflexivity. erewrite bind_run by reflexivity.
      erewrite bind_run by reflexivity. erewrite bind_run by reflexivity.
      destruct bUseViewer.
      * erewrite bind_run
          by (erewrite bind_run by reflexivity; erewrite bind_run by reflexivity;
              reflexivity).
        erewrite bind_run by reflexivity. erewrite bind_run by reflexivity.
        erewrite bind_run by reflexivity. erewrite bind_run by reflexivity.
        erewrite bind_run by reflexivity.
        intros [= <-]. simpl. rewrite Henv2, Hmf2.
        repeat (split; [done|]). exists false. unfold constructed, requests in *.
        simpl. rewrite Hs2, Hvoc2. split; [by repeat split; eauto|].
        split; [done|]. intros [_ Hopen]. by apply Hiff.
      * erewrite bind_run by reflexivity.
        erewrite bind_run by reflexivity. erewrite bind_run by reflexivity.
        erewrite bind_run by reflexivity. erewrite bind_run by reflexivity.
        erewrite bind_run by reflexivity.
        intros [= <-]. simpl. rewrite Henv2, Hmf2.
        repeat (split; [done|]). exists false. unfold constructed, requests in *.
        simpl. rewrite Hs2, Hvoc2, Hv2. split; [by repeat split; eauto|].
        split; [done|]. intros [_ Hopen]. by apply Hiff.
  - erewrite bind_run by reflexivity.
    unfold mbind at 1, M_bind at 1, get_this at 1. simpl (mapfile _).
    rewrite (bool_decide_eq_true_2 ("" = "")) by done. cbn [negb].
    erewrite bind_run by reflexivity. cbn [negb].
    erewrite bind_run by (erewrite bind_run by reflexivity; reflexivity).
    erewrite bind_run by reflexivity. erewrite bind_run by reflexivity.
    erewrite bind_run by reflexivity. erewrite bind_run by reflexivity.
    erewrite bind_run by reflexivity. erewrite bind_run by reflexivity.
    destruct bUseViewer.
    + erewrite bind_run
        by (erewrite bind_run by reflexivity; erewrite bind_run by reflexivity;
            reflexivity).
      erewrite bind_run by reflexivity. erewrite bind_run by reflexivity.
      erewrite bind_run by reflexivity. erewrite bind_run by reflexivity.
      erewrite bind_run by reflexivity.
      intros [= <-]. simpl. repeat (split; [done|]). exists false.
      unfold constructed, requests. simpl. split; [by repeat split; eauto|].
      split; [done|]. by intros [? _].
    + erewrite bind_run by reflexivity.
      erewrite bind_run by reflexivity. erewrite bind_run by reflexivity.
      erewrite bind_run by reflexivity. erewrite bind_run by reflexivity.
      erewrite bind_run by reflexivity.
      intros [= <-]. simpl. repeat (split; [done|]). exists false.
      unfold constructed, requests. simpl. split; [by repeat split; eauto|].
      split; [done|]. by intros [? _].
Qed.

End Proofs.

(** * The statements at concrete inputs *)
Section Concrete.
Import Fixture.
#[local] Existing Instance ZExt.

(** [has_suffix] on a few names, the last two shorter than the suffix
    (the subtraction wraps around and [find] answers [npos]). *)
Example has_suffix_examples :
  (has_suffix "map.bin" ".bin", has_suffix "a.bin.txt" ".bin",
   has_suffix ".bin" ".bin", has_suffix "bin" ".bin", has_suffix "" ".bin")
  = (true, false, true, false, false).
Proof. vm_compute. reflexivity. Qed.


Lemma chain_ready sensor viewer n :
  sensor ≠ MONOCULAR →
  export_ready
    (test_world (test_system sensor viewer OK false false false false) n)
    chain_tracker kf_root.
Proof.
  intros Hs. split; [done|]. split; [done|]. split; [done|]. split.
  - exists chain_map, [kf_K2; kf_K1; kf_root]. split; [done|]. split; [done|].
    vm_compute. reflexivity.
  - repeat constructor.
    + exists [], kf_K2. by apply chain_live.
    + exists [kf_K1], kf_root.
      eapply chain_bad; [done | done | done |]. by apply chain_live.
    + exists [kf_K1], kf_root.
      eapply chain_bad; [done | done | done |]. by apply chain_live.
Qed.

(** The log of the fixture holds three frames, one of them lost; the
    quaternion-format export writes the two lines below.  The second
    frame refers to the culled K1: its pose is
    [relativePose x ((Tcp(K1) x pose(root)) x Two)], and the centre and
    the orientation written for it make up the inverse of that pose. *)
Lemma C1_witness :
  let w := test_world (test_system STEREO false OK false false false false) 0 in
  let Two := GetPoseInverse kf_root in
  let Tcw := mul (turn_z 1 0 0) (mul (mul (mTcp kf_K1) (GetPose kf_root)) Two) in
  export_ready w chain_tracker kf_root ∧
  (∃ fuel,
     SaveTrajectoryTUM fuel "CameraTrajectory.txt" w =
       Ret tt (advance
                 (export_trace "camera" "CameraTrajectory.txt"
                    [F_TUM 105 [[1]; [1]; [-6]] [1; 0; 0; 0; 1; 0; 0; 0; 1];
                     F_TUM 106 [[-5]; [5]; [-7]] [-1; 0; 0; 0; -1; 0; 0; 0; 1]])
                 0 w)) ∧
  frame_Tcw 1 Two (turn_z 1 0 0) 11 w = Ret Tcw w ∧
  (inverse_centre Tcw, inverse_orientation Tcw) =
    ([[-5]; [5]; [-7]], [[-1; 0; 0]; [0; -1; 0]; [0; 0; 1]]) ∧
  mul Tcw (rigid (inverse_orientation Tcw) (inverse_centre Tcw)) = eye4.
Proof.
  intros w Two Tcw. assert (export_ready w chain_tracker kf_root) as Hready.
  { by apply chain_ready. }
  split; [exact Hready|].
  destruct (C1_culled_reference_pose "CameraTrajectory.txt" chain_tracker kf_root w Hready)
    as ((fuel0 & Hrun) & _ & Hchain & _).
  destruct (Hchain 10%nat 11%nat kf_root kf_K1 (turn_z 1 0 0) 0%nat Two
              eq_refl eq_refl eq_refl eq_refl eq_refl eq_refl) as (Hc1 & _ & Hpose).
  split; [|split; [exact Hpose|split; vm_compute; reflexivity]].
  destruct (Hrun fuel0 (le_n _)) as ((lines & Htum & Hlines) & _).
  exists fuel0. rewrite Htum. do 3 f_equal.
  assert (filter not_lost (tracker_log chain_tracker) =
          [{| le_rel := shift 0 1 0; le_ref := 12; le_time := 105; le_lost := false |};
           {| le_rel := turn_z 1 0 0; le_ref := 11; le_time := 106; le_lost := false |}])
    as Hlog by (vm_compute; reflexivity).
  rewrite Hlog in Hlines.
  apply Forall2_cons_inv_l in Hlines as (l1 & ls1 & (ks1 & A1 & Hk1 & ->) & Hlines & ->).
  apply Forall2_cons_inv_l in Hlines as (l2 & ls2 & (ks2 & A2 & Hk2 & ->) & Hlines & ->).
  apply Forall2_nil_inv_l in Hlines as ->.
  assert (culled_chain (heap w) 12 [] kf_K2) as Hc2 by (by apply chain_live).
  destruct (culled_chain_functional _ _ _ _ _ _ Hk1 Hc2) as [-> ->].
  destruct (culled_chain_functional _ _ _ _ _ _ Hk2 Hc1) as [-> ->].
  vm_compute. reflexivity.
Defined.

(** The claim as it is worded puts the transform of each bad keyframe to
    the left of the accumulator.  On the chain root -> K1 -> K2 with K1
    and K2 both culled, the pose recovered for the frame that refers to
    K2 is [relativePose x (((eye x Tcp(K2)) x Tcp(K1)) x pose(root)) x Two],
    not the left-multiplied
    [relativePose x ((Tcp(K1) x (Tcp(K2) x eye)) x pose(root)) x Two],
    and the line written for it holds the camera centre (-8, 6, -8), not
    the (-8, 4, -8) of the left-multiplied pose. *)
Lemma C1_counterexample :
  let w := with_heap deep_heap
             (test_world (test_system STEREO false OK false false false false) 0) in
  let Two := GetPoseInverse kf_root in
  let rel := shift 0 1 0 in
  let worded := left_multiplied_Tcw Two rel [kf_K2_culled; kf_K1] kf_root in
  culled_chain (heap w) 12 [kf_K2_culled; kf_K1] kf_root ∧
  frame_Tcw 2 Two rel 12 w =
    Ret (mul rel (mul (mul (mul (mul eye4 (mTcp kf_K2_culled)) (mTcp kf_K1))
                         (GetPose kf_root)) Two)) w ∧
  worded = mul rel (mul (mul (mul (mTcp kf_K1) (mul (mTcp kf_K2_culled) eye4))
                           (GetPose kf_root)) Two) ∧
  frame_Tcw 2 Two rel 12 w ≠ Ret worded w ∧
  head (filter (λ e, is_line e = true)
          (outcome_trace (SaveTrajectoryTUM 2 "CameraTrajectory.txt" w))) =
    Some (F_TUM 105 [[-8]; [6]; [-8]] [0; 1; 0; -1; 0; 0; 0; 0; 1]) ∧
  F_TUM 105 (inverse_centre worded) (toQuaternion (inverse_orientation worded)) =
    F_TUM 105 [[-8]; [4]; [-8]] [0; 1; 0; -1; 0; 0; 0; 0; 1].
Proof.
  intros w Two rel worded. split.
  { eapply chain_bad; [reflexivity | reflexivity | reflexivity |].
    eapply chain_bad; [reflexivity | reflexivity | reflexivity |].
    apply chain_live; reflexivity. }
  split; [reflexivity|]. split; [reflexivity|]. split.
  { intros Heq. apply (f_equal (λ o, match o with Ret a _ => Some a | _ => None end))
      in Heq. vm_compute in Heq. discriminate Heq. }
  split; vm_compute; reflexivity.
Qed.

(** The order of the factors on a walk past two culled keyframes: the
    transform of the keyframe met first stands to the left of the one met
    next, and the other order is a different matrix. *)
Example walk_order :
  let w := with_heap deep_heap
             (test_world (test_system STEREO false OK false false false false) 0) in
  traverse 2 12 eye4 w =
    Ret (mul (mul eye4 (mTcp kf_K2_culled)) (mTcp kf_K1), kf_root) w ∧
  mul (mTcp kf_K2_culled) (mTcp kf_K1) ≠ mul (mTcp kf_K1) (mTcp kf_K2_culled).
Proof. split; [reflexivity|]. vm_compute. discriminate. Qed.

(** C2.  On the fixture's log of three frames, one flagged lost,
    [SaveTrajectoryTUM] writes two lines and [SaveTrajectoryKITTI]
    three: the matrix-format export writes a line for the lost frame
    too. *)
Theorem C2_kitti_writes_lost_frames :
  let w := test_world (test_system STEREO false OK false false false false) 0 in
  mlbLost chain_tracker = [false; false; true] ∧
  List.length (filter (λ e, is_line e = true)
            (outcome_trace (SaveTrajectoryTUM 1 "CameraTrajectory.txt" w))) = 2%nat ∧
  List.length (filter (λ e, is_line e = true)
            (outcome_trace (SaveTrajectoryKITTI 1 "CameraTrajectory.txt" w))) = 3%nat.
Proof. vm_compute. repeat split; reflexivity. Qed.

(** C3.  With the four requests pending and local mapping stopping at
    the second poll, [TrackStereo] and [TrackRGBD] return with the
    ResetAndLoad flag still set and without a call of
    [ResetAfterLoaded]; [TrackMonocular] clears it after calling it. *)
Theorem C3_stereo_rgbd_skip_ResetAndLoad :
  let pending sensor := test_world (test_system sensor false OK true true true true) 1 in
  (mbResetAndLoad ∘ this <$> outcome_world (TrackStereo 2 "left" "right" 7 (pending STEREO))
     = Some true ∧
   outcome_trace (TrackStereo 2 "left" "right" 7 (pending STEREO)) =
     [LM_RequestStop; LM_isStopped false; Sleep 1000; LM_isStopped true;
      T_InformOnlyTracking true; T_InformOnlyTracking false; LM_Release;
      T_Reset; T_GrabImageStereo "left" "right" 7]) ∧
  (mbResetAndLoad ∘ this <$> outcome_world (TrackRGBD 2 "rgb" "depth" 7 (pending RGBD))
     = Some true ∧
   outcome_trace (TrackRGBD 2 "rgb" "depth" 7 (pending RGBD)) =
     [LM_RequestStop; LM_isStopped false; Sleep 1000; LM_isStopped true;
      T_InformOnlyTracking true; T_InformOnlyTracking false; LM_Release;
      T_Reset; T_GrabImageRGBD "rgb" "depth" 7]) ∧
  (mbResetAndLoad ∘ this <$> outcome_world (TrackMonocular 2 "image" 7 (pending MONOCULAR))
     = Some false ∧
   outcome_trace (TrackMonocular 2 "image" 7 (pending MONOCULAR)) =
     [Cout "Localization mode started"; LM_RequestStop; LM_isStopped false;
      Sleep 1000; LM_isStopped true;
      T_InformOnlyTracking true; T_InformOnlyTracking false; LM_Release;
      T_Reset; T_ResetAfterLoaded; T_GrabImageMonocular "image" 7]).
Proof. vm_compute. repeat split; reflexivity. Qed.

(** C4.  The file ["map.bin"] holds keyframes with the frame ids 0, 3
    and 5.  After [LoadMap], and after [LoadMapDuring], the counter
    [Frame::nNextId] is 5, the greatest loaded frame id, not 6. *)
Theorem C4_nNextId_is_max_loaded_id :
  let w := test_world blank_system 0 in
  max_frame_id [kf_K2; kf_K1; kf_root] = 5 ∧
  Frame_nNextId <$> outcome_world (LoadMap "map.bin" w) = Some 5 ∧
  Frame_nNextId <$> outcome_world (LoadMapDuring 1 "map.bin" w) = Some 5.
Proof. vm_compute. repeat split; reflexivity. Qed.

(** In the tracking state Ok, a save to a path that cannot be opened
    writes neither the Map nor the index and exits the process. *)
Lemma C5_counterexample :
  let w := test_world (test_system STEREO false OK false false false false) 0 in
  save_permitted (mTrackingState (this w)) ∧
  (∃ w', SaveMap 1 "/ro/map.bin" w = Exit (-1) w') ∧
  filter (λ e, is_OA e = true) (outcome_trace (SaveMap 1 "/ro/map.bin" w)) = [].
Proof.
  split; [by left|]. split.
  - eexists. vm_compute. reflexivity.
  - vm_compute. reflexivity.
Qed.

Lemma C5_witness :
  let w := test_world (test_system STEREO false LOST false false false false) 1 in
  save_permitted (mTrackingState (this w)) ∧
  SaveMap 2 "map.bin" w =
    Ret tt (advance (SaveMap_paused "map.bin" 1 ++ SaveMap_written "map.bin" (this w))
              2 w).
Proof.
  intros w. assert (save_permitted (mTrackingState (this w))) as Hst by (by right).
  split; [exact Hst|].
  exact (proj2 (C5_save_map 2 "map.bin" w) Hst).
Defined.


Lemma C7_witness :
  let w := test_world (test_system RGBD false OK true true false false) 2 in
  mbActivateLocalizationMode (this w) = true ∧
  mbDeactivateLocalizationMode (this w) = true ∧
  ∃ Tcw w', TrackRGBD 3 "rgb" "depth" 7 w = Ret Tcw w' ∧ net_deactivated w w'.
Proof.
  intros w. split; [reflexivity|]. split; [reflexivity|].
  destruct (C7_deactivate_wins w eq_refl eq_refl) as (_ & Hrgbd & _ & Hlive).
  destruct (Hlive 2%nat chain_tracker eq_refl eq_refl) as (_ & Hret & _).
  destruct (Hret eq_refl "rgb" "depth" 7) as (Tcw & w' & Hrun).
  exists Tcw, w'. split; [exact Hrun|]. exact (Hrgbd _ _ _ _ _ _ Hrun).
Defined.

Lemma C8_witness :
  let w := test_world (test_system MONOCULAR false OK false false false false) 0 in
  mSensor (this w) = MONOCULAR ∧
  SaveTrajectoryTUM 1 "CameraTrajectory.txt" w =
    Ret tt (advance (refused_trace "SaveTrajectoryTUM" "CameraTrajectory.txt") 0 w) ∧
  mnId <$> sort_lId [kf_K2; kf_K1; kf_root] = [0; 1; 2] ∧
  SaveKeyFrameTrajectoryTUM "KeyFrameTrajectory.txt" w =
    Ret tt (advance
              [Cout "Saving keyframe trajectory to KeyFrameTrajectory.txt ...";
               F_open "KeyFrameTrajectory.txt";
               F_KFTUM 100 [[-1]; [-2]; [-3]] [1; 0; 0; 0; 1; 0; 0; 0; 1];
               F_KFTUM 105 [[0]; [0]; [-9]] [1; 0; 0; 0; 1; 0; 0; 0; 1];
               F_close; Cout "trajectory saved!"] 0 w).
Proof.
  intros w. split; [reflexivity|].
  destruct (C8_monocular_exports 1 "CameraTrajectory.txt" w eq_refl)
    as (Htum & _ & _).
  destruct (C8_monocular_exports 1 "KeyFrameTrajectory.txt" w eq_refl)
    as (_ & _ & Hkf).
  split; [exact Htum|]. split; [vm_compute; reflexivity|].
  destruct (Hkf chain_map [kf_K2; kf_K1; kf_root] eq_refl eq_refl)
    as (_ & _ & Hrun).
  refine (eq_trans Hrun _). vm_compute. reflexivity.
Defined.

Lemma C9_witness :
  let w := test_world blank_system 0 in
  ifstream (env w) "nomap.bin" = None ∧
  ∃ w',
    System_ctor "ORBvoc.txt" "settings.yaml" STEREO true "nomap.bin" w = Ret tt w' ∧
    mpMap (this w') = Some Map_new ∧
    In (New_Tracking false) (trace w').
Proof.
  intros w. split; [reflexivity|].
  destruct (C9_missing_map_file w) as (_ & Hctor).
  destruct (Hctor "ORBvoc.txt" "settings.yaml" STEREO true "nomap.bin"
              eq_refl eq_refl eq_refl eq_refl)
    as (w' & Hrun & Hmap & _ & _ & _ & Htr).
  exists w'. split; [exact Hrun|]. split; [exact Hmap|].
  rewrite Htr. vm_compute. auto 10.
Defined.

Lemma C10_witness :
  let w := test_world (test_system STEREO false OK false false false false) 0 in
  let other := test_system MONOCULAR true LOST false false false false in
  mpMap (this w) = Some chain_map ∧
  MapChanged w = Ret true (with_n 4 w) ∧
  MapChanged (with_this other (with_n 4 w)) = Ret false (with_this other (with_n 4 w)).
Proof.
  intros w other. split; [reflexivity|].
  destruct (C10_MapChanged_shared w chain_map eq_refl) as (_ & _ & Hshared).
  exact (Hshared other chain_map eq_refl eq_refl (Z.le_refl _)).
Defined.

(** ** The further properties at concrete inputs *)

Lemma has_suffix_spec_witness :
  has_suffix "map.bin" ".bin" = true ∧ ∃ pre, "map.bin" = pre +:+ ".bin".
Proof.
  assert (has_suffix "map.bin" ".bin" = true) as Hs by (vm_compute; reflexivity).
  split; [exact Hs|].
  exact (proj1 (has_suffix_spec "map.bin" ".bin" eq_refl eq_refl) Hs).
Defined.

Lemma Track_wrong_sensor_witness :
  let w := test_world (test_system MONOCULAR false OK true true true true) 0 in
  TrackStereo 1 "left" "right" 7 w =
    Exit (-1)
      (advance
         [Cerr "ERROR: you called TrackStereo but input sensor was not set to STEREO."]
         0 w).
Proof.
  intros w.
  exact (proj1 (Track_wrong_sensor 1 "left" "right" 7 w) ltac:(discriminate)).
Defined.

Lemma Track_snapshot_witness :
  let w := test_world (test_system STEREO false NOT_INITIALIZED false false false false) 0 in
  ∃ Tcw w',
    TrackStereo 1 "left" "right" 7 w = Ret Tcw w' ∧ snapshot_taken (this w').
Proof.
  intros w.
  assert (∃ Tcw w', TrackStereo 1 "left" "right" 7 w = Ret Tcw w') as (Tcw & w' & Hrun)
    by (do 2 eexists; vm_compute; reflexivity).
  destruct (proj1 (Track_snapshot w) _ _ _ _ _ _ Hrun) as (t0 & _ & _ & Hsnap & _).
  exists Tcw, w'. split; [exact Hrun | exact Hsnap].
Defined.

Lemma Track_consumes_requests_witness :
  let w := test_world (test_system RGBD false OK true true true true) 0 in
  ∃ Tcw w',
    TrackRGBD 1 "rgb" "depth" 7 w = Ret Tcw w' ∧
    requests (this w') = (false, false, false, true).
Proof.
  intros w.
  assert (∃ Tcw w', TrackRGBD 1 "rgb" "depth" 7 w = Ret Tcw w') as (Tcw & w' & Hrun)
    by (do 2 eexists; vm_compute; reflexivity).
  exists Tcw, w'. split; [exact Hrun|].
  exact (proj1 (proj2 (Track_consumes_requests w)) _ _ _ _ _ _ Hrun).
Defined.

Lemma Track_without_Activate_polls_nothing_witness :
  let w := test_world (test_system STEREO false OK false true true true) 5 in
  mbActivateLocalizationMode (this w) = false ∧
  ∃ Tcw w',
    TrackStereo 0 "left" "right" 7 w = Ret Tcw w' ∧ now w' = now w ∧
    trace w' =
      [T_InformOnlyTracking false; LM_Release; T_Reset;
       T_GrabImageStereo "left" "right" 7].
Proof.
  intros w. split; [reflexivity|].
  exact (proj1 (Track_without_Activate_polls_nothing 0 chain_tracker w eq_refl eq_refl)
           eq_refl "left" "right" 7).
Defined.

Lemma Track_activates_before_frame_witness :
  let w := test_world (test_system MONOCULAR false OK true false true false) 2 in
  first_poll (λ i, lm_isStopped (oracle (env w) i)) (now w) 3 = Some 2%nat ∧
  ∃ Tcw w',
    TrackMonocular 3 "image" 7 w = Ret Tcw w' ∧
    trace w' = activate_trace true 2 true false (T_GrabImageMonocular "image" 7) ∧
    localization_only w w'.
Proof.
  intros w. split; [reflexivity|].
  exact (proj2 (proj2 (Track_activates_before_frame 3 2 chain_tracker w
                         eq_refl eq_refl eq_refl eq_refl))
           eq_refl "image" 7).
Defined.


Lemma LoadMapDuring_missing_file_keeps_pause_witness :
  let w := test_world (test_system STEREO true OK false false false false) 1 in
  paused 2 w 1 0 ∧
  ifstream (env w) "nomap.bin" = None ∧
  LoadMapDuring 2 "nomap.bin" w =
    Ret tt (advance
              (pause_trace true 1 0 ++ [IA_open "nomap.bin"; cannot_open (this w)])
              (pause_polls true 1 0) w).
Proof.
  intros w.
  assert (paused 2 w 1 0) as Hp by (split; [reflexivity | intros _; reflexivity]).
  split; [exact Hp|]. split; [reflexivity|].
  exact (proj1 (LoadMapDuring_missing_file_keeps_pause 2 "nomap.bin" 1 0 w Hp eq_refl)).
Defined.


Lemma LoadMap_success_witness :
  let w := test_world blank_system 0 in
  ifstream (env w) "map.bin" = Some loaded_archive ∧
  ∃ w',
    LoadMap "map.bin" w = Ret true w' ∧
    loaded loaded_archive [kf_K2; kf_K1; kf_root] w w' ∧
    ∃ k, k ∈ [kf_K2; kf_K1; kf_root] ∧ mnFrameId k = Frame_nNextId w'.
Proof.
  intros w. split; [reflexivity|].
  destruct (LoadMap_success "map.bin" loaded_archive [kf_K2; kf_K1; kf_root] w
              eq_refl ltac:(vm_compute; reflexivity))
    as (w' & Hrun & Hloaded & _ & _ & Hmax).
  exists w'. split; [exact Hrun|]. split; [exact Hloaded|].
  apply Hmax; [discriminate|]. repeat constructor; vm_compute; discriminate.
Defined.

Lemma ResetAndLoad_without_file_witness :
  let w := test_world (test_system MONOCULAR false OK false false false false) 0 in
  has_suffix "map.txt" ".bin" = false ∧
  ∃ Tcw w',
    (ResetAndLoad 1 "map.txt" ≫= λ _, TrackMonocular 1 "image" 7) w = Ret Tcw w' ∧
    trace w' =
      [Cout "No map to load, incorrect file name"; T_ResetAfterLoaded;
       T_GrabImageMonocular "image" 7].
Proof.
  intros w.
  assert (has_suffix "map.txt" ".bin" = false) as Hs by (vm_compute; reflexivity).
  split; [exact Hs|].
  exact (proj2 (ResetAndLoad_without_file 1 "map.txt" w eq_refl Hs)
           chain_tracker "image" 7 eq_refl eq_refl eq_refl).
Defined.

Lemma System_ctor_fatal_witness :
  let w := test_world blank_system 0 in
  (∃ w', System_ctor "ORBvoc.txt" "nosettings.yaml" STEREO true "map.bin" w
           = Exit (-1) w' ∧
         trace w' = [Cerr "Failed to open settings file at: nosettings.yaml"]) ∧
  (∃ w', System_ctor "ORBvoc.yml" "settings.yaml" STEREO true "map.bin" w
           = Exit (-1) w' ∧
         trace w' = [Cerr "Wrong path to vocabulary. ";
                     Cerr "Falied to open at: ORBvoc.yml"]).
Proof.
  intros w.
  destruct (System_ctor_fatal "ORBvoc.txt" "nosettings.yaml" STEREO true "map.bin" w)
    as (Hset & _ & _).
  destruct (System_ctor_fatal "ORBvoc.yml" "settings.yaml" STEREO true "map.bin" w)
    as (_ & Hvoc & Hsuf).
  split.
  - exact (Hset eq_refl).
  - exact (Hvoc eq_refl
             (Hsuf ltac:(vm_compute; reflexivity) ltac:(vm_compute; reflexivity))).
Defined.


Lemma System_ctor_reuses_map_witness :
  let w := test_world blank_system 0 in
  ∃ w',
    System_ctor "ORBvoc.txt" "settings.yaml" MONOCULAR true "map.bin" w = Ret tt w' ∧
    mpMap (this w') = Some chain_map ∧ mapfile (this w') = "map.bin" ∧
    Frame_nNextId w' = 5 ∧
    constructed (env w) "ORBvoc.txt" MONOCULAR true true (this w').
Proof.
  intros w.
  destruct (System_ctor_reuses_map "ORBvoc.txt" "settings.yaml" MONOCULAR true "map.bin"
              loaded_archive [kf_K2; kf_K1; kf_root] w
              eq_refl ltac:(vm_compute; reflexivity) ltac:(vm_compute; reflexivity)
              eq_refl ltac:(vm_compute; reflexivity))
    as (w' & Hrun & Hc & Hmap & _ & Hmf & Hid & _).
  exists w'. split; [exact Hrun|]. split; [exact Hmap|]. split; [exact Hmf|].
  split; [exact Hid | exact Hc].
Defined.

Lemma walk_ends_at_live_keyframe_witness :
  let w := test_world (test_system STEREO false OK false false false false) 0 in
  let Two := GetPoseInverse kf_root in
  culled_chain (heap w) 11 [kf_K1] kf_root ∧
  frame_Tcw 1 Two (turn_z 1 0 0) 11 w =
    Ret (recovered_Tcw Two (turn_z 1 0 0) [kf_K1] kf_root) w.
Proof.
  intros w Two.
  assert (culled_chain (heap w) 11 [kf_K1] kf_root) as Hc.
  { eapply chain_bad; [reflexivity | reflexivity | reflexivity |].
    apply chain_live; reflexivity. }
  split; [exact Hc|].
  apply (proj1 (walk_ends_at_live_keyframe 1 Two (turn_z 1 0 0) 11 w)).
  split; [reflexivity|]. exists [kf_K1], kf_root.
  split; [exact Hc|]. split; [apply le_n | reflexivity].
Defined.

Lemma export_line_counts_witness :
  let w := test_world (test_system STEREO false OK false false false false) 0 in
  export_ready w chain_tracker kf_root ∧
  ∃ fuel tum kitti,
    SaveTrajectoryTUM fuel "CameraTrajectory.txt" w =
      Ret tt (advance (export_trace "camera" "CameraTrajectory.txt" tum) 0 w) ∧
    SaveTrajectoryKITTI fuel "CameraTrajectory.txt" w =
      Ret tt (advance (export_trace "camera" "CameraTrajectory.txt" kitti) 0 w) ∧
    List.length kitti = 3%nat ∧ (List.length tum + 1)%nat = List.length kitti.
Proof.
  intros w. assert (export_ready w chain_tracker kf_root) as Hready.
  { by apply chain_ready. }
  split; [exact Hready|].
  destruct (export_line_counts "CameraTrajectory.txt" chain_tracker kf_root w Hready)
    as (fuel0 & Hrun).
  destruct (Hrun fuel0 (le_n _)) as (tum & kitti & Ht & Hk & Hlen & Hlost).
  exists fuel0, tum, kitti. split; [exact Ht|]. split; [exact Hk|].
  split; [exact Hlen | exact Hlost].
Defined.


Lemma SaveManual_target_witness :
  let w := test_world (test_system STEREO false NOT_INITIALIZED false false false false) 0 in
  ∃ w',
    SaveManual 1 "map.bin" w = Ret tt w' ∧ mapfile (this w') = "map.bin" ∧
    trace w' = [Cout "ORB-SLAM not initialised. Map not saved."].
Proof.
  intros w.
  destruct (SaveManual_target 1 "map.bin" w) as (target & Ht & Hrefused & _).
  destruct Hrefused as (w' & Hrun & Hmf & Htr).
  { rewrite save_permitted_codes. vm_compute. intros [?|?]; discriminate. }
  exists w'. split; [exact Hrun|]. split; [|exact Htr].
  rewrite Hmf, Ht. vm_compute. reflexivity.
Defined.

Lemma Reset_requests_coalesce_witness :
  let w := test_world (test_system STEREO false OK false false false false) 0 in
  ∃ Tcw w',
    (Reset;; Reset;; TrackStereo 1 "left" "right" 7;;
     TrackStereo 1 "left" "right" 8) w = Ret Tcw w' ∧
    trace w' =
      [T_Reset; T_GrabImageStereo "left" "right" 7; T_GrabImageStereo "left" "right" 8].
Proof.
  intros w.
  exact (proj1 (Reset_requests_coalesce 1 chain_tracker w eq_refl eq_refl)
           eq_refl "left" "right" 7 "left" "right" 8).
Defined.

Lemma System_ctor_postcondition_witness :
  let w := test_world blank_system 0 in
  ∃ w' bReuseMap,
    System_ctor "ORBvoc.txt" "settings.yaml" STEREO false "nomap.bin" w = Ret tt w' ∧
    mapfile (this w') = "nomap.bin" ∧
    constructed (env w) "ORBvoc.txt" STEREO false bReuseMap (this w') ∧
    bReuseMap ≠ true.
Proof.
  intros w.
  assert (∃ w', System_ctor "ORBvoc.txt" "settings.yaml" STEREO false "nomap.bin" w
                = Ret tt w') as (w' & Hrun)
    by (eexists; vm_compute; reflexivity).
  destruct (System_ctor_postcondition _ _ _ _ _ _ _ Hrun)
    as (_ & _ & _ & Hmf & b & Hc & Hiff).
  exists w', b. split; [exact Hrun|]. split; [exact Hmf|]. split; [exact Hc|].
  intros Hb. destruct (proj1 Hiff Hb) as (_ & [ar Har]). discriminate Har.
Defined.

End Concrete.
